(** * Retrieval engine of LLM-Knowledge-Writer: a shallow embedding

    The development follows [src/vector_db_utils.py] (class
    [VectorDBManager]): the chunker [_split_text], the embedding adapter
    [_generate_vectors], the collection store ([create_vector_db],
    [get_vector_db_status]), the search engine ([search_vector_db],
    [_cosine_similarity], [_fallback_keyword_search]) and the reranker
    [rerank_results].

    Conventions of the embedding.
    - A Python [int] is a [Z]; a Python [float] is an IEEE-754 binary64
      value, Rocq's primitive [float].
    - A Python [str] is a [string]; its characters stand for code points
      (the Latin-1 range is the one represented).
    - A value whose shape the code does not control (a decoded JSON
      document, a provider response) is a [pyval].
    - A Python exception is a constructor of [exn]; code that may raise
      returns a [result].
    - The environment the code reads (the API key, the providers, the
      values drawn from [uuid.uuid4], the faults of the file system) is an
      explicit argument; so is what the platform decides of the arithmetic
      (the C library's [pow]) and of a sort whose keys cannot be
      compared. *)

From Stdlib Require Import ZArith List String Ascii Bool Lia Floats.
Import ListNotations.

Local Open Scope Z_scope.

(** ** Python values, exceptions and built-ins *)

Module Py.

Inductive exn : Set :=
| KeyError | TypeError | IndexError | AttributeError
| OSError | JSONDecodeError | RequestException | ZeroDivisionError
| OverflowError | InvalidConfig.

Inductive result (A : Type) : Type :=
| Ok (a : A)
| Raise (e : exn).
Arguments Ok {A} a.
Arguments Raise {A} e.

Definition bind {A B} (r : result A) (k : A -> result B) : result B :=
  match r with
  | Ok a => k a
  | Raise e => Raise e
  end.

(** [try r except Exception: h] *)
Definition try_except {A} (r : result A) (h : exn -> A) : A :=
  match r with
  | Ok a => a
  | Raise e => h e
  end.

#[warnings="-register-all"]
Inductive pyval : Type :=
| PNone
| PBool (b : bool)
| PInt (z : Z)
| PFloat (f : float)
| PStr (s : string)
| PList (l : list pyval)
| PDict (d : list (string * pyval)).

(** *** Strings *)

Definition LF : ascii := "010"%char.
Definition paragraph_sep : string := String LF (String LF EmptyString).
Definition sentence_sep : string := ". "%string.

Definition len_str (s : string) : Z := Z.of_nat (String.length s).

(** [str.isspace] on one character: the white space of Unicode that lies
    in the represented range. *)
Definition is_space (c : ascii) : bool :=
  let n := nat_of_ascii c in
  ((9 <=? n) && (n <=? 13) || (28 <=? n) && (n <=? 32)
   || (n =? 133) || (n =? 160))%nat.

Definition is_empty (s : string) : bool :=
  match s with
  | EmptyString => true
  | String _ _ => false
  end.

Fixpoint lstrip (s : string) : string :=
  match s with
  | EmptyString => EmptyString
  | String c s' => if is_space c then lstrip s' else s
  end.

Fixpoint rstrip (s : string) : string :=
  match s with
  | EmptyString => EmptyString
  | String c s' =>
      let r := rstrip s' in
      if is_space c && is_empty r then EmptyString else String c r
  end.

(** [s.strip()] *)
Definition strip (s : string) : string := rstrip (lstrip s).

Definition cons_head (c : ascii) (l : list string) : list string :=
  match l with
  | [] => [String c EmptyString]
  | p :: ps => String c p :: ps
  end.

(** [s.split(sep)] for a separator [sep] of the two characters [a], [b]:
    the leftmost occurrences, which do not overlap. *)
Fixpoint split2 (a b : ascii) (s : string) : list string :=
  match s with
  | EmptyString => [EmptyString]
  | String c s' =>
      match s' with
      | EmptyString => [String c EmptyString]
      | String c' s'' =>
          if Ascii.eqb c a && Ascii.eqb c' b
          then EmptyString :: split2 a b s''
          else cons_head c (split2 a b s')
      end
  end.

Definition split_paragraphs : string -> list string := split2 LF LF.
Definition split_sentences : string -> list string := split2 "."%char " "%char.

(** [s.lower()] on one character. *)
Definition lower_char (c : ascii) : ascii :=
  let n := nat_of_ascii c in
  if ((65 <=? n) && (n <=? 90)
      || (192 <=? n) && (n <=? 222) && negb (n =? 215))%nat
  then ascii_of_nat (n + 32) else c.

Fixpoint lower (s : string) : string :=
  match s with
  | EmptyString => EmptyString
  | String c s' => String (lower_char c) (lower s')
  end.

(** [needle in hay] on strings *)
Fixpoint str_contains (needle hay : string) : bool :=
  String.prefix needle hay
  || match hay with
     | EmptyString => false
     | String _ hay' => str_contains needle hay'
     end.

(** *** Sequences *)

(** [l[:k]] *)
Definition slice_to {A} (l : list A) (k : Z) : list A :=
  if k <? 0
  then firstn (Z.to_nat (Z.of_nat (List.length l) + k)) l
  else firstn (Z.to_nat k) l.

(** *** Dynamically typed operations *)

Fixpoint assoc (k : string) (d : list (string * pyval)) : option pyval :=
  match d with
  | [] => None
  | (k', v) :: d' => if String.eqb k k' then Some v else assoc k d'
  end.

Definition is_str (s : string) (v : pyval) : bool :=
  match v with
  | PStr t => String.eqb s t
  | _ => false
  end.

(** [key in v] for a string [key] *)
Definition contains_str (key : string) (v : pyval) : result bool :=
  match v with
  | PDict d => Ok (match assoc key d with Some _ => true | None => false end)
  | PList l => Ok (existsb (is_str key) l)
  | PStr s => Ok (str_contains key s)
  | _ => Raise TypeError
  end.

(** [v[key]] for a string [key] *)
Definition getitem_str (v : pyval) (key : string) : result pyval :=
  match v with
  | PDict d => match assoc key d with Some x => Ok x | None => Raise KeyError end
  | _ => Raise TypeError
  end.

(** [v.get(key, default)] *)
Definition get_str (v : pyval) (key : string) (default : pyval) : result pyval :=
  match v with
  | PDict d => Ok (match assoc key d with Some x => x | None => default end)
  | _ => Raise AttributeError
  end.

Fixpoint chars (s : string) : list pyval :=
  match s with
  | EmptyString => []
  | String c s' => PStr (String c EmptyString) :: chars s'
  end.

(** The items a [for] loop over [v] visits. *)
Definition iter (v : pyval) : result (list pyval) :=
  match v with
  | PList l => Ok l
  | PStr s => Ok (chars s)
  | PDict d => Ok (map (fun kv => PStr (fst kv)) d)
  | _ => Raise TypeError
  end.

(** [len(v)] *)
Definition len (v : pyval) : result Z :=
  match v with
  | PList l => Ok (Z.of_nat (List.length l))
  | PStr s => Ok (len_str s)
  | PDict d => Ok (Z.of_nat (List.length d))
  | _ => Raise TypeError
  end.

(** [v[i]] for the position [i] of a loop counter: a list or a string is
    indexed, a dict has no integer key (its keys are strings). *)
Definition getitem_nat (v : pyval) (i : nat) : result pyval :=
  match v with
  | PList l => match nth_error l i with Some x => Ok x | None => Raise IndexError end
  | PStr s => match nth_error (chars s) i with Some x => Ok x | None => Raise IndexError end
  | PDict _ => Raise KeyError
  | _ => Raise TypeError
  end.

(** Truth value of [v], as [if v:] takes it. *)
Definition truthy (v : pyval) : bool :=
  match v with
  | PNone => false
  | PBool b => b
  | PInt z => negb (z =? 0)
  | PFloat f => negb (PrimFloat.eqb f 0%float)
  | PStr s => negb (is_empty s)
  | PList l => match l with [] => false | _ => true end
  | PDict d => match d with [] => false | _ => true end
  end.

End Py.

Export Py.

Notation "x <- r ;; k" := (bind r (fun x => k))
  (at level 61, r at next level, right associativity).

(** ** 4.1 Chunker: [_split_text] *)

Module Chunker.

(** A chunk [{"id": ..., "text": ..., "metadata": {"index": ...}}]. *)
Record chunk : Type := mkChunk {
  chunk_id : string;
  chunk_text : string;
  chunk_index : Z
}.

(** The local variables of [_split_text] that its loops update. *)
Record acc : Type := mkAcc {
  chunks : list chunk;
  current_chunk : string;
  current_size : Z
}.

Section WithUuid.

(** [uuid n] is the string [str(uuid.uuid4())] of the call that follows
    [n] earlier ones; [_split_text] draws one per chunk it appends. *)
Variable uuid : nat -> string.

(** [if current_chunk: chunks.append({...})] *)
Definition save_chunk (cs : list chunk) (cur : string) : list chunk :=
  if is_empty cur then cs
  else cs ++ [mkChunk (uuid (List.length cs)) (strip cur) (Z.of_nat (List.length cs))].

(** Body of [for sentence in sentences]. *)
Definition sentence_step (chunk_size : Z) (st : acc) (sentence : string) : acc :=
  let sentence := strip sentence in
  if is_empty sentence then st
  else if current_size st + len_str sentence <=? chunk_size
  then mkAcc (chunks st)
             (current_chunk st ++ sentence ++ sentence_sep)%string
             (current_size st + (len_str sentence + 2))
  else mkAcc (save_chunk (chunks st) (current_chunk st))
             (sentence ++ sentence_sep)%string
             (len_str sentence + 2).

(** Body of [for paragraph in paragraphs]. *)
Definition paragraph_step (chunk_size : Z) (st : acc) (paragraph : string) : acc :=
  let paragraph := strip paragraph in
  if is_empty paragraph then st
  else if len_str paragraph >? chunk_size
  then fold_left (sentence_step chunk_size) (split_sentences paragraph) st
  else if current_size st + len_str paragraph >? chunk_size
  then mkAcc (save_chunk (chunks st) (current_chunk st))
             (paragraph ++ paragraph_sep)%string
             (len_str paragraph + 2)
  else mkAcc (chunks st)
             (current_chunk st ++ paragraph ++ paragraph_sep)%string
             (current_size st + (len_str paragraph + 2)).

Definition split_loop (text : string) (chunk_size : Z) : acc :=
  fold_left (paragraph_step chunk_size) (split_paragraphs text)
            (mkAcc [] EmptyString 0).

(** [_split_text(text, chunk_size, chunk_overlap)]: no statement of the
    function raises, and [chunk_overlap] is not read. *)
Definition _split_text (text : string) (chunk_size chunk_overlap : Z)
  : result (list chunk) :=
  let st := split_loop text chunk_size in
  Ok (save_chunk (chunks st) (current_chunk st)).

End WithUuid.

End Chunker.

Export Chunker.

(** ** The environment of one call *)

Module Env.

(** What a method of [VectorDBManager] reads from outside the program.
    [embed k texts] is the outcome of [requests.post(...).json()] for the
    request number [k] of the call, on the inputs [texts]: the decoded body,
    or the exception of the transport or of the decoder.

    Two parts of the Python runtime are read from here as well, since their
    results are fixed by the platform and not by the language.
    [libm_pow_half x] is what the C library's [pow(x, 0.5)] returns for a
    finite [x > 0]; it is close to the square root and need not be equal to
    it.  [sort_with_nan key l] is the order [l.sort(key=key, reverse=True)]
    leaves when one of the keys is NaN: the comparisons with NaN are all
    false, and the outcome depends on the runs the sort happens to find. *)
Record env : Type := mkEnv {
  api_key : option string;
  uuid : nat -> string;
  now : string;
  summary : string -> pyval -> string;
  embed : nat -> list string -> result pyval;
  embed_query : string -> result pyval;
  rerank : string -> list pyval -> Z -> result pyval;
  libm_pow_half : float -> float;
  sort_with_nan : forall A : Type, (A -> float) -> list A -> list A
}.

(** [api_key = os.environ.get("OPENAI_API_KEY")] followed by the test
    [if not api_key]: an unset variable and an empty one are both false. *)
Definition has_api_key (e : env) : bool :=
  match api_key e with
  | Some k => negb (is_empty k)
  | None => false
  end.

End Env.

Export Env.

(** ** 4.2 Embedding adapter: [_generate_vectors] *)

Module Embedding.

(** A vector [{"id": ..., "vector": ..., "metadata": {"index": ...}}]; the
    field [vector] is whatever the provider sent as the embedding. *)
Record vector : Type := mkVector {
  vector_id : string;
  vector_vector : pyval;
  vector_index : Z
}.

Definition batch_size : nat := 20.

(** [[0.0] * 1024] *)
Definition placeholder : pyval := PList (repeat (PFloat 0%float) 1024).

(** [for chunk in batch_chunks: vectors.append({... placeholder ...})] *)
Definition placeholder_vectors (batch_chunks : list chunk) : list vector :=
  map (fun c => mkVector (chunk_id c) placeholder (chunk_index c)) batch_chunks.

(** [for j, embedding_data in enumerate(response_data["data"])], from
    position [j] on. The list [vectors] is updated in place, so what was
    appended before an exception stays: the loop returns the list together
    with the exception that ended it, if one did. *)
Fixpoint append_embeddings (batch_chunks : list chunk) (j : nat)
  (items : list pyval) (vectors : list vector) : list vector * option exn :=
  match items with
  | [] => (vectors, None)
  | embedding_data :: rest =>
      match nth_error batch_chunks j with
      | Some c =>
          match getitem_str embedding_data "embedding" with
          | Ok v =>
              append_embeddings batch_chunks (S j) rest
                (vectors ++ [mkVector (chunk_id c) v (chunk_index c)])
          | Raise e => (vectors, Some e)
          end
      | None => append_embeddings batch_chunks (S j) rest vectors
      end
  end.

(** The [try] block of one batch, given the provider's outcome. *)
Definition try_batch (response : result pyval) (batch_chunks : list chunk)
  (vectors : list vector) : list vector * option exn :=
  match response with
  | Raise e => (vectors, Some e)
  | Ok response_data =>
      match contains_str "data" response_data with
      | Raise e => (vectors, Some e)
      | Ok false => (vectors ++ placeholder_vectors batch_chunks, None)
      | Ok true =>
          match getitem_str response_data "data" with
          | Raise e => (vectors, Some e)
          | Ok data =>
              match iter data with
              | Raise e => (vectors, Some e)
              | Ok items => append_embeddings batch_chunks 0 items vectors
              end
          end
      end
  end.

(** One turn of [for i in range(0, len(chunks), batch_size)]: the [try]
    block and its [except Exception] handler. *)
Definition embed_batch (response : result pyval) (batch_chunks : list chunk)
  (vectors : list vector) : list vector :=
  match try_batch response batch_chunks vectors with
  | (vs, None) => vs
  | (vs, Some _) => vs ++ placeholder_vectors batch_chunks
  end.

(** The slices [chunks[i:i+batch_size]] for [i = 0, batch_size, ...]. *)
Fixpoint batches_from {A} (fuel : nat) (l : list A) : list (list A) :=
  match fuel with
  | O => []
  | S fuel' =>
      match l with
      | [] => []
      | _ :: _ => firstn batch_size l :: batches_from fuel' (skipn batch_size l)
      end
  end.

Definition batches {A} (l : list A) : list (list A) :=
  batches_from (List.length l) l.

Fixpoint embed_batches (e : env) (k : nat) (bs : list (list chunk))
  (vectors : list vector) : list vector :=
  match bs with
  | [] => vectors
  | batch_chunks :: bs' =>
      let texts := map chunk_text batch_chunks in
      embed_batches e (S k) bs' (embed_batch (embed e k texts) batch_chunks vectors)
  end.

(** [_generate_vectors(chunks)] *)
Definition _generate_vectors (e : env) (chunks : list chunk) : list vector :=
  if negb (has_api_key e) then placeholder_vectors chunks
  else embed_batches e 0 (batches chunks) [].

End Embedding.

Export Embedding.

(** ** 4.3 Vector collection store *)

Module Store.

(** The text of a file, as [json.load] sees it: a document that decodes to
    a value, or text the decoder rejects (an empty or truncated file). *)
Inductive file : Type :=
| Json (v : pyval)
| Garbage.

Inductive artifact : Set := ChunksFile | VectorsFile | MetadataFile.

(** The directory [persist_directory/doc_id] with its three artifacts
    [chunks.json], [vectors.json] and [metadata.json]. *)
Record dir : Type := mkDir {
  chunks_json : option file;
  vectors_json : option file;
  metadata_json : option file
}.

Definition empty_dir : dir := mkDir None None None.

(** The directories under [persist_directory].  A call reaches its
    directory by the path [os.path.join(persist_directory, doc_id)]; the
    store is keyed by the id as the call spells it.  That is the directory
    of the call's own id.  Two spellings that the file system resolves to
    one directory (["e"], ["e/"], ["./e"]) are two keys here, so what is
    stated of two ids at once is stated of plain names only ([plain_id]
    below). *)
Definition store : Type := string -> option dir.

Definition empty_store : store := fun _ => None.

Definition update (s : store) (doc_id : string) (d : dir) : store :=
  fun k => if String.eqb k doc_id then Some d else s k.

Definition get_file (d : dir) (a : artifact) : option file :=
  match a with
  | ChunksFile => chunks_json d
  | VectorsFile => vectors_json d
  | MetadataFile => metadata_json d
  end.

Definition set_file (d : dir) (a : artifact) (f : file) : dir :=
  match a with
  | ChunksFile => mkDir (Some f) (vectors_json d) (metadata_json d)
  | VectorsFile => mkDir (chunks_json d) (Some f) (metadata_json d)
  | MetadataFile => mkDir (chunks_json d) (vectors_json d) (Some f)
  end.

(** [os.path.exists(file)] *)
Definition file_exists (d : dir) (a : artifact) : bool :=
  match get_file d a with
  | Some _ => true
  | None => false
  end.

(** [with open(file, 'r') as f: json.load(f)] *)
Definition load_json (d : dir) (a : artifact) : result pyval :=
  match get_file d a with
  | Some (Json v) => Ok v
  | Some Garbage => Raise JSONDecodeError
  | None => Raise OSError
  end.

(** The steps of [create_vector_db] that the operating system or the
    encoder can fail: creating the directory, opening each artifact for
    writing, and [json.dump] into it (a value the encoder rejects, a full
    disk). *)
Record faults : Type := mkFaults {
  makedirs_fails : bool;
  open_metadata_fails : bool;
  dump_metadata_fails : bool;
  open_chunks_fails : bool;
  dump_chunks_fails : bool;
  open_vectors_fails : bool;
  dump_vectors_fails : bool
}.

Definition no_faults : faults :=
  mkFaults false false false false false false false.

(** A computation that changes the store and may raise; the store it
    returns is the one the exception leaves behind. *)
Definition io (A : Type) : Type := store -> result A * store.

Definition io_bind {A B} (m : io A) (k : A -> io B) : io B :=
  fun s =>
    match m s with
    | (Ok a, s') => k a s'
    | (Raise e, s') => (Raise e, s')
    end.

Definition io_lift {A} (r : result A) : io A := fun s => (r, s).

(** [os.makedirs(doc_vector_dir, exist_ok=True)] *)
Definition makedirs (fails : bool) (doc_id : string) : io unit :=
  fun s =>
    if fails then (Raise OSError, s)
    else match s doc_id with
         | Some _ => (Ok tt, s)
         | None => (Ok tt, update s doc_id empty_dir)
         end.

(** [with open(file, 'w') as f: json.dump(v, f)]: opening creates the file
    or empties it, and a failing [json.dump] leaves there what it wrote so
    far, which is no JSON document. *)
Definition write_json (open_fails dump_fails : bool) (doc_id : string)
  (a : artifact) (v : pyval) : io unit :=
  fun s =>
    match s doc_id with
    | None => (Raise OSError, s)
    | Some d =>
        if open_fails then (Raise OSError, s)
        else if dump_fails then (Raise OSError, update s doc_id (set_file d a Garbage))
        else (Ok tt, update s doc_id (set_file d a (Json v)))
    end.

Definition chunk_to_json (c : chunk) : pyval :=
  PDict [("id", PStr (chunk_id c)); ("text", PStr (chunk_text c));
         ("metadata", PDict [("index", PInt (chunk_index c))])]%string.

Definition vector_to_json (v : vector) : pyval :=
  PDict [("id", PStr (vector_id v)); ("vector", vector_vector v);
         ("metadata", PDict [("index", PInt (vector_index v))])]%string.

Definition metadata_to_json (e : env) (doc_metadata : pyval)
  (chunk_size chunk_overlap : Z) (doc_summary : string) : pyval :=
  PDict [("original_metadata", doc_metadata);
         ("vector_db_created_at", PStr (now e));
         ("chunk_size", PInt chunk_size);
         ("chunk_overlap", PInt chunk_overlap);
         ("document_summary", PStr doc_summary)]%string.

(** The [try] block of [create_vector_db]; the chunks and vectors it built
    are returned for the statements about them. The default title stands
    for the source's f-string on [doc_id]; the title only feeds the
    summary. *)
Definition create_steps (e : env) (ft : faults) (doc_id doc_content : string)
  (doc_metadata : pyval) (chunk_size chunk_overlap : Z)
  : io (list chunk * list vector) :=
  io_bind (io_lift (get_str doc_metadata "title" (PStr ("doc " ++ doc_id))))
          (fun doc_title =>
  io_bind (makedirs (makedirs_fails ft) doc_id) (fun _ =>
  let doc_summary := summary e doc_content doc_title in
  io_bind (write_json (open_metadata_fails ft) (dump_metadata_fails ft) doc_id
             MetadataFile
             (metadata_to_json e doc_metadata chunk_size chunk_overlap doc_summary))
          (fun _ =>
  io_bind (io_lift (_split_text (uuid e) doc_content chunk_size chunk_overlap))
          (fun chunks =>
  io_bind (write_json (open_chunks_fails ft) (dump_chunks_fails ft) doc_id
             ChunksFile (PList (map chunk_to_json chunks)))
          (fun _ =>
  let vectors := _generate_vectors e chunks in
  io_bind (write_json (open_vectors_fails ft) (dump_vectors_fails ft) doc_id
             VectorsFile (PList (map vector_to_json vectors)))
          (fun _ => io_lift (Ok (chunks, vectors)))))))).

(** [create_vector_db(doc_id, doc_content, doc_metadata, chunk_size,
    chunk_overlap)]: [True] when the [try] block ends, [False] from the
    [except Exception] handler; with the store the call leaves. *)
Definition create_vector_db (e : env) (ft : faults) (doc_id doc_content : string)
  (doc_metadata : pyval) (chunk_size chunk_overlap : Z) (s : store)
  : bool * store :=
  match create_steps e ft doc_id doc_content doc_metadata chunk_size chunk_overlap s with
  | (Ok _, s') => (true, s')
  | (Raise _, s') => (false, s')
  end.

(** The literals [get_vector_db_status] falls back on, which the source
    writes in Chinese. *)
Definition UNKNOWN : pyval := PStr "unknown".
Definition NO_SUMMARY : pyval := PStr "no summary".

(** [get_vector_db_status(doc_id)]: the dict it returns. The two [try]
    blocks swallow every exception; the [metadata.get] calls that build the
    dict are outside them. *)
Definition get_vector_db_status (s : store) (doc_id : string) : result pyval :=
  match s doc_id with
  | None => Ok (PDict [("exists", PBool false)]%string)
  | Some d =>
      let chunks_exist := file_exists d ChunksFile in
      let vectors_exist := file_exists d VectorsFile in
      let metadata_exist := file_exists d MetadataFile in
      let chunks_count :=
        if chunks_exist
        then try_except (chunks <- load_json d ChunksFile ;; len chunks) (fun _ => 0)
        else 0 in
      let metadata :=
        if metadata_exist
        then try_except (load_json d MetadataFile) (fun _ => PDict [])
        else PDict [] in
      created_at <- get_str metadata "vector_db_created_at" UNKNOWN ;;
      chunk_size <- get_str metadata "chunk_size" (PInt 0) ;;
      chunk_overlap <- get_str metadata "chunk_overlap" (PInt 0) ;;
      document_summary <- get_str metadata "document_summary" NO_SUMMARY ;;
      Ok (PDict [("exists", PBool (chunks_exist && vectors_exist));
                 ("chunks_exist", PBool chunks_exist);
                 ("vectors_exist", PBool vectors_exist);
                 ("chunks_count", PInt chunks_count);
                 ("created_at", created_at);
                 ("chunk_size", chunk_size);
                 ("chunk_overlap", chunk_overlap);
                 ("document_summary", document_summary)]%string)
  end.

(** What a caller reads as [get_vector_db_status(doc_id)["exists"]]: the
    collection is observable as existing when the call returns a dict whose
    [exists] entry is [True]. *)
Definition status_exists (s : store) (doc_id : string) : bool :=
  match get_vector_db_status s doc_id with
  | Ok st => match getitem_str st "exists" with
             | Ok (PBool b) => b
             | _ => false
             end
  | Raise _ => false
  end.

End Store.

Export Store.

(** ** 4.4 Similarity search *)

Module Similarity.

Local Open Scope float_scope.

(** [a / b] on floats: a zero divisor raises. *)
Definition float_div (a b : float) : result float :=
  if PrimFloat.eqb b 0 then Raise ZeroDivisionError else Ok (a / b).

(** [float(z)] for an [int]: the nearest double, or [OverflowError]. *)
Definition float_of_int (z : Z) : result float :=
  let f := SF2Prim (binary_normalize prec emax z 0 false) in
  if PrimFloat.is_infinity f then Raise OverflowError else Ok f.

(** A number of Python: an [int], of any size, or a [float]. *)
Inductive num : Type :=
  | NInt (z : Z)
  | NFloat (f : float).

(** The entries [*] and [sum] can work with: a [bool] is the [int] 0 or 1;
    with any other value the product, or the addition that follows it,
    raises ([TypeError] but for a sequence repeated too often; the callers
    treat every exception alike). *)
Definition as_num (v : pyval) : result num :=
  match v with
  | PFloat f => Ok (NFloat f)
  | PInt z => Ok (NInt z)
  | PBool b => Ok (NInt (if b then 1 else 0))
  | _ => Raise TypeError
  end.

(** The operand of a float operation: an [int] is converted, and one
    beyond the doubles raises [OverflowError]. *)
Definition to_float (n : num) : result float :=
  match n with
  | NInt z => float_of_int z
  | NFloat f => Ok f
  end.

(** [a * b]: exact on two [int]s, a float product as soon as one operand is
    a [float]. *)
Definition num_mul (a b : num) : result num :=
  match a, b with
  | NInt x, NInt y => Ok (NInt (x * y)%Z)
  | _, _ => bind (to_float a) (fun fa => bind (to_float b) (fun fb =>
            Ok (NFloat (fa * fb))))
  end.

(** [a + b], likewise. *)
Definition num_add (a b : num) : result num :=
  match a, b with
  | NInt x, NInt y => Ok (NInt (x + y)%Z)
  | _, _ => bind (to_float a) (fun fa => bind (to_float b) (fun fb =>
            Ok (NFloat (fa + fb))))
  end.

(** [sum(a * b for a, b in pairs)], from the running total [total]: each
    product is formed and added before the next pair is looked at.  The
    additions are the plain ones of CPython up to 3.11. *)
Fixpoint sum_products (pairs : list (pyval * pyval)) (total : num) : result num :=
  match pairs with
  | [] => Ok total
  | (a, b) :: rest =>
      bind (as_num a) (fun x => bind (as_num b) (fun y =>
      bind (num_mul x y) (fun p =>
      bind (num_add total p) (fun total' =>
      sum_products rest total'))))
  end.

(** [sum(a * b for a, b in zip(vec1, vec2))]: the sum starts from the
    [int] 0. *)
Definition dot_product (vec1 vec2 : list pyval) : result num :=
  sum_products (combine vec1 vec2) (NInt 0).

(** [x ** 0.5] on a float.  [float_pow] answers NaN, the infinities, zero
    and one itself and leaves the other bases to the C library.  (A
    negative base gives a complex number; a sum of squares is never
    negative, so that branch is not modelled and is left to the library as
    well.) *)
Definition pow_half (libm : float -> float) (x : float) : float :=
  if PrimFloat.is_nan x then x
  else if PrimFloat.is_infinity x then PrimFloat.abs x
  else if PrimFloat.eqb x 0 then 0
  else if PrimFloat.eqb x 1 then 1
  else libm x.

(** [sum(a * a for a in vec) ** 0.5]: an [int] sum is converted to a float
    by [**]. *)
Definition magnitude (libm : float -> float) (vec : list pyval) : result float :=
  bind (sum_products (map (fun a => (a, a)) vec) (NInt 0)) (fun total =>
  bind (to_float total) (fun x =>
  Ok (pow_half libm x))).

(** [_cosine_similarity(vec1, vec2)] *)
Definition _cosine_similarity (libm : float -> float) (vec1 vec2 : list pyval)
  : result float :=
  if negb (Nat.eqb (List.length vec1) (List.length vec2)) then Ok 0
  else
    bind (dot_product vec1 vec2) (fun dot_product =>
    bind (magnitude libm vec1) (fun magnitude1 =>
    bind (magnitude libm vec2) (fun magnitude2 =>
    if PrimFloat.eqb (magnitude1 * magnitude2) 0 then Ok 0
    else bind (to_float dot_product) (fun d =>
         float_div d (magnitude1 * magnitude2))))).

(** [_cosine_similarity] on two values read from JSON. *)
Definition cosine_of_values (e : env) (vec1 vec2 : pyval) : result float :=
  bind (iter vec1) (fun l1 => bind (iter vec2) (fun l2 =>
  _cosine_similarity (libm_pow_half e) l1 l2)).

(** A search result [{"text": ..., "score": ..., "metadata": ...}]. *)
Record hit : Type := mkHit {
  hit_text : pyval;
  hit_score : float;
  hit_metadata : pyval
}.

(** No score is NaN. *)
Definition nan_free (l : list hit) : bool :=
  forallb (fun h => negb (PrimFloat.is_nan (hit_score h))) l.

(** A stable sort into descending order that compares keys with [<] only;
    elements with equal keys keep their order. *)
Fixpoint insert_desc (x : hit) (l : list hit) : list hit :=
  match l with
  | [] => [x]
  | y :: l' =>
      if PrimFloat.ltb (hit_score x) (hit_score y)
      then y :: insert_desc x l'
      else x :: l
  end.

(** [results.sort(key=lambda x: x["score"], reverse=True)]: the stable
    descending sort when the scores can be compared, and what the runtime
    leaves when one of them is NaN. *)
Definition sort_desc (e : env) (l : list hit) : list hit :=
  if nan_free l then fold_right insert_desc [] l
  else sort_with_nan e hit hit_score l.

(** The placeholder score [0.8] of a keyword match. *)
Definition keyword_score : float := 0x1.999999999999ap-1.

(** [s.lower()] on a value: only a [str] has the method. *)
Definition lower_of_value (v : pyval) : result string :=
  match v with
  | PStr s => Ok (lower s)
  | _ => Raise AttributeError
  end.

(** Body of [for chunk in chunks] in [_fallback_keyword_search]. *)
Definition keyword_step (query : string) (results : list hit) (chunk : pyval)
  : result (list hit) :=
  bind (getitem_str chunk "text") (fun t =>
  bind (lower_of_value t) (fun lt =>
  if str_contains (lower query) lt
  then bind (getitem_str chunk "text") (fun text =>
       bind (getitem_str chunk "metadata") (fun metadata =>
       Ok (results ++ [mkHit text keyword_score metadata])))
  else Ok results)).

Fixpoint keyword_loop (query : string) (items : list pyval) (results : list hit)
  : result (list hit) :=
  match items with
  | [] => Ok results
  | chunk :: rest =>
      bind (keyword_step query results chunk) (fun results' =>
      keyword_loop query rest results')
  end.

(** [_fallback_keyword_search(chunks, query, top_k)] *)
Definition _fallback_keyword_search (e : env) (chunks : pyval) (query : string)
  (top_k : Z) : result (list hit) :=
  bind (iter chunks) (fun items =>
  bind (keyword_loop query items []) (fun results =>
  Ok (slice_to (sort_desc e results) top_k))).

(** [_generate_query_vector(query)] *)
Definition _generate_query_vector (e : env) (query : string) : pyval :=
  if negb (has_api_key e) then PList []
  else
    try_except
      (bind (embed_query e query) (fun response_data =>
       bind (contains_str "data" response_data) (fun has_data =>
       if has_data
       then bind (getitem_str response_data "data") (fun data =>
            bind (len data) (fun n =>
            if (n >? 0)%Z
            then bind (getitem_nat data 0) (fun first =>
                 getitem_str first "embedding")
            else Ok (PList [])))
       else Ok (PList []))))
      (fun _ => PList []).

(** Body of [for i, vector in enumerate(vectors)] in [search_vector_db]. *)
Definition rank_step (e : env) (chunks query_vector : pyval) (i : nat)
  (vector : pyval) (results : list hit) : result (list hit) :=
  bind (len chunks) (fun n =>
  if (Z.of_nat i <? n)%Z
  then bind (getitem_str vector "vector") (fun vv =>
       bind (len vv) (fun lv =>
       bind (len query_vector) (fun lq =>
       if negb (lv =? lq)%Z then Ok results
       else bind (cosine_of_values e query_vector vv) (fun similarity =>
            bind (getitem_nat chunks i) (fun c =>
            bind (getitem_str c "text") (fun text =>
            bind (getitem_str c "metadata") (fun metadata =>
            Ok (results ++ [mkHit text similarity metadata]))))))))
  else Ok results).

Fixpoint rank_loop (e : env) (chunks query_vector : pyval) (i : nat)
  (items : list pyval) (results : list hit) : result (list hit) :=
  match items with
  | [] => Ok results
  | vector :: rest =>
      bind (rank_step e chunks query_vector i vector results) (fun results' =>
      rank_loop e chunks query_vector (S i) rest results')
  end.

(** [not query_vector or len(query_vector) == 0] *)
Definition query_vector_unusable (query_vector : pyval) : result bool :=
  if negb (truthy query_vector) then Ok true
  else bind (len query_vector) (fun n => Ok (n =? 0)%Z).

(** The [try] block of [search_vector_db] up to the end of the loop: the
    chunks it loaded, and the list [results] as the loop leaves it, before
    it is sorted; [None] for the list when the query vector is unusable and
    the keyword search answers instead. *)
Definition scored (e : env) (d : dir) (query : string)
  : result (pyval * option (list hit)) :=
  bind (load_json d ChunksFile) (fun chunks =>
  bind (load_json d VectorsFile) (fun vectors =>
  bind (len chunks) (fun _ =>
  bind (len vectors) (fun _ =>
  let query_vector := _generate_query_vector e query in
  bind (query_vector_unusable query_vector) (fun unusable =>
  if unusable then Ok (chunks, None)
  else bind (iter vectors) (fun items =>
       bind (rank_loop e chunks query_vector 0 items []) (fun results =>
       Ok (chunks, Some results)))))))).

(** The [try] block of [search_vector_db]. *)
Definition vector_search (e : env) (d : dir) (query : string) (top_k : Z)
  : result (list hit) :=
  bind (scored e d query) (fun r =>
  match r with
  | (chunks, None) => _fallback_keyword_search e chunks query top_k
  | (_, Some results) => Ok (slice_to (sort_desc e results) top_k)
  end).

(** The handler [except Exception] of [search_vector_db]: the keyword
    search over the chunks read again, and [[]] when that raises too. *)
Definition keyword_rescue (e : env) (d : dir) (query : string) (top_k : Z)
  : list hit :=
  try_except
    (bind (load_json d ChunksFile) (fun chunks =>
     _fallback_keyword_search e chunks query top_k))
    (fun _ => []).

(** [search_vector_db(doc_id, query, top_k)] *)
Definition search_vector_db (e : env) (s : store) (doc_id query : string)
  (top_k : Z) : list hit :=
  match s doc_id with
  | None => []
  | Some d =>
      if negb (file_exists d ChunksFile) || negb (file_exists d VectorsFile)
      then []
      else try_except (vector_search e d query top_k)
                      (fun _ => keyword_rescue e d query top_k)
  end.

End Similarity.

Export Similarity.

(** ** 4.5 Reranker: [rerank_results] *)

Module Rerank.

(** A candidate [{"text": ..., "score": ..., ...}]: the results of
    [search_vector_db], which callers may tag with further entries. *)
Record doc : Type := mkDoc {
  doc_text : pyval;
  doc_score : option pyval;
  doc_extra : list (string * pyval)
}.

(** [doc.get("score", 0)] *)
Definition score_or_zero (d : doc) : pyval :=
  match doc_score d with
  | Some v => v
  | None => PInt 0
  end.

(** [0 <= idx < len(documents)] followed by [documents[idx]]: the position
    selected, [None] when the test is false. A [bool] counts as the integer
    it is; a [float] passes the test but is no list index. *)
Definition select_index (idx : pyval) (n : nat) : result (option nat) :=
  match idx with
  | PInt z => Ok (if (0 <=? z) && (z <? Z.of_nat n) then Some (Z.to_nat z) else None)
  | PBool b =>
      let z := if b then 1 else 0 in
      Ok (if (z <? Z.of_nat n) then Some (Z.to_nat z) else None)
  | PFloat f =>
      bind (float_of_int (Z.of_nat n)) (fun fn =>
      if PrimFloat.leb 0 f && PrimFloat.ltb f fn then Raise TypeError else Ok None)
  | _ => Raise TypeError
  end.

(** Body of [for result in response_data["results"]]. *)
Definition rerank_step (documents reranked_docs : list doc) (result : pyval)
  : Py.result (list doc) :=
  bind (get_str result "index" (PInt (-1))) (fun idx =>
  bind (select_index idx (List.length documents)) (fun sel =>
  match sel with
  | None => Ok reranked_docs
  | Some i =>
      match nth_error documents i with
      | None => Raise IndexError
      | Some d =>
          bind (get_str result "relevance_score" (score_or_zero d)) (fun sc =>
          Ok (reranked_docs ++ [mkDoc (doc_text d) (Some sc) (doc_extra d)]))
      end
  end)).

Fixpoint rerank_loop (documents : list doc) (results : list pyval)
  (reranked_docs : list doc) : Py.result (list doc) :=
  match results with
  | [] => Ok reranked_docs
  | result :: rest =>
      bind (rerank_step documents reranked_docs result) (fun reranked_docs' =>
      rerank_loop documents rest reranked_docs')
  end.

(** The [try] block of [rerank_results], given the provider's outcome. *)
Definition rerank_try (response : Py.result pyval) (documents : list doc)
  (top_k : Z) : Py.result (list doc) :=
  bind response (fun response_data =>
  bind (contains_str "results" response_data) (fun has_results =>
  if has_results
  then bind (getitem_str response_data "results") (fun results =>
       bind (iter results) (fun items =>
       rerank_loop documents items []))
  else Ok (slice_to documents top_k))).

(** [rerank_results(query, documents, top_k)] *)
Definition rerank_results (e : env) (query : string) (documents : list doc)
  (top_k : Z) : list doc :=
  if negb (has_api_key e) then slice_to documents top_k
  else
    let doc_texts := map doc_text documents in
    try_except (rerank_try (rerank e query doc_texts top_k) documents top_k)
               (fun _ => slice_to documents top_k).

End Rerank.

Export Rerank.

(** * Vocabulary of the statements *)

Module Spec.

(** The ordinals of a chunk list are its positions [0, 1, ..., n-1]. *)
Definition indexed (cs : list chunk) : Prop :=
  map chunk_index cs = map Z.of_nat (seq 0 (List.length cs)).

(** Every character of [s] is white space. *)
Fixpoint all_space (s : string) : bool :=
  match s with
  | EmptyString => true
  | String c s' => is_space c && all_space s'
  end.

(** The sentences [_split_text] meets when it cuts every paragraph: the
    stripped, non-empty pieces between [". "] of each stripped paragraph,
    in order. *)
Definition sentences_of (text : string) : list string :=
  flat_map
    (fun paragraph =>
       filter (fun s => negb (is_empty s))
              (map strip (split_sentences (strip paragraph))))
    (split_paragraphs text).

(** The text of the chunk that holds the sentence [s] alone. *)
Definition lone_sentence (s : string) : string :=
  strip (s ++ sentence_sep).

(** The chunk texts a state stands for, were the loop to stop there. *)
Definition texts_of (uuid : nat -> string) (st : acc) : list string :=
  map chunk_text (save_chunk uuid (chunks st) (current_chunk st)).

(** The sum of [len(p) + 2] over the pieces [p]. *)
Fixpoint padded_length (ps : list string) : Z :=
  match ps with
  | [] => 0
  | p :: ps' => len_str p + 2 + padded_length ps'
  end.

(** The vectors artifact of [doc_id] is present. *)
Definition vectors_present (s : store) (doc_id : string) : bool :=
  match s doc_id with
  | Some d => file_exists d VectorsFile
  | None => false
  end.

(** Both the chunks artifact and the vectors artifact of [doc_id] are
    present. *)
Definition collection_present (s : store) (doc_id : string) : bool :=
  match s doc_id with
  | Some d => file_exists d ChunksFile && file_exists d VectorsFile
  | None => false
  end.

(** An item of a provider's ["data"] list that carries an embedding. *)
Definition has_embedding (item : pyval) : Prop :=
  exists v, getitem_str item "embedding" = Ok v.

(** The provider answers every request with a body [{"data": [...]}] that
    holds one embedding per text of the request. *)
Definition provider_well_behaved (e : env) : Prop :=
  forall k texts, exists d items,
    embed e k texts = Ok (PDict d)
    /\ assoc "data" d = Some (PList items)
    /\ List.length items = List.length texts
    /\ Forall has_embedding items.

(** The chunk [c] matches [query], letter case aside. *)
Definition keyword_match (query : string) (c : chunk) : bool :=
  str_contains (lower query) (lower (chunk_text c)).

(** The result the keyword search builds for the chunk [c]. *)
Definition keyword_hit (c : chunk) : hit :=
  mkHit (PStr (chunk_text c)) keyword_score
        (PDict [("index", PInt (chunk_index c))]%string).

(** Each score is at least the next one. *)
Fixpoint descending (l : list hit) : bool :=
  match l with
  | [] => true
  | x :: l' =>
      match l' with
      | [] => true
      | y :: _ => PrimFloat.leb (hit_score y) (hit_score x) && descending l'
      end
  end.

(** A vector of floats, as a Python list. *)
Definition floats (a : list float) : list pyval := map PFloat a.

(** The sum of floats, added one by one from zero. *)
Definition float_sum (xs : list float) : float :=
  fold_left PrimFloat.add xs 0%float.

(** The dot product of two float vectors, over their common positions. *)
Definition float_dot (a b : list float) : float :=
  float_sum (map (fun ab => PrimFloat.mul (fst ab) (snd ab)) (combine a b)).

(** The magnitude of a float vector: the power 0.5 of the sum of its
    squares. *)
Definition float_magnitude (libm : float -> float) (a : list float) : float :=
  pow_half libm (float_sum (map (fun x => PrimFloat.mul x x) a)).

(** A document id that names an entry of the persist directory itself: it
    is not empty, holds no [/], and is neither [.] nor [..]. *)
Definition plain_id (doc_id : string) : bool :=
  negb (is_empty doc_id)
  && negb (str_contains "/" doc_id)
  && negb (String.eqb doc_id ".")
  && negb (String.eqb doc_id "..").

(** Two ids that name two different entries of the persist directory,
    also where the file system takes no notice of letter case. *)
Definition names_apart (doc_id other : string) : Prop :=
  plain_id doc_id = true /\ plain_id other = true
  /\ lower other <> lower doc_id.

(** The rerank provider gives [rerank_results] nothing to use: no
    credentials, a failed call, or a body without a [results] entry. *)
Definition provider_unreachable (e : env) (query : string)
  (documents : list doc) (top_k : Z) : Prop :=
  has_api_key e = false
  \/ (exists ex, rerank e query (map doc_text documents) top_k = Raise ex)
  \/ (exists response_data,
        rerank e query (map doc_text documents) top_k = Ok response_data
        /\ contains_str "results" response_data <> Ok true).

End Spec.

Export Spec.

(** * Worked inputs *)

Module Demo.

(** A source of identifiers: the call number [n] yields the letter number
    [n] of the alphabet. *)
Definition demo_uuid (n : nat) : string :=
  String (ascii_of_nat (97 + n)) EmptyString.

(** ["A.\n\nB.\n\nC."] *)
Definition three_paragraphs : string :=
  ("A." ++ paragraph_sep ++ "B." ++ paragraph_sep ++ "C.")%string.

(** A C library whose [pow(x, 0.5)] is the correctly rounded square
    root. *)
Definition exact_pow_half : float -> float := PrimFloat.sqrt.

(** A runtime whose sort, on keys with a NaN among them, places each
    element, from the last to the first, ahead of the others unless its key
    is less than the next one's.  CPython leaves the lists of the examples
    below in the same order. *)
Fixpoint insert_by {A : Type} (key : A -> float) (x : A) (l : list A) : list A :=
  match l with
  | [] => [x]
  | y :: l' =>
      if PrimFloat.ltb (key x) (key y) then y :: insert_by key x l' else x :: l
  end.

Definition insertion_sort (A : Type) (key : A -> float) (l : list A) : list A :=
  fold_right (insert_by key) [] l.

(** An environment without credentials, whose providers cannot be
    reached. *)
Definition offline : env :=
  mkEnv None demo_uuid "2024-01-01" (fun _ _ => "no summary"%string)
        (fun _ _ => Raise RequestException)
        (fun _ => Raise RequestException)
        (fun _ _ _ => Raise RequestException)
        exact_pow_half insertion_sort.

(** Credentials are set and the embedding provider answers every request
    with [response]. *)
Definition embedding_answers (response : pyval) : env :=
  mkEnv (Some "key"%string) demo_uuid "2024-01-01" (fun _ _ => "no summary"%string)
        (fun _ _ => Ok response)
        (fun _ => Ok response)
        (fun _ _ _ => Raise RequestException)
        exact_pow_half insertion_sort.

(** Credentials are set and the rerank provider answers every request
    with [response]. *)
Definition rerank_answers (response : pyval) : env :=
  mkEnv (Some "key"%string) demo_uuid "2024-01-01" (fun _ _ => "no summary"%string)
        (fun _ _ => Raise RequestException)
        (fun _ => Raise RequestException)
        (fun _ _ _ => Ok response)
        exact_pow_half insertion_sort.

Definition chunk_a : chunk := mkChunk "a" "alpha" 0.
Definition chunk_b : chunk := mkChunk "b" "beta" 1.

(** [{"data": []}]: a body with no embedding in it. *)
Definition no_embeddings : pyval := PDict [("data", PList [])]%string.

(** [{"data": [{"embedding": [1.0]}, {}]}]: the second item has no
    embedding. *)
Definition second_item_broken : pyval :=
  PDict [("data",
          PList [PDict [("embedding", PList [PFloat 1%float])]; PDict []])]%string.

(** A collection built earlier, with no chunk in it. *)
Definition built_dir : dir :=
  mkDir (Some (Json (PList []))) (Some (Json (PList []))) (Some (Json (PDict []))).

Definition store_with_d : store := update empty_store "d" built_dir.

(** [json.dump] of the metadata raises (say, on a value of the document's
    metadata that JSON cannot encode). *)
Definition metadata_dump_fault : faults :=
  mkFaults false false true false false false false.

(** [json.dump] of the vectors raises after the file was opened. *)
Definition vectors_dump_fault : faults :=
  mkFaults false false false false false false true.

(** Three chunks as [chunks.json] holds them; each text has ["beta"] in it,
    in one case or another. *)
Definition three_chunks : pyval :=
  PList [chunk_to_json (mkChunk "a" "alpha beta" 0);
         chunk_to_json (mkChunk "b" "Beta gamma" 1);
         chunk_to_json (mkChunk "c" "beta" 2)].

Definition vector_json (i : string) (x y : float) (n : Z) : pyval :=
  vector_to_json (mkVector i (PList [PFloat x; PFloat y]) n).

Definition three_vectors : pyval :=
  PList [vector_json "a" 1 0 0; vector_json "b" 0 1 1; vector_json "c" 1 1 2].

(** The first vector is the zero vector, as a placeholder is. *)
Definition vectors_with_zero : pyval :=
  PList [vector_json "a" 0 0 0; vector_json "b" 1 0 1; vector_json "c" 1 1 2].

Definition searchable : store :=
  update empty_store "d"
    (mkDir (Some (Json three_chunks)) (Some (Json three_vectors))
           (Some (Json (PDict [])))).

Definition searchable_with_zero : store :=
  update empty_store "d"
    (mkDir (Some (Json three_chunks)) (Some (Json vectors_with_zero))
           (Some (Json (PDict [])))).

(** The vectors artifact is no JSON document. *)
Definition vectors_corrupt : store :=
  update empty_store "d"
    (mkDir (Some (Json three_chunks)) (Some Garbage) (Some (Json (PDict [])))).

(** [{"data": [{"embedding": [x, y]}]}] *)
Definition embedding_body (x y : float) : pyval :=
  PDict [("data", PList [PDict [("embedding", PList [PFloat x; PFloat y])]])]%string.

(** A finite double whose square is not: [2^700]. *)
Definition huge : float := 0x1p+700.

Definition candidate (t : string) (sc : float) : doc :=
  mkDoc (PStr t) (Some (PFloat sc)) [].

Definition two_candidates : list doc :=
  [candidate "first" 0x1p-1; candidate "second" 0x1p-2].

Definition rerank_item (i : Z) (sc : float) : pyval :=
  PDict [("index", PInt i); ("relevance_score", PFloat sc)]%string.

(** [{"results": [{"index": 1, ...}, {"index": 0, ...}]}]: two results,
    whatever [top_n] asked for. *)
Definition two_results : pyval :=
  PDict [("results", PList [rerank_item 1 0x1.8p-1; rerank_item 0 0x1p-3])]%string.

(** [{"results": [{"index": 5, ...}, {"index": -1, ...}, {"index": 1, ...}]}] *)
Definition results_out_of_range : pyval :=
  PDict [("results", PList [rerank_item 5 0x1.8p-1; rerank_item (-1) 0x1p-1;
                            rerank_item 1 0x1p-3])]%string.

End Demo.

Export Demo.

(** * Further vocabulary and models *)

Module More.

(** A chunk text that came out of [strip] and has a character that is not
    white space. *)
Definition solid (t : string) : Prop :=
  all_space t = false /\ strip t = t.

Definition solid_state (st : acc) : Prop :=
  Forall (fun c => solid (chunk_text c)) (chunks st)
  /\ (is_empty (current_chunk st) = true \/ all_space (current_chunk st) = false).

(** The ids of a chunk list are the first values of the source [uuid]. *)
Definition numbered (uuid : nat -> string) (cs : list chunk) : Prop :=
  map chunk_id cs = map uuid (seq 0 (List.length cs)).

(** The state of the paragraph loop while every chunk, closed or open,
    stays within [chunk_size]: [current_size] is the length of
    [current_chunk], which is empty or a body of at most [chunk_size]
    characters followed by the separator. *)
Definition sized_state (chunk_size : Z) (st : acc) : Prop :=
  current_size st = len_str (current_chunk st)
  /\ Forall (fun c => len_str (chunk_text c) <= chunk_size) (chunks st)
  /\ (current_chunk st = EmptyString
      \/ exists body, current_chunk st = (body ++ paragraph_sep)%string
                      /\ len_str body <= chunk_size).

(** A source of identifiers that never repeats: the call number [n] yields
    [n] letters. *)
Fixpoint tally (n : nat) : string :=
  match n with
  | O => EmptyString
  | S n' => String "x" (tally n')
  end.

(** No request of the call yields a body the adapter can use: the call
    raises, or the body has no ["data"] entry, or cannot be searched for
    one. *)
Definition no_usable_body (e : env) : Prop :=
  forall k texts,
    (exists ex, embed e k texts = Raise ex)
    \/ (exists v, embed e k texts = Ok v /\ contains_str "data" v = Ok false)
    \/ (exists v ex, embed e k texts = Ok v /\ contains_str "data" v = Raise ex).

(** The vector [v] carries the id and the index of the chunk [c]. *)
Definition tags_of (c : chunk) (v : vector) : Prop :=
  vector_id v = chunk_id c /\ vector_index v = chunk_index c.

(** The id and the index a chunk is known by, and those a vector carries. *)
Definition chunk_tag (c : chunk) : string * Z := (chunk_id c, chunk_index c).

Definition vector_tag (v : vector) : string * Z := (vector_id v, vector_index v).

Definition tag_eq_dec (x y : string * Z) : {x = y} + {x <> y}.
Proof. decide equality; [apply Z.eq_dec|apply string_dec]. Defined.

(** How many of the chunks, and how many of the vectors, go by the tag
    [t]. *)
Definition chunks_tagged (t : string * Z) (cs : list chunk) : nat :=
  count_occ tag_eq_dec (map chunk_tag cs) t.

Definition vectors_tagged (t : string * Z) (vs : list vector) : nat :=
  count_occ tag_eq_dec (map vector_tag vs) t.

(** The vector [v] carries the id and the index of one of the chunks. *)
Definition from_chunks (cs : list chunk) (v : vector) : Prop :=
  exists c, In c cs /\ tags_of c v.

(** An embedding provider that answers each text with the embedding
    [[1.0]], and credentials to call it. *)
Definition unit_provider : env :=
  mkEnv (Some "key"%string) tally "2024-01-01" (fun _ _ => "no summary"%string)
        (fun _ texts =>
           Ok (PDict [("data",
                       PList (map (fun _ : string =>
                                     PDict [("embedding", PList [PFloat 1%float])]%string)
                                  texts))]%string))
        (fun _ => Raise RequestException)
        (fun _ _ _ => Raise RequestException)
        exact_pow_half insertion_sort.

(** ** [delete_vector_db] *)

(** What the operating system does to one call of [delete_vector_db]:
    the order in which [os.listdir] names the entries of the directory,
    and the steps it fails. *)
Record delete_os : Type := mkDeleteOs {
  list_order : list artifact;
  listdir_fails : bool;
  remove_fails : artifact -> bool;
  rmdir_fails : bool
}.

(** An operating system that fails nothing and lists the artifacts in the
    order [order]. *)
Definition obliging (order : list artifact) : delete_os :=
  mkDeleteOs order false (fun _ => false) false.

Definition clear_file (d : dir) (a : artifact) : dir :=
  match a with
  | ChunksFile => mkDir None (vectors_json d) (metadata_json d)
  | VectorsFile => mkDir (chunks_json d) None (metadata_json d)
  | MetadataFile => mkDir (chunks_json d) (vectors_json d) None
  end.

Definition unset (s : store) (doc_id : string) : store :=
  fun k => if String.eqb k doc_id then None else s k.

(** [os.listdir(doc_vector_dir)]: the artifacts present, as the system
    orders them. *)
Definition listdir (os : delete_os) (d : dir) : list artifact :=
  filter (file_exists d) (list_order os).

(** [os.remove(os.path.join(doc_vector_dir, file))] *)
Definition remove (fails : bool) (doc_id : string) (a : artifact) : io unit :=
  fun s =>
    match s doc_id with
    | None => (Raise OSError, s)
    | Some d =>
        if fails || negb (file_exists d a) then (Raise OSError, s)
        else (Ok tt, update s doc_id (clear_file d a))
    end.

(** [for file in os.listdir(doc_vector_dir): os.remove(...)] *)
Fixpoint remove_all (os : delete_os) (doc_id : string) (files : list artifact)
  : io unit :=
  match files with
  | [] => io_lift (Ok tt)
  | a :: rest =>
      io_bind (remove (remove_fails os a) doc_id a)
              (fun _ => remove_all os doc_id rest)
  end.

Definition dir_is_empty (d : dir) : bool :=
  negb (file_exists d ChunksFile || file_exists d VectorsFile
        || file_exists d MetadataFile).

(** [os.rmdir(doc_vector_dir)]: only an empty directory is removed. *)
Definition rmdir (fails : bool) (doc_id : string) : io unit :=
  fun s =>
    match s doc_id with
    | None => (Raise OSError, s)
    | Some d =>
        if fails || negb (dir_is_empty d) then (Raise OSError, s)
        else (Ok tt, unset s doc_id)
    end.

(** [delete_vector_db(doc_id)] *)
Definition delete_vector_db (os : delete_os) (doc_id : string) (s : store)
  : bool * store :=
  match s doc_id with
  | None => (true, s)
  | Some d =>
      if listdir_fails os then (false, s)
      else
        match io_bind (remove_all os doc_id (listdir os d))
                      (fun _ => rmdir (rmdir_fails os) doc_id) s with
        | (Ok _, s') => (true, s')
        | (Raise _, s') => (false, s')
        end
  end.

(** [doc_metadata.get("title", ...)] on a dict. *)
Definition title_of (md : list (string * pyval)) (doc_id : string) : pyval :=
  match assoc "title" md with
  | Some t => t
  | None => PStr ("doc " ++ doc_id)
  end.

(** The directory a successful [create_vector_db] leaves. *)
Definition built (e : env) (doc_id doc_content : string)
  (md : list (string * pyval)) (chunk_size chunk_overlap : Z) (cs : list chunk)
  : dir :=
  let doc_title := title_of md doc_id in
  mkDir (Some (Json (PList (map chunk_to_json cs))))
        (Some (Json (PList (map vector_to_json (_generate_vectors e cs)))))
        (Some (Json (metadata_to_json e (PDict md) chunk_size chunk_overlap
                       (summary e doc_content doc_title)))).

(** A failing [open] of the chunks artifact. *)
Definition chunks_open_fault : faults :=
  mkFaults false false false true false false false.

(** The dict [get_vector_db_status] returns for a directory that exists. *)
Definition status_dict (chunks_exist vectors_exist : bool) (chunks_count : Z)
  (created_at chunk_size chunk_overlap document_summary : pyval) : pyval :=
  PDict [("exists", PBool (chunks_exist && vectors_exist));
         ("chunks_exist", PBool chunks_exist);
         ("vectors_exist", PBool vectors_exist);
         ("chunks_count", PInt chunks_count);
         ("created_at", created_at);
         ("chunk_size", chunk_size);
         ("chunk_overlap", chunk_overlap);
         ("document_summary", document_summary)]%string.

(** A computation that leaves every directory but that of [doc_id] as it
    found it, whatever its outcome. *)
Definition touches_only {A} (doc_id : string) (m : io A) : Prop :=
  forall s r s', m s = (r, s') -> forall k, k <> doc_id -> s' k = s k.

(** A directory whose metadata artifact decodes to a list. *)
Definition odd_metadata : store :=
  update empty_store "d"
    (mkDir (Some (Json three_chunks)) (Some (Json three_vectors))
           (Some (Json (PList [])))).

(** A directory with chunks and vectors but no metadata artifact. *)
Definition no_metadata : store :=
  update empty_store "d"
    (mkDir (Some (Json three_chunks)) (Some (Json three_vectors)) None).

(** The operating system refuses to remove the vectors artifact. *)
Definition vectors_locked : delete_os :=
  mkDeleteOs [ChunksFile; VectorsFile; MetadataFile] false
    (fun a => match a with VectorsFile => true | _ => false end) false.

(** The result the cosine path builds for the chunk [c] when its vector
    scores zero. *)
Definition zero_hit (c : chunk) : hit :=
  mkHit (PStr (chunk_text c)) 0%float
        (PDict [("index", PInt (chunk_index c))]%string).

Definition three_chunk_list : list chunk :=
  [mkChunk "a" "alpha beta" 0; mkChunk "b" "Beta gamma" 1; mkChunk "c" "beta" 2].

Definition zero_vector_list : list vector :=
  map (fun c => mkVector (chunk_id c) (PList (repeat (PFloat 0%float) 2))
                         (chunk_index c)) three_chunk_list.

(** A collection whose vectors are all zero vectors, as a build without
    provider leaves them (here of dimension two). *)
Definition all_zero_dir : dir :=
  mkDir (Some (Json (PList (map chunk_to_json three_chunk_list))))
        (Some (Json (PList (map vector_to_json zero_vector_list))))
        (Some (Json (PDict []))).

Definition all_zero : store := update empty_store "d" all_zero_dir.

(** A collection whose vectors have three entries each. *)
Definition three_dim_vectors : list vector :=
  map (fun c => mkVector (chunk_id c) (PList [PFloat 1; PFloat 0; PFloat 0]%float)
                         (chunk_index c)) three_chunk_list.

Definition three_dim_dir : dir :=
  mkDir (Some (Json (PList (map chunk_to_json three_chunk_list))))
        (Some (Json (PList (map vector_to_json three_dim_vectors))))
        (Some (Json (PDict []))).

Definition three_dim : store := update empty_store "d" three_dim_dir.

(** The document [d'] is the candidate [d], its score aside. *)
Definition rescored (d d' : doc) : Prop :=
  doc_text d' = doc_text d /\ doc_extra d' = doc_extra d.

(** A result [{"index": i, "relevance_score": sc}] of the rerank provider. *)
Definition rerank_entry (r : Z * pyval) : pyval :=
  PDict [("index", PInt (fst r)); ("relevance_score", snd r)]%string.

(** What the success path of [rerank_results] makes of one such result:
    the candidate at position [i] with the score [sc], or nothing when [i]
    is out of range. *)
Definition pick (documents : list doc) (r : Z * pyval) : list doc :=
  if (0 <=? fst r) && (fst r <? Z.of_nat (List.length documents))
  then match nth_error documents (Z.to_nat (fst r)) with
       | Some d => [mkDoc (doc_text d) (Some (snd r)) (doc_extra d)]
       | None => []
       end
  else [].

(** Three results of the provider, the first with an index out of range. *)
Definition three_entries : list (Z * pyval) :=
  [(5, PFloat 0x1.8p-1%float); (1, PFloat 0x1p-3%float);
   (0, PFloat 0x1p-1%float)].

(** ** [get_all_vector_dbs] and [get_vector_db_stats] *)

(** [get_all_vector_dbs()]: [listing] is the outcome of listing the
    sub-directories of [persist_directory]; a failure gives the empty
    list. *)
Definition get_all_vector_dbs (listing : result (list string)) : list string :=
  try_except listing (fun _ => []).

(** [total_chunks += v] *)
Definition add_count (total : Z) (v : pyval) : result Z :=
  match v with
  | PInt z => Ok (total + z)
  | PBool b => Ok (total + (if b then 1 else 0))
  | _ => Raise TypeError
  end.

(** [for doc_id in vector_dbs: ... total_chunks += status.get("chunks_count", 0)] *)
Fixpoint count_chunks (s : store) (vector_dbs : list string) (total_chunks : Z)
  : result Z :=
  match vector_dbs with
  | [] => Ok total_chunks
  | doc_id :: rest =>
      bind (get_vector_db_status s doc_id) (fun status =>
      bind (get_str status "chunks_count" (PInt 0)) (fun c =>
      bind (add_count total_chunks c) (fun total_chunks' =>
      count_chunks s rest total_chunks')))
  end.

Definition stats_dict (n total : Z) : pyval :=
  PDict [("total_vector_dbs", PInt n); ("total_chunks", PInt total)]%string.

(** [get_vector_db_stats()] *)
Definition get_vector_db_stats (listing : result (list string)) (s : store)
  : pyval :=
  try_except
    (let vector_dbs := get_all_vector_dbs listing in
     bind (count_chunks s vector_dbs 0) (fun total_chunks =>
     Ok (stats_dict (Z.of_nat (List.length vector_dbs)) total_chunks)))
    (fun _ => stats_dict 0 0).

(** The number of chunks [get_vector_db_status] counts for [doc_id]: the
    length of the chunks artifact when it decodes to something that has
    one, and zero otherwise. *)
Definition chunk_count (s : store) (doc_id : string) : Z :=
  match s doc_id with
  | None => 0
  | Some d =>
      if file_exists d ChunksFile
      then try_except (bind (load_json d ChunksFile) len) (fun _ => 0)
      else 0
  end.

Fixpoint sum_counts (s : store) (ids : list string) : Z :=
  match ids with
  | [] => 0
  | doc_id :: rest => chunk_count s doc_id + sum_counts s rest
  end.

(** Two collections, the second with a metadata artifact that decodes to
    a list. *)
Definition two_collections : store :=
  update (update empty_store "d" all_zero_dir) "odd"
    (mkDir (Some (Json three_chunks)) (Some (Json three_vectors))
           (Some (Json (PList [])))).

(** ** [search_documents] of [rag_functions.py]

    The arguments are taken at the types the function schema gives them:
    [query] a string, [doc_ids] a list of strings, [top_k] an integer.
    [doc_db doc_id] is the metadata dict of the document
    [get_document_by_id] finds, [None] when it finds none. What
    [json.dumps] is given is returned as a value. The texts the function
    writes into its answers are the [wording] of the call. *)

Record wording : Type := mkWording {
  no_query_text : string;
  no_query_message : string;
  no_documents_text : string;
  no_documents_message : string;
  system_title : string;
  nothing_found_text : string -> list pyval -> string;
  nothing_found_title : string;
  unknown_document : string
}.

(** [max(1, top_k // len(doc_ids)) * 2] *)
Definition results_per_doc (top_k : Z) (n_docs : nat) : Z :=
  Z.max 1 (top_k / Z.of_nat n_docs) * 2.

(** A search result after [result["doc_id"] = doc_id] and
    [result["doc_title"] = doc_title]. *)
Definition tagged (doc_id : string) (doc_title : pyval) (h : hit) : doc :=
  mkDoc (hit_text h) (Some (PFloat (hit_score h)))
        [("metadata", hit_metadata h); ("doc_id", PStr doc_id);
         ("doc_title", doc_title)]%string.

Record gathered : Type := mkGathered {
  all_results : list doc;
  searched_doc_titles : list pyval
}.

(** Body of [for doc_id in doc_ids]. *)
Definition gather_step (e : env) (s : store)
  (doc_db : string -> option (list (string * pyval)))
  (query : string) (top_k : Z) (n_docs : nat) (g : gathered) (doc_id : string)
  : result gathered :=
  match doc_db doc_id with
  | None => Ok g
  | Some md =>
      bind (get_vector_db_status s doc_id) (fun vector_status =>
      bind (getitem_str vector_status "exists") (fun ex =>
      if negb (truthy ex) then Ok g
      else
        let doc_title := title_of md doc_id in
        let results :=
          search_vector_db e s doc_id query (results_per_doc top_k n_docs) in
        Ok (mkGathered (all_results g ++ map (tagged doc_id doc_title) results)
                       (searched_doc_titles g ++ [doc_title]))))
  end.

Fixpoint gather_loop (e : env) (s : store)
  (doc_db : string -> option (list (string * pyval)))
  (query : string) (top_k : Z) (n_docs : nat) (ids : list string) (g : gathered)
  : result gathered :=
  match ids with
  | [] => Ok g
  | doc_id :: rest =>
      bind (gather_step e s doc_db query top_k n_docs g doc_id) (fun g' =>
      gather_loop e s doc_db query top_k n_docs rest g')
  end.

(** The key [x.get("score", 0)] of the sort: every element was tagged from
    a search result, whose score is a float. *)
Definition score_key (d : doc) : float :=
  match doc_score d with
  | Some (PFloat f) => f
  | _ => 0%float
  end.

(** A stable sort into descending order of [score_key]. *)
Fixpoint insert_doc_desc (x : doc) (l : list doc) : list doc :=
  match l with
  | [] => [x]
  | y :: l' =>
      if PrimFloat.ltb (score_key x) (score_key y)
      then y :: insert_doc_desc x l'
      else x :: l
  end.

(** [all_results.sort(key=lambda x: x.get("score", 0), reverse=True)]: the
    stable descending sort, and what the runtime leaves when a score is
    NaN. *)
Definition sort_docs_desc (e : env) (l : list doc) : list doc :=
  if forallb (fun d => negb (PrimFloat.is_nan (score_key d))) l
  then fold_right insert_doc_desc [] l
  else sort_with_nan e doc score_key l.

(** The single result that stands for a message of the function. *)
Definition message_result (text doc_title : string) : doc :=
  mkDoc (PStr text) (Some (PInt 0))
        [("doc_title", PStr doc_title); ("doc_id", PStr "")]%string.

(** The dict a result is formatted to. *)
Definition formatted (w : wording) (d : doc) : pyval :=
  PDict [("text", doc_text d);
         ("score", score_or_zero d);
         ("doc_title", match assoc "doc_title" (doc_extra d) with
                       | Some t => t
                       | None => PStr (unknown_document w)
                       end);
         ("doc_id", match assoc "doc_id" (doc_extra d) with
                    | Some i => i
                    | None => PStr ""
                    end)]%string.

(** The early answers, to an empty query and to an empty list of ids. *)
Definition refusal (w : wording) (text message : string) : pyval :=
  PDict [("results", PList [formatted w (message_result text (system_title w))]);
         ("total", PInt 1);
         ("message", PStr message)]%string.

(** [if all_results: ... else: ...], up to the truncation. *)
Definition rank_and_limit (w : wording) (e : env) (query : string) (top_k : Z)
  (g : gathered) : list doc :=
  match all_results g with
  | [] => [message_result (nothing_found_text w query (searched_doc_titles g))
                          (nothing_found_title w)]
  | _ :: _ =>
      let sorted := sort_docs_desc e (all_results g) in
      let ranked :=
        if Z.of_nat (List.length sorted) >? top_k
        then rerank_results e query sorted top_k
        else sorted in
      slice_to ranked top_k
  end.

(** [search_documents(args)] *)
Definition search_documents (w : wording) (e : env) (s : store)
  (doc_db : string -> option (list (string * pyval)))
  (query : string) (doc_ids : list string) (top_k : Z) : result pyval :=
  if is_empty query then Ok (refusal w (no_query_text w) (no_query_message w))
  else
    match doc_ids with
    | [] => Ok (refusal w (no_documents_text w) (no_documents_message w))
    | _ :: _ =>
        bind (gather_loop e s doc_db query top_k (List.length doc_ids) doc_ids
                (mkGathered [] []))
             (fun g =>
        let results := rank_and_limit w e query top_k g in
        Ok (PDict [("results", PList (map (formatted w) results));
                   ("total",
                    PInt (Z.of_nat (List.length (map (formatted w) results))));
                   ("query", PStr query);
                   ("searched_documents", PList (searched_doc_titles g))]%string))
    end.

(** A document store that knows the document ["d"] only. *)
Definition one_document (doc_id : string) : option (list (string * pyval)) :=
  if String.eqb doc_id "d" then Some [("title", PStr "Notes")]%string else None.

Definition plain_wording : wording :=
  mkWording "no query given" "the query is empty"
            "no document chosen" "the list of ids is empty"
            "system" (fun _ _ => "nothing found"%string) "search result"
            "unknown document".

End More.

Export More.

Lemma tally_injective (i j : nat) : tally i = tally j -> i = j.
Proof.
  revert j. induction i as [|i IH]; destruct j as [|j]; cbn; intros H;
    try discriminate; [reflexivity|].
  injection H as H. now rewrite (IH j H).
Qed.
(** * The chunker *)

Lemma indexed_nil : indexed [].
Proof. reflexivity. Qed.

Lemma indexed_snoc (cs : list chunk) (i t : string) :
  indexed cs -> indexed (cs ++ [mkChunk i t (Z.of_nat (List.length cs))]).
Proof.
  unfold indexed. intros H.
  rewrite map_app, length_app, seq_app, map_app, H. reflexivity.
Qed.

Lemma indexed_save_chunk (uuid : nat -> string) (cs : list chunk) (cur : string) :
  indexed cs -> indexed (save_chunk uuid cs cur).
Proof.
  intros H. unfold save_chunk. destruct (is_empty cur); [exact H|].
  now apply indexed_snoc.
Qed.

Lemma indexed_sentence_step uuid chunk_size st sentence :
  indexed (chunks st) -> indexed (chunks (sentence_step uuid chunk_size st sentence)).
Proof.
  intros H. unfold sentence_step.
  destruct (is_empty (strip sentence)); [exact H|].
  destruct (_ <=? _); cbn [chunks]; [exact H|].
  now apply indexed_save_chunk.
Qed.

Lemma indexed_sentences uuid chunk_size sentences : forall st,
  indexed (chunks st) ->
  indexed (chunks (fold_left (sentence_step uuid chunk_size) sentences st)).
Proof.
  induction sentences as [|x xs IH]; intros st H; cbn [fold_left]; [exact H|].
  apply IH. now apply indexed_sentence_step.
Qed.

Lemma indexed_paragraph_step uuid chunk_size st paragraph :
  indexed (chunks st) -> indexed (chunks (paragraph_step uuid chunk_size st paragraph)).
Proof.
  intros H. unfold paragraph_step.
  destruct (is_empty (strip paragraph)); [exact H|].
  destruct (len_str (strip paragraph) >? chunk_size).
  - now apply indexed_sentences.
  - destruct (_ >? _); cbn [chunks]; [|exact H].
    now apply indexed_save_chunk.
Qed.

Lemma indexed_paragraphs uuid chunk_size paragraphs : forall st,
  indexed (chunks st) ->
  indexed (chunks (fold_left (paragraph_step uuid chunk_size) paragraphs st)).
Proof.
  induction paragraphs as [|x xs IH]; intros st H; cbn [fold_left]; [exact H|].
  apply IH. now apply indexed_paragraph_step.
Qed.

(** C9. For every text, chunk size and overlap, [_split_text] returns a
    chunk list in which the chunk at position [i] carries the metadata
    index [i]: the indices are exactly [0 .. n-1]. *)
Theorem split_text_indices_are_positions
  (uuid : nat -> string) (text : string) (chunk_size chunk_overlap : Z) :
  exists cs,
    _split_text uuid text chunk_size chunk_overlap = Ok cs
    /\ map chunk_index cs = map Z.of_nat (seq 0 (List.length cs))
    /\ forall i c, nth_error cs i = Some c -> chunk_index c = Z.of_nat i.
Proof.
  unfold _split_text. eexists. split; [reflexivity|].
  assert (H : indexed (save_chunk uuid
                (chunks (split_loop uuid text chunk_size))
                (current_chunk (split_loop uuid text chunk_size)))).
  { apply indexed_save_chunk. unfold split_loop.
    apply indexed_paragraphs. exact indexed_nil. }
  split; [exact H|].
  intros i c Hi. unfold indexed in H.
  pose proof (map_nth_error chunk_index _ _ Hi) as Hm.
  rewrite H in Hm.
  assert (Hlt : (i < List.length (save_chunk uuid
                (chunks (split_loop uuid text chunk_size))
                (current_chunk (split_loop uuid text chunk_size))))%nat).
  { apply nth_error_Some. congruence. }
  rewrite nth_error_map, nth_error_seq in Hm.
  apply Nat.ltb_lt in Hlt. rewrite Hlt in Hm. cbn in Hm. congruence.
Qed.

(** ** Non-positive chunk sizes *)

Lemma is_empty_true (s : string) : is_empty s = true -> s = EmptyString.
Proof. destruct s; [reflexivity|discriminate]. Qed.

Lemma len_str_nonneg (s : string) : 0 <= len_str s.
Proof. unfold len_str. lia. Qed.

Lemma len_str_pos (s : string) : is_empty s = false -> 1 <= len_str s.
Proof. destruct s; [discriminate|]. unfold len_str. cbn [String.length]. lia. Qed.

Lemma is_empty_app_r (s t : string) :
  is_empty t = false -> is_empty (s ++ t) = false.
Proof. destruct s; cbn; [trivial|reflexivity]. Qed.

Lemma save_chunk_texts uuid cs cur :
  map chunk_text (save_chunk uuid cs cur)
  = map chunk_text cs ++ (if is_empty cur then [] else [strip cur]).
Proof.
  unfold save_chunk. destruct (is_empty cur).
  - now rewrite app_nil_r.
  - now rewrite map_app.
Qed.

Section NonPositiveSize.

Variable uuid : nat -> string.
Variable chunk_size : Z.
Hypothesis size_le_0 : chunk_size <= 0.

Lemma sentence_step_alone st raw :
  0 <= current_size st ->
  let st' := sentence_step uuid chunk_size st raw in
  0 <= current_size st'
  /\ texts_of uuid st'
     = texts_of uuid st
       ++ map lone_sentence (filter (fun s => negb (is_empty s)) [strip raw]).
Proof.
  intros Hsz. cbn zeta. unfold sentence_step. cbn [filter map].
  destruct (is_empty (strip raw)) eqn:He; cbn [negb map].
  - split; [exact Hsz|]. now rewrite app_nil_r.
  - pose proof (len_str_pos _ He) as Hpos.
    replace (current_size st + len_str (strip raw) <=? chunk_size) with false
      by (symmetry; apply Z.leb_gt; lia).
    unfold texts_of. cbn [chunks current_chunk current_size].
    split; [lia|].
    rewrite (save_chunk_texts uuid (save_chunk uuid (chunks st) (current_chunk st))).
    rewrite is_empty_app_r by reflexivity. reflexivity.
Qed.

Lemma sentences_alone sentences : forall st,
  0 <= current_size st ->
  let st' := fold_left (sentence_step uuid chunk_size) sentences st in
  0 <= current_size st'
  /\ texts_of uuid st'
     = texts_of uuid st
       ++ map lone_sentence
            (filter (fun s => negb (is_empty s)) (map strip sentences)).
Proof.
  induction sentences as [|x xs IH]; intros st Hsz; cbn zeta.
  - cbn. split; [exact Hsz|]. now rewrite app_nil_r.
  - cbn [fold_left].
    destruct (sentence_step_alone st x Hsz) as [Hsz1 Ht1].
    destruct (IH _ Hsz1) as [Hsz2 Ht2].
    split; [exact Hsz2|].
    rewrite Ht2, Ht1. cbn [map filter].
    destruct (is_empty (strip x)); cbn [negb map];
      now rewrite <- app_assoc.
Qed.

Lemma paragraph_step_alone st paragraph :
  0 <= current_size st ->
  let st' := paragraph_step uuid chunk_size st paragraph in
  0 <= current_size st'
  /\ texts_of uuid st'
     = texts_of uuid st
       ++ map lone_sentence
            (filter (fun s => negb (is_empty s))
                    (map strip (split_sentences (strip paragraph)))).
Proof.
  intros Hsz. cbn zeta. unfold paragraph_step.
  destruct (is_empty (strip paragraph)) eqn:He.
  - rewrite (is_empty_true _ He). cbn. split; [exact Hsz|].
    now rewrite app_nil_r.
  - pose proof (len_str_pos _ He) as Hpos.
    replace (len_str (strip paragraph) >? chunk_size) with true
      by (symmetry; apply Z.gtb_lt; lia).
    now apply sentences_alone.
Qed.

Lemma paragraphs_alone paragraphs : forall st,
  0 <= current_size st ->
  let st' := fold_left (paragraph_step uuid chunk_size) paragraphs st in
  0 <= current_size st'
  /\ texts_of uuid st'
     = texts_of uuid st
       ++ map lone_sentence
            (flat_map
               (fun paragraph =>
                  filter (fun s => negb (is_empty s))
                         (map strip (split_sentences (strip paragraph))))
               paragraphs).
Proof.
  induction paragraphs as [|x xs IH]; intros st Hsz; cbn zeta.
  - cbn. split; [exact Hsz|]. now rewrite app_nil_r.
  - cbn [fold_left flat_map].
    destruct (paragraph_step_alone st x Hsz) as [Hsz1 Ht1].
    destruct (IH _ Hsz1) as [Hsz2 Ht2].
    split; [exact Hsz2|].
    now rewrite Ht2, Ht1, map_app, <- app_assoc.
Qed.

End NonPositiveSize.

(** C5, as the code has it. [_split_text] does not validate [chunk_size]:
    for every text and overlap, a call with [chunk_size <= 0] returns
    normally, and the chunks it returns are the non-empty sentences of the
    text, one chunk each. *)
Theorem split_text_nonpositive_size_returns
  (uuid : nat -> string) (text : string) (chunk_size chunk_overlap : Z) :
  chunk_size <= 0 ->
  exists cs,
    _split_text uuid text chunk_size chunk_overlap = Ok cs
    /\ map chunk_text cs = map lone_sentence (sentences_of text).
Proof.
  intros Hle. unfold _split_text. eexists. split; [reflexivity|].
  destruct (paragraphs_alone uuid chunk_size Hle (split_paragraphs text)
              (mkAcc [] EmptyString 0)) as [_ H]; [cbn; lia|].
  exact H.
Qed.

Lemma split_text_nonpositive_size_returns_witness :
  exists cs,
    _split_text demo_uuid "abc. de" 0 0 = Ok cs
    /\ map chunk_text cs = map lone_sentence (sentences_of "abc. de").
Proof. apply split_text_nonpositive_size_returns. lia. Defined.

(** C5 fails as stated: with [chunk_size = 0] the call returns a chunk,
    and no configuration error. *)
Lemma split_text_zero_size_no_error :
  0 <= 0
  /\ _split_text demo_uuid "abc" 0 0 = Ok [mkChunk "a" "abc." 0]
  /\ _split_text demo_uuid "abc" 0 0 <> Raise InvalidConfig
  /\ _split_text demo_uuid "abc" (-5) 0 = Ok [mkChunk "a" "abc." 0].
Proof.
  split; [lia|]. split; [vm_compute; reflexivity|].
  split; [vm_compute; discriminate|vm_compute; reflexivity].
Qed.

(** ** Texts shorter than the chunk size *)

Lemma string_pair_ind (P : string -> Prop) :
  P EmptyString ->
  (forall c, P (String c EmptyString)) ->
  (forall c c' s, P s -> P (String c' s) -> P (String c (String c' s))) ->
  forall s, P s.
Proof.
  intros H0 H1 H2 s.
  assert (H : P s /\ forall c, P (String c s)).
  { induction s as [|c' s [IHa IHb]].
    - split; [exact H0|exact H1].
    - split; [apply IHb|]. intros c. apply H2; [exact IHa|apply IHb]. }
  exact (proj1 H).
Qed.

Lemma split2_two a b c c' s :
  split2 a b (String c (String c' s))
  = if Ascii.eqb c a && Ascii.eqb c' b
    then EmptyString :: split2 a b s
    else cons_head c (split2 a b (String c' s)).
Proof. reflexivity. Qed.

Lemma split2_not_nil a b s : split2 a b s <> [].
Proof.
  destruct s as [|c [|c' s]]; [discriminate..|].
  rewrite split2_two. destruct (_ && _); [discriminate|].
  destruct (split2 a b (String c' s)); discriminate.
Qed.

Lemma padded_length_nonneg ps : 0 <= padded_length ps.
Proof.
  induction ps as [|p ps IH]; cbn [padded_length]; [lia|].
  pose proof (len_str_nonneg p). lia.
Qed.

Lemma padded_length_cons_head c l :
  l <> [] -> padded_length (cons_head c l) = padded_length l + 1.
Proof.
  destruct l as [|p ps]; [congruence|]. intros _.
  cbn [cons_head padded_length]. unfold len_str. cbn [String.length]. lia.
Qed.

(** The pieces of a split and the separators between them make up the
    text: the lengths of the pieces, two added to each, sum to the length
    of the text and two. *)
Lemma split2_padded_length a b s :
  padded_length (split2 a b s) = len_str s + 2.
Proof.
  induction s as [|c|c c' s IH1 IH2] using string_pair_ind.
  - reflexivity.
  - reflexivity.
  - rewrite split2_two. destruct (Ascii.eqb c a && Ascii.eqb c' b).
    + cbn [padded_length]. rewrite IH1. unfold len_str. cbn [String.length]. lia.
    + rewrite padded_length_cons_head by apply split2_not_nil.
      rewrite IH2. unfold len_str. cbn [String.length]. lia.
Qed.

Lemma lstrip_length s : (String.length (lstrip s) <= String.length s)%nat.
Proof.
  induction s as [|c s IH]; cbn [lstrip]; [lia|].
  destruct (is_space c); cbn [String.length]; lia.
Qed.

Lemma rstrip_length s : (String.length (rstrip s) <= String.length s)%nat.
Proof.
  induction s as [|c s IH]; cbn [rstrip]; [lia|].
  destruct (is_space c && is_empty (rstrip s)); cbn [String.length]; lia.
Qed.

Lemma strip_length s : len_str (strip s) <= len_str s.
Proof.
  unfold len_str, strip.
  pose proof (rstrip_length (lstrip s)). pose proof (lstrip_length s). lia.
Qed.

Lemma lstrip_all_space s :
  if all_space s then lstrip s = EmptyString
  else exists c r, lstrip s = String c r /\ is_space c = false.
Proof.
  induction s as [|c s IH]; cbn [all_space lstrip]; [reflexivity|].
  destruct (is_space c) eqn:Hc; cbn [andb].
  - exact IH.
  - exists c, s. split; [reflexivity|exact Hc].
Qed.

(** A string strips to nothing exactly when it is all white space. *)
Lemma is_empty_strip s : is_empty (strip s) = all_space s.
Proof.
  unfold strip. pose proof (lstrip_all_space s) as H.
  destruct (all_space s).
  - now rewrite H.
  - destruct H as (c & r & -> & Hc). cbn [rstrip]. now rewrite Hc.
Qed.

Lemma forallb_cons_head c l :
  l <> [] -> forallb all_space (cons_head c l) = is_space c && forallb all_space l.
Proof.
  destruct l as [|p ps]; [congruence|]. intros _.
  cbn [cons_head forallb all_space]. now rewrite andb_assoc.
Qed.

(** Splitting at a separator made of white space keeps the property of
    being all white space. *)
Lemma all_space_split2 a b s :
  is_space a = true -> is_space b = true ->
  forallb all_space (split2 a b s) = all_space s.
Proof.
  intros Ha Hb.
  induction s as [|c|c c' s IH1 IH2] using string_pair_ind.
  - reflexivity.
  - cbn. now rewrite !andb_true_r.
  - rewrite split2_two. destruct (Ascii.eqb c a && Ascii.eqb c' b) eqn:Hm.
    + apply andb_true_iff in Hm. destruct Hm as [Hca Hcb].
      apply Ascii.eqb_eq in Hca, Hcb. subst c c'.
      cbn [forallb all_space]. now rewrite IH1, Ha, Hb.
    + rewrite forallb_cons_head by apply split2_not_nil.
      now rewrite IH2.
Qed.

Section ShortText.

Variable uuid : nat -> string.
Variable chunk_size : Z.

(** While the paragraphs still to come fit in what is left of the chunk
    size, the loop closes no chunk: it only extends [current_chunk]. *)
Lemma paragraphs_fit paragraphs : forall st,
  chunks st = [] ->
  0 <= current_size st ->
  current_size st + padded_length paragraphs <= chunk_size + 1 ->
  let st' := fold_left (paragraph_step uuid chunk_size) paragraphs st in
  chunks st' = []
  /\ is_empty (current_chunk st')
     = is_empty (current_chunk st) && forallb all_space paragraphs.
Proof.
  induction paragraphs as [|p ps IH]; intros st Hcs Hsz Hfit; cbn zeta.
  - cbn. split; [exact Hcs|]. now rewrite andb_true_r.
  - cbn [fold_left forallb]. cbn [padded_length] in Hfit.
    pose proof (padded_length_nonneg ps) as Hps.
    pose proof (strip_length p) as Hq.
    pose proof (len_str_nonneg (strip p)) as Hq0.
    destruct (all_space p) eqn:Hp.
    + assert (Hstep : paragraph_step uuid chunk_size st p = st).
      { unfold paragraph_step. now rewrite is_empty_strip, Hp. }
      rewrite Hstep. cbn [andb]. apply IH; [exact Hcs|exact Hsz|lia].
    + assert (Hstep : paragraph_step uuid chunk_size st p
                      = mkAcc (chunks st)
                          (current_chunk st ++ strip p ++ paragraph_sep)%string
                          (current_size st + (len_str (strip p) + 2))).
      { unfold paragraph_step. rewrite is_empty_strip, Hp.
        replace (len_str (strip p) >? chunk_size) with false
          by (symmetry; rewrite Z.gtb_ltb; apply Z.ltb_ge; lia).
        replace (current_size st + len_str (strip p) >? chunk_size) with false
          by (symmetry; rewrite Z.gtb_ltb; apply Z.ltb_ge; lia).
        reflexivity. }
      rewrite Hstep.
      edestruct IH as [H1 H2]; [| | |split; [exact H1|rewrite H2]];
        cbn [chunks current_size current_chunk]; [exact Hcs|lia|lia|].
      rewrite andb_false_r. cbn [andb].
      rewrite is_empty_app_r; [reflexivity|].
      apply is_empty_app_r. reflexivity.
Qed.

End ShortText.

Lemma is_space_LF : is_space LF = true.
Proof. reflexivity. Qed.

(** C6, as the code has it. For every text whose length is strictly less
    than [chunk_size], [_split_text] returns exactly one chunk when the
    text has a character that is not white space, and no chunk when it
    has none (the empty text included). *)
Theorem split_text_short_text_one_chunk
  (uuid : nat -> string) (text : string) (chunk_size chunk_overlap : Z) :
  len_str text < chunk_size ->
  exists cs,
    _split_text uuid text chunk_size chunk_overlap = Ok cs
    /\ List.length cs = if all_space text then 0%nat else 1%nat.
Proof.
  intros Hlt. unfold _split_text. eexists. split; [reflexivity|].
  destruct (paragraphs_fit uuid chunk_size (split_paragraphs text)
              (mkAcc [] EmptyString 0)) as [Hcs He].
  - reflexivity.
  - cbn. lia.
  - cbn [current_size]. unfold split_paragraphs.
    rewrite split2_padded_length. lia.
  - fold (split_loop uuid text chunk_size) in Hcs, He.
    rewrite Hcs. unfold save_chunk. rewrite He. cbn [current_chunk is_empty andb].
    unfold split_paragraphs.
    rewrite all_space_split2 by apply is_space_LF.
    destruct (all_space text); reflexivity.
Qed.

Lemma split_text_short_text_one_chunk_witness :
  exists cs,
    _split_text demo_uuid "one  two" 9 0 = Ok cs
    /\ List.length cs = if all_space "one  two" then 0%nat else 1%nat.
Proof. apply split_text_short_text_one_chunk. vm_compute. reflexivity. Defined.

(** C6 fails as stated: the empty text, and a text of blanks, are shorter
    than the chunk size and yield no chunk. *)
Lemma split_text_blank_text_no_chunk :
  len_str "" < 5 /\ 0 < 5
  /\ _split_text demo_uuid "" 5 0 = Ok []
  /\ len_str "   " < 5
  /\ _split_text demo_uuid "   " 5 0 = Ok [].
Proof. repeat split; vm_compute; reflexivity. Qed.

(** * The embedding adapter *)

Lemma placeholder_vectors_ids cs :
  map vector_id (placeholder_vectors cs) = map chunk_id cs.
Proof. unfold placeholder_vectors. rewrite map_map. reflexivity. Qed.

Lemma placeholder_vectors_app cs1 cs2 :
  placeholder_vectors (cs1 ++ cs2)
  = placeholder_vectors cs1 ++ placeholder_vectors cs2.
Proof. apply map_app. Qed.

Lemma batches_from_concat {A} (fuel : nat) : forall l : list A,
  (List.length l <= fuel)%nat -> List.concat (batches_from fuel l) = l.
Proof.
  induction fuel as [|fuel IH]; intros l Hl.
  - destruct l; [reflexivity|cbn in Hl; lia].
  - destruct l as [|x l']; [reflexivity|].
    cbn [batches_from List.concat]. rewrite IH.
    + apply firstn_skipn.
    + rewrite length_skipn. cbn [List.length] in *. unfold batch_size. lia.
Qed.

Lemma batches_concat {A} (l : list A) : List.concat (batches l) = l.
Proof. apply batches_from_concat. lia. Qed.

(** Without credentials every chunk gets its placeholder: one vector per
    chunk, in order, under the chunk's id. *)
Lemma generate_vectors_no_key_aligned (e : env) (cs : list chunk) :
  has_api_key e = false ->
  map vector_id (_generate_vectors e cs) = map chunk_id cs.
Proof.
  intros H. unfold _generate_vectors. rewrite H. apply placeholder_vectors_ids.
Qed.

Lemma embed_batches_all_fail (e : env) :
  (forall k texts, exists ex, embed e k texts = Raise ex) ->
  forall bs k vs,
    embed_batches e k bs vs = vs ++ placeholder_vectors (List.concat bs).
Proof.
  intros Hfail. induction bs as [|b bs IH]; intros k vs; cbn [embed_batches List.concat].
  - now rewrite app_nil_r.
  - rewrite IH. destruct (Hfail k (map chunk_text b)) as [ex ->].
    unfold embed_batch, try_batch.
    now rewrite placeholder_vectors_app, app_assoc.
Qed.

(** When every call of the provider fails, every batch is answered by the
    handler: again one vector per chunk, in order, under the chunk's id. *)
Lemma generate_vectors_all_fail_aligned (e : env) (cs : list chunk) :
  (forall k texts, exists ex, embed e k texts = Raise ex) ->
  map vector_id (_generate_vectors e cs) = map chunk_id cs.
Proof.
  intros Hfail. unfold _generate_vectors.
  destruct (negb (has_api_key e)); [apply placeholder_vectors_ids|].
  rewrite (embed_batches_all_fail e Hfail). cbn [app].
  rewrite batches_concat. apply placeholder_vectors_ids.
Qed.

(** ** A provider that answers as its contract says *)

Lemma append_embeddings_exact (batch : list chunk) : forall items done rest vs,
  batch = done ++ rest ->
  List.length items = List.length rest ->
  Forall has_embedding items ->
  exists vs',
    append_embeddings batch (List.length done) items vs = (vs ++ vs', None)
    /\ map vector_id vs' = map chunk_id rest.
Proof.
  induction items as [|item items IH]; intros done rest vs Hb Hlen Hall.
  - destruct rest; [|discriminate]. exists []. cbn. now rewrite app_nil_r.
  - destruct rest as [|c rest]; [discriminate|].
    inversion Hall as [|? ? [v Hv] Hall']. subst.
    cbn [append_embeddings].
    rewrite nth_error_app2, Nat.sub_diag by lia. cbn [nth_error]. rewrite Hv.
    destruct (IH (done ++ [c]) rest (vs ++ [mkVector (chunk_id c) v (chunk_index c)]))
      as (vs' & Happ & Hids).
    + now rewrite <- app_assoc.
    + cbn in Hlen. lia.
    + exact Hall'.
    + rewrite length_app, Nat.add_1_r in Happ. rewrite Happ.
      exists (mkVector (chunk_id c) v (chunk_index c) :: vs').
      split; [now rewrite <- app_assoc|]. cbn. now rewrite Hids.
Qed.

Lemma embed_batches_well_behaved (e : env) :
  provider_well_behaved e ->
  forall bs k vs,
    map vector_id (embed_batches e k bs vs)
    = map vector_id vs ++ map chunk_id (List.concat bs).
Proof.
  intros Hp. induction bs as [|b bs IH]; intros k vs; cbn [embed_batches List.concat].
  - now rewrite app_nil_r.
  - rewrite IH. destruct (Hp k (map chunk_text b)) as (d & items & -> & Hd & Hlen & Hall).
    unfold embed_batch, try_batch, contains_str, getitem_str, iter. rewrite Hd.
    destruct (append_embeddings_exact b items [] b vs eq_refl) as (vs' & Happ & Hids).
    + now rewrite Hlen, length_map.
    + exact Hall.
    + cbn [List.length] in Happ. rewrite Happ.
      now rewrite !map_app, Hids, app_assoc.
Qed.

(** With credentials and a provider that sends one embedding per text,
    [_generate_vectors] returns one vector per chunk, in order, under the
    chunk's id. *)
Lemma generate_vectors_well_behaved_aligned (e : env) (cs : list chunk) :
  provider_well_behaved e ->
  map vector_id (_generate_vectors e cs) = map chunk_id cs.
Proof.
  intros Hp. unfold _generate_vectors.
  destruct (negb (has_api_key e)); [apply placeholder_vectors_ids|].
  rewrite (embed_batches_well_behaved e Hp). cbn [map app].
  now rewrite batches_concat.
Qed.

(** C2. [_generate_vectors] is to return exactly one vector per input
    chunk, in input order, each under the id of its chunk, whatever the
    provider answers. The code does not on these inputs: a body whose
    ["data"] list is shorter than the batch gives fewer vectors than
    chunks; an item without an embedding, met after an earlier item was
    appended, gives more, the first chunk twice. [create_vector_db] then
    returns [True] on a collection with one chunk and no vector. *)
Theorem generate_vectors_not_one_per_chunk :
  _generate_vectors (embedding_answers no_embeddings) [chunk_a] = []
  /\ map vector_id
       (_generate_vectors (embedding_answers second_item_broken) [chunk_a; chunk_b])
     = ["a"; "a"; "b"]%string
  /\ (exists cs vs s',
        create_steps (embedding_answers no_embeddings) no_faults "d" "alpha"
          (PDict []) 500 100 empty_store = (Ok (cs, vs), s')
        /\ List.length cs = 1%nat /\ List.length vs = 0%nat
        /\ fst (create_vector_db (embedding_answers no_embeddings) no_faults
                  "d" "alpha" (PDict []) 500 100 empty_store) = true).
Proof.
  split; [vm_compute; reflexivity|].
  split; [vm_compute; reflexivity|].
  do 3 eexists. split; [vm_compute; reflexivity|].
  repeat split; vm_compute; reflexivity.
Qed.

(** * The collection store *)

Lemma io_bind_inv {A B} (m : io A) (k : A -> io B) s r s' :
  io_bind m k s = (r, s') ->
  (exists ex, m s = (Raise ex, s') /\ r = Raise ex)
  \/ (exists a s1, m s = (Ok a, s1) /\ k a s1 = (r, s')).
Proof.
  unfold io_bind. destruct (m s) as [[a|ex] s1]; intros H.
  - right. eauto.
  - left. exists ex. inversion H. subst. auto.
Qed.

Lemma update_same s doc_id d : update s doc_id d doc_id = Some d.
Proof. unfold update. now rewrite String.eqb_refl. Qed.

Lemma makedirs_vectors_present fails doc_id s r s' :
  makedirs fails doc_id s = (r, s') ->
  vectors_present s' doc_id = vectors_present s doc_id.
Proof.
  unfold makedirs, vectors_present. destruct fails.
  - intros H. inversion H. reflexivity.
  - destruct (s doc_id) eqn:Hd; intros H; inversion H; subst.
    + now rewrite Hd.
    + now rewrite update_same.
Qed.

Lemma write_json_vectors_present open_fails dump_fails doc_id a v s r s' :
  a <> VectorsFile ->
  write_json open_fails dump_fails doc_id a v s = (r, s') ->
  vectors_present s' doc_id = vectors_present s doc_id.
Proof.
  intros Ha. unfold write_json, vectors_present.
  destruct (s doc_id) eqn:Hd.
  - destruct open_fails; [|destruct dump_fails]; intros H; inversion H; subst;
      rewrite ?Hd, ?update_same; try reflexivity;
      destruct a; try congruence; reflexivity.
  - intros H. inversion H. subst. now rewrite Hd.
Qed.

(** Writing the vectors artifact either succeeds, or fails at [open] and
    leaves the store as it was, unless [json.dump] fails midway. *)
Lemma write_vectors_fails_unchanged open_fails doc_id v s ex s' :
  write_json open_fails false doc_id VectorsFile v s = (Raise ex, s') ->
  s' = s.
Proof.
  unfold write_json. destruct (s doc_id); [destruct open_fails|];
    intros H; inversion H; reflexivity.
Qed.

(** A collection reported as existing has its vectors artifact. *)
Lemma status_exists_vectors_present s doc_id :
  status_exists s doc_id = true -> vectors_present s doc_id = true.
Proof.
  unfold status_exists, get_vector_db_status, vectors_present.
  destruct (s doc_id) as [d|]; [|cbn; discriminate].
  destruct (if file_exists d MetadataFile
            then try_except (load_json d MetadataFile) (fun _ => PDict [])
            else PDict []) as [| | | | | |md]; cbn; try discriminate.
  destruct (file_exists d VectorsFile); [reflexivity|].
  rewrite andb_false_r. discriminate.
Qed.

(** When [get_vector_db_status] returns, its [exists] entry is the
    conjunction of the two artifacts being present. *)
Lemma status_exists_entry s doc_id st :
  get_vector_db_status s doc_id = Ok st ->
  getitem_str st "exists" = Ok (PBool (collection_present s doc_id)).
Proof.
  unfold get_vector_db_status, collection_present.
  destruct (s doc_id) as [d|]; [|intros H; inversion H; reflexivity].
  destruct (if file_exists d MetadataFile
            then try_except (load_json d MetadataFile) (fun _ => PDict [])
            else PDict []) as [| | | | | |md]; cbn; try discriminate.
  intros H. inversion H. reflexivity.
Qed.

(** It returns whenever the metadata artifact is missing, does not decode,
    or holds a JSON object. *)
Lemma status_returns s doc_id :
  (forall d v, s doc_id = Some d -> metadata_json d = Some (Json v) ->
               exists md, v = PDict md) ->
  exists st, get_vector_db_status s doc_id = Ok st.
Proof.
  intros Hmd. unfold get_vector_db_status.
  destruct (s doc_id) as [d|]; [|eauto].
  specialize (Hmd d). unfold file_exists, load_json. cbn [get_file].
  destruct (metadata_json d) as [[v|]|]; cbn; eauto.
  destruct (Hmd v eq_refl eq_refl) as [md ->]. cbn. eauto.
Qed.

(** A failed [create_vector_db] that did not fail inside [json.dump] of the
    vectors leaves the vectors artifact as it found it: absent if it was
    absent, and present if it was present. *)
Lemma failed_create_keeps_vectors
  (e : env) (ft : faults) (doc_id doc_content : string) (doc_metadata : pyval)
  (chunk_size chunk_overlap : Z) (s s' : store) :
  dump_vectors_fails ft = false ->
  create_vector_db e ft doc_id doc_content doc_metadata chunk_size chunk_overlap s
  = (false, s') ->
  vectors_present s' doc_id = vectors_present s doc_id.
Proof.
  intros Hdump. unfold create_vector_db.
  destruct (create_steps _ _ _ _ _ _ _ s) as [[r|ex] s1] eqn:Hsteps;
    intros H; inversion H; subst s1; clear H.
  unfold create_steps in Hsteps.
  apply io_bind_inv in Hsteps.
  destruct Hsteps as [(ex0 & Htitle & _)|(title & s0 & Htitle & Hsteps)];
    unfold io_lift in Htitle; inversion Htitle; subst; [reflexivity|].
  apply io_bind_inv in Hsteps.
  destruct Hsteps as [(ex1 & Hmk & _)|(u1 & s1 & Hmk & Hsteps)];
    [now apply makedirs_vectors_present in Hmk|].
  apply makedirs_vectors_present in Hmk. rewrite <- Hmk.
  apply io_bind_inv in Hsteps.
  destruct Hsteps as [(ex2 & Hmeta & _)|(u2 & s2 & Hmeta & Hsteps)];
    [apply write_json_vectors_present in Hmeta; [exact Hmeta|discriminate]|].
  apply write_json_vectors_present in Hmeta; [|discriminate]. rewrite <- Hmeta.
  apply io_bind_inv in Hsteps.
  destruct Hsteps as [(ex3 & Hsplit & _)|(cs & s3 & Hsplit & Hsteps)];
    unfold io_lift in Hsplit; inversion Hsplit; subst; try reflexivity.
  apply io_bind_inv in Hsteps.
  destruct Hsteps as [(ex4 & Hchunks & _)|(u4 & s4 & Hchunks & Hsteps)];
    [apply write_json_vectors_present in Hchunks; [exact Hchunks|discriminate]|].
  apply write_json_vectors_present in Hchunks; [|discriminate].
  rewrite <- Hchunks.
  apply io_bind_inv in Hsteps.
  destruct Hsteps as [(ex5 & Hvec & _)|(u5 & s5 & Hvec & Hsteps)].
  - rewrite Hdump in Hvec. apply write_vectors_fails_unchanged in Hvec.
    now subst.
  - unfold io_lift in Hsteps. inversion Hsteps.
Qed.

(** C1, as the code has it. For every document id with no vectors artifact
    before the call, whenever [create_vector_db] returns failure and the
    failure is not one of [json.dump] writing the vectors artifact, the
    collection is not observable as existing: a call of
    [get_vector_db_status(doc_id)] that returns reports [exists] as
    [False]. *)
Theorem failed_create_not_visible
  (e : env) (ft : faults) (doc_id doc_content : string) (doc_metadata : pyval)
  (chunk_size chunk_overlap : Z) (s s' : store) :
  vectors_present s doc_id = false ->
  dump_vectors_fails ft = false ->
  create_vector_db e ft doc_id doc_content doc_metadata chunk_size chunk_overlap s
  = (false, s') ->
  status_exists s' doc_id = false
  /\ collection_present s' doc_id = false
  /\ forall st, get_vector_db_status s' doc_id = Ok st ->
                getitem_str st "exists" = Ok (PBool false).
Proof.
  intros Habsent Hdump Hcreate.
  assert (Hv : vectors_present s' doc_id = false).
  { now rewrite (failed_create_keeps_vectors _ _ _ _ _ _ _ _ _ Hdump Hcreate). }
  assert (Hc : collection_present s' doc_id = false).
  { unfold collection_present, vectors_present in *.
    destruct (s' doc_id); [|reflexivity]. rewrite Hv. apply andb_false_r. }
  split; [|split; [exact Hc|]].
  - destruct (status_exists s' doc_id) eqn:Hex; [|reflexivity].
    apply status_exists_vectors_present in Hex. congruence.
  - intros st Hst. rewrite (status_exists_entry _ _ _ Hst). now rewrite Hc.
Qed.

Lemma failed_create_not_visible_witness :
  let s' := snd (create_vector_db offline metadata_dump_fault "d" "alpha"
                   (PDict []) 500 100 empty_store) in
  status_exists s' "d" = false
  /\ collection_present s' "d" = false
  /\ forall st, get_vector_db_status s' "d" = Ok st ->
                getitem_str st "exists" = Ok (PBool false).
Proof.
  apply (failed_create_not_visible offline metadata_dump_fault "d" "alpha"
           (PDict []) 500 100 empty_store).
  - reflexivity.
  - reflexivity.
  - vm_compute. reflexivity.
Defined.

(** C1 fails as stated. A collection that existed before the call is still
    reported as existing after a failed rebuild; and with no collection
    before the call, a [json.dump] of the vectors that fails midway leaves
    both artifacts present. *)
Lemma failed_create_still_visible :
  (let r := create_vector_db offline metadata_dump_fault "d" "alpha" (PDict [])
              500 100 store_with_d in
   fst r = false /\ status_exists (snd r) "d" = true)
  /\ (let r := create_vector_db offline vectors_dump_fault "d" "alpha" (PDict [])
                 500 100 empty_store in
      fst r = false /\ status_exists (snd r) "d" = true).
Proof. repeat split; vm_compute; reflexivity. Qed.

(** * Similarity search *)

(** ** Order of floats *)

Lemma float_ltb_leb (x y : float) :
  PrimFloat.ltb x y = true -> PrimFloat.leb x y = true.
Proof.
  rewrite ltb_spec, leb_spec. unfold SFltb, SFleb.
  destruct (SFcompare _ _) as [[]|]; intros H; try discriminate; reflexivity.
Qed.

Lemma SFcompare_antisym (x y : spec_float) :
  SFcompare y x = option_map CompOpp (SFcompare x y).
Proof.
  destruct x as [sx|sx| |sx mx ex], y as [sy|sy| |sy my ey]; cbn;
    try reflexivity;
    try (destruct sx; reflexivity); try (destruct sy; reflexivity);
    try (destruct sx, sy; reflexivity).
  pose proof (Pos.compare_cont_antisym mx my Eq) as Hm. cbn in Hm.
  destruct sx, sy; try reflexivity;
    rewrite (Z.compare_antisym ex ey);
    destruct (ex ?= ey)%Z; cbn; try reflexivity;
    now rewrite <- Hm.
Qed.

Lemma not_nan_Prim2SF (x : float) :
  PrimFloat.is_nan x = false -> Prim2SF x <> S754_nan.
Proof.
  unfold PrimFloat.is_nan. rewrite FloatAxioms.eqb_spec. unfold SFeqb.
  intros H E. rewrite E in H. cbn in H. discriminate.
Qed.

Lemma SFcompare_defined (x y : spec_float) :
  x <> S754_nan -> y <> S754_nan -> exists c, SFcompare x y = Some c.
Proof.
  intros Hx Hy. destruct x, y; try congruence; cbn; eauto.
Qed.

(** Two floats that are not NaN are comparable. *)
Lemma float_not_ltb_leb (x y : float) :
  PrimFloat.is_nan x = false -> PrimFloat.is_nan y = false ->
  PrimFloat.ltb x y = false -> PrimFloat.leb y x = true.
Proof.
  intros Hx Hy. rewrite ltb_spec, leb_spec. unfold SFltb, SFleb.
  rewrite (SFcompare_antisym (Prim2SF x) (Prim2SF y)).
  destruct (SFcompare_defined _ _ (not_nan_Prim2SF _ Hx) (not_nan_Prim2SF _ Hy))
    as [c ->].
  destruct c; cbn; intros H; try discriminate; reflexivity.
Qed.

(** ** The sort *)

Lemma nan_free_insert_desc x l :
  nan_free (insert_desc x l) = nan_free (x :: l).
Proof.
  induction l as [|y l IH]; [reflexivity|].
  cbn [insert_desc]. destruct (PrimFloat.ltb _ _); [|reflexivity].
  unfold nan_free in *. cbn [forallb] in *. rewrite IH.
  now rewrite !andb_assoc, (andb_comm (negb (PrimFloat.is_nan (hit_score y)))).
Qed.

Lemma nan_free_insertion l :
  nan_free (fold_right insert_desc [] l) = nan_free l.
Proof.
  induction l as [|x l IH]; [reflexivity|].
  cbn [fold_right].
  rewrite nan_free_insert_desc. unfold nan_free in *. cbn [forallb].
  now rewrite IH.
Qed.

(** On scores that can be compared, the sort is the stable insertion. *)
Lemma sort_desc_comparable e l :
  nan_free l = true -> sort_desc e l = fold_right insert_desc [] l.
Proof. intros H. unfold sort_desc. now rewrite H. Qed.

Lemma descending_cons x y l :
  descending (x :: y :: l)
  = PrimFloat.leb (hit_score y) (hit_score x) && descending (y :: l).
Proof. reflexivity. Qed.

Lemma descending_tail x l : descending (x :: l) = true -> descending l = true.
Proof.
  destruct l as [|y l]; [reflexivity|]. rewrite descending_cons.
  intros H. now apply andb_true_iff in H.
Qed.

Lemma descending_over_insert y x l :
  PrimFloat.leb (hit_score x) (hit_score y) = true ->
  descending (y :: l) = true ->
  descending (insert_desc x l) = true ->
  descending (y :: insert_desc x l) = true.
Proof.
  intros Hxy Hyl Hins. destruct l as [|z l].
  - cbn [insert_desc]. rewrite descending_cons, Hxy. reflexivity.
  - cbn [insert_desc] in *. rewrite descending_cons in Hyl.
    apply andb_true_iff in Hyl. destruct Hyl as [Hzy _].
    destruct (PrimFloat.ltb (hit_score x) (hit_score z)).
    + rewrite descending_cons, Hzy. exact Hins.
    + rewrite descending_cons, Hxy. exact Hins.
Qed.

Lemma insert_desc_descending x l :
  nan_free (x :: l) = true ->
  descending l = true -> descending (insert_desc x l) = true.
Proof.
  induction l as [|y l IH]; intros Hnan Hl; [reflexivity|].
  unfold nan_free in Hnan. cbn [forallb] in Hnan.
  apply andb_true_iff in Hnan. destruct Hnan as [Hx Hnan].
  apply andb_true_iff in Hnan. destruct Hnan as [Hy Hnan].
  apply negb_true_iff in Hx, Hy.
  cbn [insert_desc].
  destruct (PrimFloat.ltb (hit_score x) (hit_score y)) eqn:Hlt.
  - apply descending_over_insert.
    + now apply float_ltb_leb.
    + exact Hl.
    + apply IH.
      * unfold nan_free. cbn [forallb]. now rewrite Hx.
      * now apply descending_tail in Hl.
  - rewrite descending_cons, Hl.
    now rewrite (float_not_ltb_leb _ _ Hx Hy Hlt).
Qed.

(** Sorting a list whose scores are comparable leaves it in descending
    order. *)
Lemma insertion_descending l :
  nan_free l = true -> descending (fold_right insert_desc [] l) = true.
Proof.
  induction l as [|x l IH]; intros Hnan; [reflexivity|].
  cbn [fold_right].
  assert (Hl : nan_free l = true).
  { unfold nan_free in *. cbn [forallb] in Hnan.
    now apply andb_true_iff in Hnan. }
  apply insert_desc_descending.
  - unfold nan_free in *. cbn [forallb] in *.
    fold (nan_free (fold_right insert_desc [] l)). rewrite nan_free_insertion.
    exact Hnan.
  - now apply IH.
Qed.

Lemma sort_desc_descending e l :
  nan_free l = true -> descending (sort_desc e l) = true.
Proof.
  intros H. rewrite sort_desc_comparable by exact H.
  now apply insertion_descending.
Qed.

Lemma descending_firstn n : forall l,
  descending l = true -> descending (firstn n l) = true.
Proof.
  induction n as [|n IH]; intros l Hl; [reflexivity|].
  destruct l as [|x l]; [reflexivity|].
  cbn [firstn]. destruct l as [|y l]; [destruct n; reflexivity|].
  rewrite descending_cons in Hl. apply andb_true_iff in Hl.
  destruct Hl as [Hxy Hl]. specialize (IH _ Hl).
  destruct n as [|n]; [reflexivity|].
  cbn [firstn] in *. rewrite descending_cons, Hxy. exact IH.
Qed.

Lemma descending_slice_to l k :
  descending l = true -> descending (slice_to l k) = true.
Proof.
  intros H. unfold slice_to. destruct (k <? 0); now apply descending_firstn.
Qed.

Lemma slice_to_length {A} (l : list A) k :
  0 <= k -> Z.of_nat (List.length (slice_to l k)) <= k.
Proof.
  intros Hk. unfold slice_to.
  replace (k <? 0) with false by (symmetry; apply Z.ltb_ge; lia).
  rewrite length_firstn. lia.
Qed.

(** [l[:k]] for [k >= 0] is the first [k] elements. *)
Lemma slice_to_firstn {A} (l : list A) k :
  0 <= k -> slice_to l k = firstn (Z.to_nat k) l.
Proof.
  intros Hk. unfold slice_to.
  now replace (k <? 0) with false by (symmetry; apply Z.ltb_ge; lia).
Qed.

(** The sorted, truncated list both paths of the search return is in
    descending order, whatever [top_k] is. *)
Lemma top_k_of_sorted e results top_k :
  nan_free results = true ->
  descending (slice_to (sort_desc e results) top_k) = true.
Proof.
  intros Hnan. apply descending_slice_to. now apply sort_desc_descending.
Qed.

(** ** The keyword search *)

Lemma nan_free_snoc l h :
  nan_free (l ++ [h]) = nan_free l && negb (PrimFloat.is_nan (hit_score h)).
Proof.
  unfold nan_free. rewrite forallb_app. cbn [forallb]. now rewrite andb_true_r.
Qed.

Lemma keyword_step_nan_free query results chunk results' :
  keyword_step query results chunk = Ok results' ->
  nan_free results = true -> nan_free results' = true.
Proof.
  unfold keyword_step, bind.
  destruct (getitem_str chunk "text") as [t|]; [|discriminate].
  destruct (lower_of_value t) as [lt|]; [|discriminate].
  destruct (str_contains (lower query) lt).
  - destruct (getitem_str chunk "metadata") as [m|]; [|discriminate].
    intros H Hnan. inversion H. subst. rewrite nan_free_snoc, Hnan.
    reflexivity.
  - intros H Hnan. inversion H. now subst.
Qed.

Lemma keyword_loop_nan_free query items : forall results results',
  keyword_loop query items results = Ok results' ->
  nan_free results = true -> nan_free results' = true.
Proof.
  induction items as [|chunk rest IH]; intros results results' H Hnan.
  - inversion H. now subst.
  - cbn [keyword_loop] in H. unfold bind in H.
    destruct (keyword_step query results chunk) as [r1|] eqn:Hstep;
      [|discriminate].
    eapply IH; [exact H|]. eapply keyword_step_nan_free; eassumption.
Qed.

Lemma fallback_keyword_search_length e chunks query top_k results :
  0 <= top_k ->
  _fallback_keyword_search e chunks query top_k = Ok results ->
  Z.of_nat (List.length results) <= top_k.
Proof.
  intros Hk. unfold _fallback_keyword_search, bind.
  destruct (iter chunks) as [items|]; [|discriminate].
  destruct (keyword_loop query items []) as [rs|]; [|discriminate].
  intros H. inversion H. subst. now apply slice_to_length.
Qed.

Lemma fallback_keyword_search_descending e chunks query top_k results :
  _fallback_keyword_search e chunks query top_k = Ok results ->
  descending results = true.
Proof.
  unfold _fallback_keyword_search, bind.
  destruct (iter chunks) as [items|]; [|discriminate].
  destruct (keyword_loop query items []) as [rs|] eqn:Hloop; [|discriminate].
  intros H. inversion H. subst.
  apply top_k_of_sorted.
  eapply keyword_loop_nan_free; [exact Hloop|reflexivity].
Qed.

Lemma keyword_rescue_length e d query top_k :
  0 <= top_k ->
  Z.of_nat (List.length (keyword_rescue e d query top_k)) <= top_k.
Proof.
  intros Hk. unfold keyword_rescue, try_except, bind.
  destruct (load_json d ChunksFile) as [chunks|]; [|cbn; lia].
  destruct (_fallback_keyword_search e chunks query top_k) as [rs|] eqn:Hf;
    [|cbn; lia].
  now apply (fallback_keyword_search_length e chunks query top_k).
Qed.

Lemma keyword_rescue_descending e d query top_k :
  descending (keyword_rescue e d query top_k) = true.
Proof.
  unfold keyword_rescue, try_except, bind.
  destruct (load_json d ChunksFile) as [chunks|]; [|reflexivity].
  destruct (_fallback_keyword_search e chunks query top_k) as [rs|] eqn:Hf;
    [|reflexivity].
  now apply (fallback_keyword_search_descending e chunks query top_k).
Qed.

(** Ties keep their order: a list whose scores are all the placeholder
    score is left as it is by the sort. *)
Lemma sort_desc_ties e l :
  Forall (fun h => hit_score h = keyword_score) l -> sort_desc e l = l.
Proof.
  intros H. rewrite sort_desc_comparable.
  - induction H as [|x l Hx Hl IH]; [reflexivity|].
    cbn [fold_right]. rewrite IH.
    destruct Hl as [|y l' Hy Hl']; [reflexivity|].
    cbn [insert_desc]. now rewrite Hx, Hy.
  - unfold nan_free. apply forallb_forall. intros h Hin.
    rewrite Forall_forall in H. now rewrite (H h Hin).
Qed.

Lemma keyword_step_chunk query results c :
  keyword_step query results (chunk_to_json c)
  = Ok (if keyword_match query c then results ++ [keyword_hit c] else results).
Proof.
  unfold keyword_step, keyword_match, keyword_hit, chunk_to_json. cbn.
  destruct (str_contains (lower query) (lower (chunk_text c))); reflexivity.
Qed.

Lemma keyword_loop_chunks query cs : forall results,
  keyword_loop query (map chunk_to_json cs) results
  = Ok (results ++ map keyword_hit (filter (keyword_match query) cs)).
Proof.
  induction cs as [|c cs IH]; intros results; cbn [map keyword_loop filter].
  - now rewrite app_nil_r.
  - rewrite keyword_step_chunk. cbn [bind]. rewrite IH.
    destruct (keyword_match query c); [|reflexivity].
    now rewrite <- app_assoc.
Qed.

(** On the chunks [_split_text] produced, the keyword search returns the
    chunks whose text contains the query, letter case aside, in the order
    of the chunks, each with the placeholder score, cut at [top_k]. *)
Lemma fallback_keyword_search_matches e query cs top_k :
  _fallback_keyword_search e (PList (map chunk_to_json cs)) query top_k
  = Ok (slice_to (map keyword_hit (filter (keyword_match query) cs)) top_k).
Proof.
  unfold _fallback_keyword_search. cbn [iter bind].
  rewrite keyword_loop_chunks. cbn [app bind].
  rewrite sort_desc_ties; [reflexivity|].
  apply Forall_forall. intros h Hin. apply in_map_iff in Hin.
  destruct Hin as (c & <- & _). reflexivity.
Qed.

(** C3, as the code has it. For every document id and query:
    [search_vector_db] returns at most [top_k] results for every
    [top_k >= 0], on the cosine path and on the keyword path, whatever the
    scores are; and for every [top_k] each score it returns is at least the
    next one, on both paths, provided no similarity the cosine path
    computes is NaN. *)
Theorem search_top_k_descending
  (e : env) (s : store) (doc_id query : string) (top_k : Z) :
  (0 <= top_k ->
   Z.of_nat (List.length (search_vector_db e s doc_id query top_k)) <= top_k)
  /\ ((forall d chunks results,
         s doc_id = Some d -> scored e d query = Ok (chunks, Some results) ->
         nan_free results = true) ->
      descending (search_vector_db e s doc_id query top_k) = true).
Proof.
  split.
  - intros Hk. unfold search_vector_db.
    destruct (s doc_id) as [d|] eqn:Hd; [|cbn; lia].
    destruct (negb (file_exists d ChunksFile) || negb (file_exists d VectorsFile));
      [cbn; lia|].
    unfold try_except, vector_search, bind.
    destruct (scored e d query) as [[chunks [results|]]|ex] eqn:Hs.
    + now apply slice_to_length.
    + destruct (_fallback_keyword_search e chunks query top_k) as [rs|] eqn:Hf.
      * now apply (fallback_keyword_search_length e chunks query top_k).
      * now apply keyword_rescue_length.
    + now apply keyword_rescue_length.
  - intros Hnan. unfold search_vector_db.
    destruct (s doc_id) as [d|] eqn:Hd; [|reflexivity].
    destruct (negb (file_exists d ChunksFile) || negb (file_exists d VectorsFile));
      [reflexivity|].
    unfold try_except, vector_search, bind.
    destruct (scored e d query) as [[chunks [results|]]|ex] eqn:Hs.
    + apply top_k_of_sorted. now apply (Hnan d chunks).
    + destruct (_fallback_keyword_search e chunks query top_k) as [rs|] eqn:Hf.
      * now apply (fallback_keyword_search_descending e chunks query top_k).
      * apply keyword_rescue_descending.
    + apply keyword_rescue_descending.
Qed.

Lemma search_top_k_descending_witness :
  Z.of_nat (List.length
    (search_vector_db (embedding_answers (embedding_body 1 0)) searchable
       "d" "beta" 2)) <= 2
  /\ descending
       (search_vector_db (embedding_answers (embedding_body 1 0)) searchable
          "d" "beta" 2) = true.
Proof.
  split.
  - apply (proj1 (search_top_k_descending
                    (embedding_answers (embedding_body 1 0)) searchable
                    "d" "beta" 2)).
    lia.
  - apply (proj2 (search_top_k_descending
                    (embedding_answers (embedding_body 1 0)) searchable
                    "d" "beta" 2)).
    intros d chunks results Hd Hs.
    vm_compute in Hd. injection Hd as <-.
    vm_compute in Hs. injection Hs as _ <-.
    vm_compute. reflexivity.
Defined.

(** C3 fails as stated. A query embedding with a huge entry against a
    stored zero vector gives a NaN similarity, which no order places: the
    three results are returned with the NaN score first and are not in
    descending order.  And the result is the slice [results[:top_k]]: with
    [top_k = -1] it drops the last of three matches and returns two, on the
    keyword path and on the cosine path. *)
Lemma search_negative_top_k_or_nan :
  (let r := search_vector_db (embedding_answers (embedding_body huge 0))
              searchable_with_zero "d" "beta" 3 in
   map (fun h => PrimFloat.is_nan (hit_score h)) r = [true; false; false]
   /\ descending r = false)
  /\ (List.length (search_vector_db offline searchable "d" "beta" (-1)) = 2%nat
      /\ ~ (2 <= -1))
  /\ List.length
       (search_vector_db (embedding_answers (embedding_body 1 0)) searchable
          "d" "beta" (-1)) = 2%nat.
Proof.
  split; [split; vm_compute; reflexivity|].
  split; [split; [vm_compute; reflexivity|lia]|].
  vm_compute; reflexivity.
Qed.

(** ** Cosine similarity *)

Lemma Prim2SF_zero : Prim2SF 0%float = S754_zero false.
Proof. reflexivity. Qed.

Lemma Prim2SF_infinity : Prim2SF infinity = S754_infinity false.
Proof. reflexivity. Qed.

Lemma float_is_zero_inv (x : float) :
  PrimFloat.eqb x 0%float = true -> exists s, Prim2SF x = S754_zero s.
Proof.
  rewrite FloatAxioms.eqb_spec, Prim2SF_zero. unfold SFeqb.
  destruct (Prim2SF x) as [s|s| |s m e]; cbn; try discriminate; eauto;
    destruct s; discriminate.
Qed.

Lemma float_is_finite_inv (x : float) :
  PrimFloat.is_finite x = true ->
  (exists s, Prim2SF x = S754_zero s) \/ (exists s m e, Prim2SF x = S754_finite s m e).
Proof.
  unfold PrimFloat.is_finite, PrimFloat.is_nan, PrimFloat.is_infinity.
  rewrite !FloatAxioms.eqb_spec, abs_spec, Prim2SF_infinity. unfold SFeqb.
  destruct (Prim2SF x) as [s|s| |s m e].
  - intros _. left. now exists s.
  - destruct s; cbn; discriminate.
  - cbn. discriminate.
  - intros _. right. now exists s, m, e.
Qed.

Lemma float_eqb_zero_of_SF (x : float) s :
  Prim2SF x = S754_zero s -> PrimFloat.eqb x 0%float = true.
Proof.
  intros H. rewrite FloatAxioms.eqb_spec, Prim2SF_zero, H. reflexivity.
Qed.

(** Zero times a finite float is zero. *)
Lemma zero_mul_finite (x y : float) :
  PrimFloat.eqb x 0%float = true -> PrimFloat.is_finite y = true ->
  PrimFloat.eqb (x * y)%float 0%float = true.
Proof.
  intros Hx Hy. apply float_is_zero_inv in Hx. destruct Hx as [sx Hx].
  apply float_is_finite_inv in Hy.
  destruct Hy as [[sy Hy]|(sy & m & e & Hy)];
    apply (float_eqb_zero_of_SF _ (xorb sx sy));
    rewrite mul_spec, Hx, Hy; reflexivity.
Qed.

Lemma finite_mul_zero (x y : float) :
  PrimFloat.is_finite x = true -> PrimFloat.eqb y 0%float = true ->
  PrimFloat.eqb (x * y)%float 0%float = true.
Proof.
  intros Hx Hy. apply float_is_zero_inv in Hy. destruct Hy as [sy Hy].
  apply float_is_finite_inv in Hx.
  destruct Hx as [[sx Hx]|(sx & m & e & Hx)];
    apply (float_eqb_zero_of_SF _ (xorb sx sy));
    rewrite mul_spec, Hx, Hy; reflexivity.
Qed.

(** *** Float vectors

    On lists of floats no conversion is made but that of the initial [0],
    and the sums are the float sums. *)

Definition float_pair (ab : float * float) : pyval * pyval :=
  (PFloat (fst ab), PFloat (snd ab)).

Lemma sum_products_float_total (ps : list (float * float)) : forall f,
  sum_products (map float_pair ps) (NFloat f)
  = Ok (NFloat (fold_left PrimFloat.add
                  (map (fun ab => (fst ab * snd ab)%float) ps) f)).
Proof.
  induction ps as [|[x y] ps IH]; intros f; [reflexivity|].
  cbn [map float_pair fst snd sum_products as_num bind num_mul num_add to_float
       fold_left].
  apply IH.
Qed.

Lemma float_of_int_zero : float_of_int 0 = Ok 0%float.
Proof. reflexivity. Qed.

(** The sum of the products of float pairs, as the float [**] and [/]
    take it. *)
Lemma sum_products_floats (ps : list (float * float)) :
  bind (sum_products (map float_pair ps) (NInt 0)) to_float
  = Ok (float_sum (map (fun ab => (fst ab * snd ab)%float) ps)).
Proof.
  destruct ps as [|[x y] ps]; [reflexivity|].
  cbn [map float_pair fst snd sum_products as_num bind num_mul num_add to_float].
  rewrite float_of_int_zero. cbn [bind].
  rewrite sum_products_float_total. reflexivity.
Qed.

Lemma combine_floats (a b : list float) :
  combine (floats a) (floats b) = map float_pair (combine a b).
Proof.
  revert b. induction a as [|x a IH]; intros [|y b]; try reflexivity.
  cbn [floats map combine] in *. unfold floats in IH. now rewrite IH.
Qed.

Lemma squares_floats (a : list float) :
  map (fun v => (v, v)) (floats a) = map float_pair (map (fun x => (x, x)) a).
Proof. unfold floats. rewrite !map_map. reflexivity. Qed.

Lemma dot_product_floats (a b : list float) :
  bind (dot_product (floats a) (floats b)) to_float = Ok (float_dot a b).
Proof.
  unfold dot_product, float_dot. rewrite combine_floats.
  apply sum_products_floats.
Qed.

Lemma magnitude_floats libm (a : list float) :
  magnitude libm (floats a) = Ok (float_magnitude libm a).
Proof.
  unfold magnitude, float_magnitude. rewrite squares_floats.
  pose proof (sum_products_floats (map (fun x => (x, x)) a)) as H.
  unfold bind in H |- *.
  destruct (sum_products _ _) as [total|]; [|discriminate].
  rewrite H. now rewrite map_map.
Qed.

Lemma floats_length (a : list float) : List.length (floats a) = List.length a.
Proof. apply length_map. Qed.

(** On float vectors [_cosine_similarity] never raises: no conversion
    overflows and the division is guarded. *)
Lemma cosine_similarity_value libm (a b : list float) :
  _cosine_similarity libm (floats a) (floats b)
  = Ok (if negb (Nat.eqb (List.length a) (List.length b)) then 0%float
        else if PrimFloat.eqb (float_magnitude libm a * float_magnitude libm b)%float
                              0%float
             then 0%float
             else (float_dot a b
                   / (float_magnitude libm a * float_magnitude libm b))%float).
Proof.
  unfold _cosine_similarity. rewrite !floats_length.
  destruct (negb _); [reflexivity|].
  rewrite !magnitude_floats.
  pose proof (dot_product_floats a b) as Hdot. unfold bind in Hdot |- *.
  destruct (dot_product (floats a) (floats b)) as [total|]; [|discriminate].
  unfold float_div.
  destruct (PrimFloat.eqb _ _); [reflexivity|]. now rewrite Hdot.
Qed.

(** C8, as the code has it. [_cosine_similarity] returns [0.0] for any two
    lists of different lengths.  For every pair of vectors of floats it
    returns without raising; it returns [0.0] when the product of the two
    magnitudes is zero, which it is when either magnitude is zero and the
    other is finite; in every other case it returns
    [dot(a,b) / (||a|| * ||b||)], the magnitudes being the powers [0.5]
    the runtime computes. *)
Theorem cosine_similarity_guards
  (libm : float -> float) (vec1 vec2 : list pyval) (a b : list float) :
  (List.length vec1 <> List.length vec2 ->
   _cosine_similarity libm vec1 vec2 = Ok 0%float)
  /\ (exists r, _cosine_similarity libm (floats a) (floats b) = Ok r)
  /\ (List.length a = List.length b ->
      PrimFloat.eqb (float_magnitude libm a * float_magnitude libm b)%float
                    0%float = true ->
      _cosine_similarity libm (floats a) (floats b) = Ok 0%float)
  /\ (List.length a = List.length b ->
      PrimFloat.eqb (float_magnitude libm a) 0%float = true ->
      PrimFloat.is_finite (float_magnitude libm b) = true ->
      _cosine_similarity libm (floats a) (floats b) = Ok 0%float)
  /\ (List.length a = List.length b ->
      PrimFloat.is_finite (float_magnitude libm a) = true ->
      PrimFloat.eqb (float_magnitude libm b) 0%float = true ->
      _cosine_similarity libm (floats a) (floats b) = Ok 0%float)
  /\ (List.length a = List.length b ->
      PrimFloat.eqb (float_magnitude libm a * float_magnitude libm b)%float
                    0%float = false ->
      _cosine_similarity libm (floats a) (floats b)
      = Ok (float_dot a b
            / (float_magnitude libm a * float_magnitude libm b))%float).
Proof.
  split.
  { intros Hne. apply Nat.eqb_neq in Hne. unfold _cosine_similarity.
    now rewrite Hne. }
  rewrite cosine_similarity_value.
  split; [eauto|]. split; [|split; [|split]].
  - intros Heq Hz. apply Nat.eqb_eq in Heq. now rewrite Heq, Hz.
  - intros Heq H1 H2. apply Nat.eqb_eq in Heq.
    now rewrite Heq, (zero_mul_finite _ _ H1 H2).
  - intros Heq H1 H2. apply Nat.eqb_eq in Heq.
    now rewrite Heq, (finite_mul_zero _ _ H1 H2).
  - intros Heq Hz. apply Nat.eqb_eq in Heq. now rewrite Heq, Hz.
Qed.

Lemma cosine_similarity_guards_witness :
  _cosine_similarity exact_pow_half [PFloat 1; PInt 2] [PStr "x"] = Ok 0%float
  /\ _cosine_similarity exact_pow_half (floats [0; 0]%float) (floats [3; 4]%float)
     = Ok 0%float
  /\ _cosine_similarity exact_pow_half (floats [3; 4]%float) (floats [3; 4]%float)
     = Ok 1%float.
Proof.
  split; [|split].
  - apply (proj1 (cosine_similarity_guards exact_pow_half
                    [PFloat 1; PInt 2] [PStr "x"] [] [])).
    cbn. lia.
  - apply (proj1 (proj2 (proj2 (proj2
             (cosine_similarity_guards exact_pow_half [] []
                [0; 0]%float [3; 4]%float)))));
      vm_compute; reflexivity.
  - vm_compute. reflexivity.
Defined.

(** C8 fails as stated. The first vector is the zero vector, of magnitude
    zero, and the result is NaN, not [0.0]: the magnitude of the second is
    infinite, the product of the two is NaN, and NaN is not equal to zero.
    And with [int] entries the call can raise: the sum of the squares of
    [[2^600, 0]] is an [int] beyond the doubles, which [** 0.5] cannot
    convert. *)
Lemma cosine_similarity_zero_vector_nan :
  (List.length [0; 0]%float = List.length [huge; 0]%float
   /\ PrimFloat.eqb (float_magnitude exact_pow_half [0; 0]%float) 0%float = true
   /\ PrimFloat.is_infinity (float_magnitude exact_pow_half [huge; 0]%float) = true
   /\ (exists r,
         _cosine_similarity exact_pow_half (floats [0; 0]%float)
           (floats [huge; 0]%float) = Ok r
         /\ PrimFloat.is_nan r = true
         /\ PrimFloat.eqb r 0%float = false))
  /\ _cosine_similarity exact_pow_half [PInt 1; PInt 0] [PInt (2 ^ 600); PInt 0]
     = Raise OverflowError.
Proof.
  split.
  - split; [reflexivity|]. split; [vm_compute; reflexivity|].
    split; [vm_compute; reflexivity|].
    eexists. split; [vm_compute; reflexivity|].
    split; vm_compute; reflexivity.
  - vm_compute. reflexivity.
Qed.

(** Neither of the two depends on the C library: [float_pow] answers the
    powers of zero and of infinity itself, and the conversion fails before
    the power is taken. *)
Example cosine_similarity_failures_any_library (libm : float -> float) :
  (exists r,
     _cosine_similarity libm (floats [0; 0]%float) (floats [huge; 0]%float) = Ok r
     /\ PrimFloat.is_nan r = true)
  /\ _cosine_similarity libm [PInt 1; PInt 0] [PInt (2 ^ 600); PInt 0]
     = Raise OverflowError.
Proof.
  split.
  - eexists. split; [vm_compute; reflexivity|]. vm_compute. reflexivity.
  - vm_compute. reflexivity.
Qed.

(** ** Falling back on an exception *)

(** A vectors artifact that does not decode makes the vector path raise. *)
Lemma vector_search_corrupt_vectors e d query top_k chunks ex :
  load_json d ChunksFile = Ok chunks ->
  load_json d VectorsFile = Raise ex ->
  vector_search e d query top_k = Raise ex.
Proof.
  intros Hc Hv. unfold vector_search, scored, bind. now rewrite Hc, Hv.
Qed.

(** So does a vectors artifact that is no sequence, such as [null]. *)
Lemma vector_search_vectors_not_sized e d query top_k chunks n vectors ex :
  load_json d ChunksFile = Ok chunks -> len chunks = Ok n ->
  load_json d VectorsFile = Ok vectors -> len vectors = Raise ex ->
  vector_search e d query top_k = Raise ex.
Proof.
  intros Hc Hn Hv Hl. unfold vector_search, scored, bind.
  now rewrite Hc, Hv, Hn, Hl.
Qed.

(** C10. For every document id whose chunks artifact is readable (and
    whose vectors artifact is present), if the vector path of
    [search_vector_db] raises, the call does not: it returns what the
    keyword search over the chunks returns, and the empty list when the
    keyword search raises too.  The keyword search is the match of the
    query in the text of each chunk, letter case aside: on a chunks
    artifact that holds the chunks [cs] the call returns the chunks whose
    lowered text contains the lowered query, in the order of [cs], each
    with the score [0.8], cut at [top_k]. *)
Theorem search_falls_back_on_exception
  (e : env) (s : store) (doc_id query : string) (top_k : Z)
  (d : dir) (chunks : pyval) (ex : exn) :
  s doc_id = Some d ->
  load_json d ChunksFile = Ok chunks ->
  file_exists d VectorsFile = true ->
  vector_search e d query top_k = Raise ex ->
  search_vector_db e s doc_id query top_k
  = match _fallback_keyword_search e chunks query top_k with
    | Ok results => results
    | Raise _ => []
    end
  /\ (forall cs,
        chunks = PList (map chunk_to_json cs) ->
        search_vector_db e s doc_id query top_k
        = slice_to
            (map (fun c => mkHit (PStr (chunk_text c)) keyword_score
                             (PDict [("index", PInt (chunk_index c))]%string))
                 (filter (fun c => str_contains (lower query)
                                     (lower (chunk_text c))) cs))
            top_k).
Proof.
  intros Hd Hc Hv Hraise.
  assert (H : search_vector_db e s doc_id query top_k
              = match _fallback_keyword_search e chunks query top_k with
                | Ok results => results
                | Raise _ => []
                end).
  { unfold search_vector_db. rewrite Hd.
    assert (Hce : file_exists d ChunksFile = true).
    { unfold file_exists. unfold load_json in Hc.
      destruct (get_file d ChunksFile); [reflexivity|discriminate]. }
    rewrite Hce, Hv. cbn [negb orb]. rewrite Hraise.
    unfold try_except, keyword_rescue, try_except, bind. now rewrite Hc. }
  split; [exact H|].
  intros cs ->. rewrite H, fallback_keyword_search_matches. reflexivity.
Qed.

Lemma search_falls_back_on_exception_witness :
  search_vector_db (embedding_answers (embedding_body 1 0)) vectors_corrupt
    "d" "BETA" 2
  = match _fallback_keyword_search (embedding_answers (embedding_body 1 0))
            three_chunks "BETA" 2 with
    | Ok results => results
    | Raise _ => []
    end
  /\ search_vector_db (embedding_answers (embedding_body 1 0)) vectors_corrupt
       "d" "BETA" 2
     = [mkHit (PStr "alpha beta") keyword_score (PDict [("index", PInt 0)]%string);
        mkHit (PStr "Beta gamma") keyword_score (PDict [("index", PInt 1)]%string)].
Proof.
  destruct (search_falls_back_on_exception
              (embedding_answers (embedding_body 1 0)) vectors_corrupt
              "d" "BETA" 2
              (mkDir (Some (Json three_chunks)) (Some Garbage)
                     (Some (Json (PDict []))))
              three_chunks JSONDecodeError
              eq_refl eq_refl eq_refl eq_refl) as [Hrescue Hmatches].
  split; [exact Hrescue|].
  exact (Hmatches [mkChunk "a" "alpha beta" 0; mkChunk "b" "Beta gamma" 1;
                   mkChunk "c" "beta" 2] eq_refl).
Defined.

(** On that input the fallback finds the two first chunks, whatever the
    case of the letters. *)
Example search_corrupt_vectors_keyword_hits :
  map hit_text
    (search_vector_db (embedding_answers (embedding_body 1 0)) vectors_corrupt
       "d" "BETA" 2)
  = [PStr "alpha beta"; PStr "Beta gamma"].
Proof. vm_compute. reflexivity. Qed.

(** * The reranker *)

(** C4. For every query, candidate list and [top_k], when the rerank
    provider is unreachable (no credentials, a failed call, or a body
    without a [results] entry), [rerank_results] returns [documents[:top_k]]:
    the first [top_k] candidates, in their order and with their scores. *)
Theorem rerank_unreachable_returns_prefix
  (e : env) (query : string) (documents : list doc) (top_k : Z) :
  provider_unreachable e query documents top_k ->
  rerank_results e query documents top_k = slice_to documents top_k
  /\ (0 <= top_k ->
      rerank_results e query documents top_k = firstn (Z.to_nat top_k) documents).
Proof.
  intros H.
  assert (Heq : rerank_results e query documents top_k = slice_to documents top_k).
  { unfold rerank_results.
    destruct H as [Hkey|[[ex Hcall]|(response_data & Hcall & Hres)]].
    - now rewrite Hkey.
    - destruct (negb (has_api_key e)); [reflexivity|].
      now rewrite Hcall.
    - destruct (negb (has_api_key e)); [reflexivity|].
      rewrite Hcall. unfold rerank_try, try_except, bind.
      destruct (contains_str "results" response_data) as [[|]|]; try reflexivity.
      congruence. }
  split; [exact Heq|].
  intros Hk. rewrite Heq. now apply slice_to_firstn.
Qed.

Lemma rerank_unreachable_returns_prefix_witness :
  let e := rerank_answers (PDict [("error", PStr "busy")]%string) in
  rerank_results e "q" two_candidates 1 = slice_to two_candidates 1
  /\ (0 <= 1 ->
      rerank_results e "q" two_candidates 1 = firstn (Z.to_nat 1) two_candidates).
Proof.
  apply rerank_unreachable_returns_prefix.
  right. right. eexists. split; [reflexivity|]. vm_compute. discriminate.
Defined.

Lemma rerank_step_length documents acc result out :
  rerank_step documents acc result = Ok out ->
  (List.length out <= S (List.length acc))%nat.
Proof.
  unfold rerank_step, bind.
  destruct (get_str result "index" (PInt (-1))) as [idx|]; [|discriminate].
  destruct (select_index idx (List.length documents)) as [[i|]|]; [| |discriminate].
  - destruct (nth_error documents i) as [d|]; [|discriminate].
    destruct (get_str result "relevance_score" (score_or_zero d)); [|discriminate].
    intros H. inversion H. rewrite length_app. cbn. lia.
  - intros H. inversion H. subst. lia.
Qed.

(** The loop of the success path appends at most one document per result
    of the provider; nothing relates their number to [top_k]. *)
Lemma rerank_loop_length documents results : forall acc out,
  rerank_loop documents results acc = Ok out ->
  (List.length out <= List.length acc + List.length results)%nat.
Proof.
  induction results as [|r rs IH]; intros acc out H.
  - inversion H. subst. cbn. lia.
  - cbn [rerank_loop] in H. unfold bind in H.
    destruct (rerank_step documents acc r) as [acc'|] eqn:Hstep; [|discriminate].
    apply rerank_step_length in Hstep. apply IH in H. cbn [List.length]. lia.
Qed.

(** An integer index outside [[0, len(documents))] selects nothing. *)
Lemma select_index_out_of_range (z : Z) (n : nat) :
  z < 0 \/ Z.of_nat n <= z -> select_index (PInt z) n = Ok None.
Proof.
  intros H. unfold select_index.
  destruct (0 <=? z) eqn:H0; destruct (z <? Z.of_nat n) eqn:H1; try reflexivity.
  apply Z.leb_le in H0. apply Z.ltb_lt in H1. lia.
Qed.

(** C7. On the success path (a body with a [results] entry)
    [rerank_results] is to return at most [top_k] documents, dropping every
    result whose index lies outside [[0, len(documents))]. The code drops
    those results, but does not bound the length: the provider answers
    with two results, [top_k] is one, and both documents are returned. *)
Theorem rerank_success_exceeds_top_k :
  rerank_results (rerank_answers two_results) "q" two_candidates 1
  = [mkDoc (PStr "second") (Some (PFloat 0x1.8p-1)) [];
     mkDoc (PStr "first") (Some (PFloat 0x1p-3)) []]
  /\ (1 < Z.of_nat (List.length
            (rerank_results (rerank_answers two_results) "q" two_candidates 1)))
  /\ rerank_results (rerank_answers results_out_of_range) "q" two_candidates 3
     = [mkDoc (PStr "second") (Some (PFloat 0x1p-3)) []].
Proof.
  split; [vm_compute; reflexivity|].
  split; [vm_compute; reflexivity|vm_compute; reflexivity].
Qed.

(** * The round trip of the specification *)

Example split_round_trip :
  _split_text demo_uuid three_paragraphs 5 0
  = Ok [mkChunk "a" "A." 0; mkChunk "b" "B." 1; mkChunk "c" "C." 2].
Proof. vm_compute. reflexivity. Qed.

(** * More on the chunker *)

Lemma len_str_app (s t : string) : len_str (s ++ t) = len_str s + len_str t.
Proof.
  unfold len_str. induction s as [|c s IH]; cbn [String.append String.length].
  - lia.
  - lia.
Qed.

Lemma all_space_app (s t : string) :
  all_space (s ++ t) = all_space s && all_space t.
Proof.
  induction s as [|c s IH]; cbn [String.append all_space]; [reflexivity|].
  now rewrite IH, andb_assoc.
Qed.

Lemma rstrip_all_space (w : string) : all_space w = true -> rstrip w = EmptyString.
Proof.
  induction w as [|c w IH]; cbn [all_space rstrip]; [reflexivity|].
  intros H. apply andb_true_iff in H. destruct H as [Hc Hw].
  now rewrite (IH Hw), Hc.
Qed.

Lemma rstrip_app_space (s w : string) :
  all_space w = true -> rstrip (s ++ w) = rstrip s.
Proof.
  intros Hw. induction s as [|c s IH]; cbn [String.append rstrip].
  - now apply rstrip_all_space.
  - now rewrite IH.
Qed.

Lemma lstrip_app (s w : string) :
  all_space s = false -> lstrip (s ++ w) = (lstrip s ++ w)%string.
Proof.
  induction s as [|c s IH]; cbn [all_space String.append lstrip]; [discriminate|].
  destruct (is_space c); cbn [andb]; [exact IH|reflexivity].
Qed.

(** White space appended to a string is stripped with the rest. *)
Lemma strip_app_space (s w : string) :
  all_space w = true -> strip (s ++ w) = strip s.
Proof.
  intros Hw. unfold strip. destruct (all_space s) eqn:Hs.
  - pose proof (lstrip_all_space (s ++ w)) as H1.
    rewrite all_space_app, Hs, Hw in H1. cbn in H1.
    pose proof (lstrip_all_space s) as H2. rewrite Hs in H2.
    now rewrite H1, H2.
  - rewrite lstrip_app by exact Hs. now apply rstrip_app_space.
Qed.

Lemma rstrip_idempotent (s : string) : rstrip (rstrip s) = rstrip s.
Proof.
  induction s as [|c s IH]; cbn [rstrip]; [reflexivity|].
  destruct (is_space c && is_empty (rstrip s)) eqn:H; [reflexivity|].
  cbn [rstrip]. now rewrite IH, H.
Qed.

(** Stripping twice is stripping once. *)
Lemma strip_idempotent (s : string) : strip (strip s) = strip s.
Proof.
  unfold strip. pose proof (lstrip_all_space s) as H.
  destruct (all_space s).
  - rewrite H. reflexivity.
  - destruct H as (c & r & -> & Hc). cbn [rstrip]. rewrite Hc. cbn [andb].
    cbn [lstrip]. rewrite Hc. cbn [rstrip]. rewrite Hc. cbn [andb].
    now rewrite rstrip_idempotent.
Qed.

Lemma all_space_strip (s : string) : all_space (strip s) = all_space s.
Proof.
  pose proof (is_empty_strip s) as He. unfold strip in *.
  pose proof (lstrip_all_space s) as H.
  destruct (all_space s).
  - rewrite H. reflexivity.
  - destruct H as (c & r & -> & Hc). cbn [rstrip]. rewrite Hc. cbn. now rewrite Hc.
Qed.

Lemma all_space_empty (s : string) : is_empty s = true -> all_space s = true.
Proof. intros H. now rewrite (is_empty_true _ H). Qed.

(** ** No empty chunk *)

Lemma solid_save_chunk uuid cs cur :
  Forall (fun c => solid (chunk_text c)) cs ->
  is_empty cur = true \/ all_space cur = false ->
  Forall (fun c => solid (chunk_text c)) (save_chunk uuid cs cur).
Proof.
  intros Hcs Hcur. unfold save_chunk.
  destruct (is_empty cur) eqn:He; [exact Hcs|].
  destruct Hcur as [H|H]; [congruence|].
  apply Forall_app. split; [exact Hcs|].
  constructor; [|constructor]. cbn [chunk_text]. split.
  - now rewrite all_space_strip.
  - apply strip_idempotent.
Qed.

Lemma solid_unit_appended (cur u sep : string) :
  all_space u = false -> all_space (cur ++ u ++ sep) = false.
Proof.
  intros Hu. now rewrite !all_space_app, Hu, andb_false_r.
Qed.

Lemma solid_sentence_step uuid chunk_size st sentence :
  solid_state st -> solid_state (sentence_step uuid chunk_size st sentence).
Proof.
  intros [Hcs Hcur]. unfold sentence_step.
  destruct (is_empty (strip sentence)) eqn:He; [now split|].
  assert (Hu : all_space (strip sentence) = false).
  { now rewrite all_space_strip, <- is_empty_strip. }
  destruct (_ <=? _); split; cbn [chunks current_chunk].
  - exact Hcs.
  - right. now apply solid_unit_appended.
  - now apply solid_save_chunk.
  - right. apply (solid_unit_appended EmptyString). exact Hu.
Qed.

Lemma solid_sentences uuid chunk_size sentences : forall st,
  solid_state st ->
  solid_state (fold_left (sentence_step uuid chunk_size) sentences st).
Proof.
  induction sentences as [|x xs IH]; intros st H; cbn [fold_left]; [exact H|].
  apply IH. now apply solid_sentence_step.
Qed.

Lemma solid_paragraph_step uuid chunk_size st paragraph :
  solid_state st -> solid_state (paragraph_step uuid chunk_size st paragraph).
Proof.
  intros H. unfold paragraph_step.
  destruct (is_empty (strip paragraph)) eqn:He; [exact H|].
  assert (Hu : all_space (strip paragraph) = false).
  { now rewrite all_space_strip, <- is_empty_strip. }
  destruct (len_str (strip paragraph) >? chunk_size);
    [now apply solid_sentences|].
  destruct H as [Hcs Hcur].
  destruct (_ >? _); split; cbn [chunks current_chunk].
  - now apply solid_save_chunk.
  - right. apply (solid_unit_appended EmptyString). exact Hu.
  - exact Hcs.
  - right. now apply solid_unit_appended.
Qed.

Lemma solid_paragraphs uuid chunk_size paragraphs : forall st,
  solid_state st ->
  solid_state (fold_left (paragraph_step uuid chunk_size) paragraphs st).
Proof.
  induction paragraphs as [|x xs IH]; intros st H; cbn [fold_left]; [exact H|].
  apply IH. now apply solid_paragraph_step.
Qed.

(** X1. No chunk of [_split_text] is empty or blank: for every text, chunk
    size and overlap, each chunk text has a character that is not white
    space, and carries no white space at either end. *)
Theorem split_text_no_empty_chunk
  (uuid : nat -> string) (text : string) (chunk_size chunk_overlap : Z) :
  exists cs,
    _split_text uuid text chunk_size chunk_overlap = Ok cs
    /\ Forall (fun c => is_empty (chunk_text c) = false
                        /\ all_space (chunk_text c) = false
                        /\ strip (chunk_text c) = chunk_text c) cs.
Proof.
  unfold _split_text. eexists. split; [reflexivity|].
  destruct (solid_paragraphs uuid chunk_size (split_paragraphs text)
              (mkAcc [] EmptyString 0)) as [Hcs Hcur].
  { split; [constructor|left; reflexivity]. }
  fold (split_loop uuid text chunk_size) in Hcs, Hcur.
  pose proof (solid_save_chunk uuid _ _ Hcs Hcur) as H.
  eapply Forall_impl; [|exact H].
  intros c [Ha Hs]. cbn beta in *. repeat split; try assumption.
  destruct (is_empty (chunk_text c)) eqn:He; [|reflexivity].
  apply all_space_empty in He. congruence.
Qed.

(** ** Chunk identifiers *)

Lemma numbered_save_chunk uuid cs cur :
  numbered uuid cs -> numbered uuid (save_chunk uuid cs cur).
Proof.
  unfold numbered, save_chunk. intros H. destruct (is_empty cur); [exact H|].
  rewrite map_app, length_app, seq_app, map_app, H. reflexivity.
Qed.

Lemma numbered_sentences uuid chunk_size sentences : forall st,
  numbered uuid (chunks st) ->
  numbered uuid (chunks (fold_left (sentence_step uuid chunk_size) sentences st)).
Proof.
  induction sentences as [|x xs IH]; intros st H; cbn [fold_left]; [exact H|].
  apply IH. unfold sentence_step.
  destruct (is_empty (strip x)); [exact H|].
  destruct (_ <=? _); cbn [chunks]; [exact H|].
  now apply numbered_save_chunk.
Qed.

Lemma numbered_paragraphs uuid chunk_size paragraphs : forall st,
  numbered uuid (chunks st) ->
  numbered uuid (chunks (fold_left (paragraph_step uuid chunk_size) paragraphs st)).
Proof.
  induction paragraphs as [|x xs IH]; intros st H; cbn [fold_left]; [exact H|].
  apply IH. unfold paragraph_step.
  destruct (is_empty (strip x)); [exact H|].
  destruct (len_str (strip x) >? chunk_size); [now apply numbered_sentences|].
  destruct (_ >? _); cbn [chunks]; [|exact H].
  now apply numbered_save_chunk.
Qed.

(** X2. The ids of the chunks are the successive values drawn from
    [uuid.uuid4], one per chunk and in order; when the values drawn are
    pairwise distinct, so are the chunk ids. *)
Theorem split_text_ids_distinct
  (uuid : nat -> string) (text : string) (chunk_size chunk_overlap : Z) :
  (forall i j, uuid i = uuid j -> i = j) ->
  exists cs,
    _split_text uuid text chunk_size chunk_overlap = Ok cs
    /\ map chunk_id cs = map uuid (seq 0 (List.length cs))
    /\ NoDup (map chunk_id cs).
Proof.
  intros Hinj. unfold _split_text. eexists. split; [reflexivity|].
  assert (H : numbered uuid (save_chunk uuid
                (chunks (split_loop uuid text chunk_size))
                (current_chunk (split_loop uuid text chunk_size)))).
  { apply numbered_save_chunk. unfold split_loop.
    apply numbered_paragraphs. reflexivity. }
  split; [exact H|]. rewrite H.
  apply NoDup_map_NoDup_ForallPairs; [|apply seq_NoDup].
  intros i j _ _. apply Hinj.
Qed.

(** ** Blank texts *)

Lemma blank_paragraphs uuid chunk_size paragraphs : forall st,
  forallb all_space paragraphs = true ->
  fold_left (paragraph_step uuid chunk_size) paragraphs st = st.
Proof.
  induction paragraphs as [|p ps IH]; intros st H; cbn [fold_left]; [reflexivity|].
  cbn [forallb] in H. apply andb_true_iff in H. destruct H as [Hp Hps].
  unfold paragraph_step at 2. rewrite is_empty_strip, Hp. now apply IH.
Qed.

(** X3. A text of white space only, the empty text included, gives no
    chunk, whatever the chunk size. *)
Theorem split_text_blank_gives_nothing
  (uuid : nat -> string) (text : string) (chunk_size chunk_overlap : Z) :
  all_space text = true ->
  _split_text uuid text chunk_size chunk_overlap = Ok [].
Proof.
  intros H. unfold _split_text, split_loop.
  rewrite blank_paragraphs; [reflexivity|].
  unfold split_paragraphs. now rewrite all_space_split2 by apply is_space_LF.
Qed.

(** ** Chunk sizes *)

Lemma string_app_assoc (a b c : string) : ((a ++ b) ++ c = a ++ b ++ c)%string.
Proof.
  induction a as [|x a IH]; cbn [String.append]; [reflexivity|]. now rewrite IH.
Qed.

Lemma all_space_paragraph_sep : all_space paragraph_sep = true.
Proof. reflexivity. Qed.

Lemma sized_save_chunk uuid chunk_size cs cur :
  Forall (fun c => len_str (chunk_text c) <= chunk_size) cs ->
  cur = EmptyString
  \/ (exists body, cur = (body ++ paragraph_sep)%string
                   /\ len_str body <= chunk_size) ->
  Forall (fun c => len_str (chunk_text c) <= chunk_size) (save_chunk uuid cs cur).
Proof.
  intros Hcs Hcur. unfold save_chunk.
  destruct (is_empty cur) eqn:He; [exact Hcs|].
  destruct Hcur as [->|(body & -> & Hb)]; [discriminate|].
  apply Forall_app. split; [exact Hcs|].
  constructor; [|constructor]. cbn [chunk_text].
  rewrite strip_app_space by apply all_space_paragraph_sep.
  pose proof (strip_length body). lia.
Qed.

Lemma sized_paragraph_step uuid chunk_size st paragraph :
  len_str (strip paragraph) <= chunk_size ->
  sized_state chunk_size st ->
  sized_state chunk_size (paragraph_step uuid chunk_size st paragraph).
Proof.
  intros Hp (Hsz & Hcs & Hcur). unfold paragraph_step.
  destruct (is_empty (strip paragraph)); [now repeat split|].
  replace (len_str (strip paragraph) >? chunk_size) with false
    by (symmetry; rewrite Z.gtb_ltb; apply Z.ltb_ge; lia).
  destruct (current_size st + len_str (strip paragraph) >? chunk_size) eqn:Hfit;
    unfold sized_state; cbn [chunks current_chunk current_size].
  - split; [|split].
    + rewrite len_str_app. reflexivity.
    + now apply sized_save_chunk.
    + right. exists (strip paragraph). now split.
  - rewrite Z.gtb_ltb in Hfit. apply Z.ltb_ge in Hfit.
    split; [|split].
    + rewrite !len_str_app, Hsz. reflexivity.
    + exact Hcs.
    + right. exists (current_chunk st ++ strip paragraph)%string.
      split; [now rewrite string_app_assoc|].
      rewrite len_str_app. lia.
Qed.

Lemma sized_paragraphs uuid chunk_size paragraphs : forall st,
  Forall (fun p => len_str (strip p) <= chunk_size) paragraphs ->
  sized_state chunk_size st ->
  sized_state chunk_size (fold_left (paragraph_step uuid chunk_size) paragraphs st).
Proof.
  induction paragraphs as [|p ps IH]; intros st Hall H; cbn [fold_left]; [exact H|].
  inversion Hall; subst. apply IH; [assumption|].
  now apply sized_paragraph_step.
Qed.

(** X4. When no paragraph of the text, stripped, is longer than
    [chunk_size], no chunk is: every chunk text has at most [chunk_size]
    characters. *)
Theorem split_text_chunks_within_size
  (uuid : nat -> string) (text : string) (chunk_size chunk_overlap : Z) :
  Forall (fun p => len_str (strip p) <= chunk_size) (split_paragraphs text) ->
  exists cs,
    _split_text uuid text chunk_size chunk_overlap = Ok cs
    /\ Forall (fun c => len_str (chunk_text c) <= chunk_size) cs.
Proof.
  intros Hall. unfold _split_text. eexists. split; [reflexivity|].
  destruct (sized_paragraphs uuid chunk_size (split_paragraphs text)
              (mkAcc [] EmptyString 0) Hall) as (Hsz & Hcs & Hcur).
  { repeat split; [constructor|now left]. }
  now apply sized_save_chunk.
Qed.

Lemma split_text_chunks_within_size_witness :
  exists cs,
    _split_text tally three_paragraphs 5 0 = Ok cs
    /\ Forall (fun c => len_str (chunk_text c) <= 5) cs.
Proof.
  apply split_text_chunks_within_size.
  vm_compute. repeat constructor; discriminate.
Defined.

Lemma split_text_ids_distinct_witness :
  exists cs,
    _split_text tally three_paragraphs 5 0 = Ok cs
    /\ map chunk_id cs = map tally (seq 0 (List.length cs))
    /\ NoDup (map chunk_id cs).
Proof. apply split_text_ids_distinct. exact tally_injective. Defined.

Lemma split_text_blank_gives_nothing_witness :
  _split_text tally "   " (-3) 0 = Ok [].
Proof. apply split_text_blank_gives_nothing. reflexivity. Defined.

(** * More on the embedding adapter *)

Lemma batches_from_bounded {A} (fuel : nat) : forall l : list A,
  Forall (fun b => b <> [] /\ (List.length b <= batch_size)%nat)
         (batches_from fuel l).
Proof.
  induction fuel as [|fuel IH]; intros l; cbn [batches_from]; [constructor|].
  destruct l as [|x l']; [constructor|].
  constructor; [|apply IH].
  split.
  - unfold batch_size. cbn [firstn]. discriminate.
  - rewrite length_firstn. lia.
Qed.

(** X5. The requests of [_generate_vectors] cut the chunk list into
    batches that, put end to end, give the list back: every chunk is sent
    once, in order, no batch is empty and none has more than 20 chunks. *)
Theorem batches_cover_in_twenties {A} (l : list A) :
  List.concat (batches l) = l
  /\ Forall (fun b => b <> [] /\ (List.length b <= 20)%nat) (batches l).
Proof.
  split; [apply batches_concat|]. apply batches_from_bounded.
Qed.

Lemma embed_batch_no_usable_body (response : result pyval) batch vs :
  (exists ex, response = Raise ex)
  \/ (exists v, response = Ok v /\ contains_str "data" v = Ok false)
  \/ (exists v ex, response = Ok v /\ contains_str "data" v = Raise ex) ->
  embed_batch response batch vs = vs ++ placeholder_vectors batch.
Proof.
  unfold embed_batch, try_batch.
  intros [[ex ->]|[(v & -> & Hc)|(v & ex & -> & Hc)]]; [reflexivity| |];
    now rewrite Hc.
Qed.

Lemma embed_batches_no_usable_body (e : env) :
  no_usable_body e ->
  forall bs k vs,
    embed_batches e k bs vs = vs ++ placeholder_vectors (List.concat bs).
Proof.
  intros Hno. induction bs as [|b bs IH]; intros k vs;
    cbn [embed_batches List.concat].
  - now rewrite app_nil_r.
  - rewrite IH, (embed_batch_no_usable_body _ _ _ (Hno k (map chunk_text b))).
    now rewrite placeholder_vectors_app, app_assoc.
Qed.

(** X6. Without credentials, and with credentials when no request yields a
    usable body, [_generate_vectors] returns one placeholder per chunk, in
    order: the vector of 1024 zeros under the chunk's id and index. *)
Theorem generate_vectors_placeholders (e : env) (cs : list chunk) :
  has_api_key e = false \/ no_usable_body e ->
  _generate_vectors e cs
  = map (fun c => mkVector (chunk_id c) (PList (repeat (PFloat 0%float) 1024))
                           (chunk_index c)) cs.
Proof.
  intros H. unfold _generate_vectors.
  destruct (negb (has_api_key e)) eqn:Hk; [reflexivity|].
  destruct H as [H|H]; [rewrite H in Hk; discriminate|].
  rewrite (embed_batches_no_usable_body e H). cbn [app].
  now rewrite batches_concat.
Qed.

Lemma generate_vectors_placeholders_witness :
  _generate_vectors (embedding_answers (PDict [("error", PStr "busy")]%string))
    [chunk_a; chunk_b]
  = map (fun c => mkVector (chunk_id c) (PList (repeat (PFloat 0%float) 1024))
                           (chunk_index c)) [chunk_a; chunk_b].
Proof.
  apply generate_vectors_placeholders. right. intros k texts.
  right. left. eexists. split; reflexivity.
Defined.

Lemma append_embeddings_tagged (batch : list chunk) : forall items done rest vs,
  batch = done ++ rest ->
  List.length items = List.length rest ->
  Forall has_embedding items ->
  exists vs',
    append_embeddings batch (List.length done) items vs = (vs ++ vs', None)
    /\ Forall2 tags_of rest vs'.
Proof.
  induction items as [|item items IH]; intros done rest vs Hb Hlen Hall.
  - destruct rest; [|discriminate]. exists []. cbn. rewrite app_nil_r.
    split; [reflexivity|constructor].
  - destruct rest as [|c rest]; [discriminate|].
    inversion Hall as [|? ? [v Hv] Hall']. subst.
    cbn [append_embeddings].
    rewrite nth_error_app2, Nat.sub_diag by lia. cbn [nth_error]. rewrite Hv.
    destruct (IH (done ++ [c]) rest (vs ++ [mkVector (chunk_id c) v (chunk_index c)]))
      as (vs' & Happ & Htags).
    + now rewrite <- app_assoc.
    + cbn in Hlen. lia.
    + exact Hall'.
    + rewrite length_app, Nat.add_1_r in Happ. rewrite Happ.
      exists (mkVector (chunk_id c) v (chunk_index c) :: vs').
      split; [now rewrite <- app_assoc|].
      constructor; [split; reflexivity|exact Htags].
Qed.

Lemma embed_batches_tagged (e : env) :
  provider_well_behaved e ->
  forall bs k vs, exists vs',
    embed_batches e k bs vs = vs ++ vs'
    /\ Forall2 tags_of (List.concat bs) vs'.
Proof.
  intros Hp. induction bs as [|b bs IH]; intros k vs;
    cbn [embed_batches List.concat].
  - exists []. rewrite app_nil_r. split; [reflexivity|constructor].
  - destruct (Hp k (map chunk_text b)) as (d & items & -> & Hd & Hlen & Hall).
    unfold embed_batch, try_batch, contains_str, getitem_str, iter. rewrite Hd.
    destruct (append_embeddings_tagged b items [] b vs eq_refl) as (vs1 & Happ & Ht1).
    + now rewrite Hlen, length_map.
    + exact Hall.
    + cbn [List.length] in Happ. rewrite Happ.
      destruct (IH (S k) (vs ++ vs1)) as (vs2 & -> & Ht2).
      exists (vs1 ++ vs2). split; [now rewrite app_assoc|].
      now apply Forall2_app.
Qed.

(** X7. When the provider answers each request with one embedding per text
    (or there are no credentials), [_generate_vectors] returns exactly one
    vector per chunk, in the order of the chunks, each under the id and
    the index of its chunk. *)
Theorem generate_vectors_aligned (e : env) (cs : list chunk) :
  provider_well_behaved e ->
  List.length (_generate_vectors e cs) = List.length cs
  /\ Forall2 tags_of cs (_generate_vectors e cs).
Proof.
  intros Hp.
  assert (H : Forall2 tags_of cs (_generate_vectors e cs)).
  { unfold _generate_vectors. destruct (negb (has_api_key e)).
    - unfold placeholder_vectors. induction cs as [|c cs IH]; cbn [map];
        constructor; [split; reflexivity|exact IH].
    - destruct (embed_batches_tagged e Hp (batches cs) 0%nat []) as (vs' & -> & Ht).
      cbn [app]. now rewrite batches_concat in Ht. }
  split; [|exact H]. symmetry. exact (Forall2_length H).
Qed.

Lemma generate_vectors_aligned_witness :
  List.length (_generate_vectors unit_provider [chunk_a; chunk_b]) = 2%nat
  /\ Forall2 tags_of [chunk_a; chunk_b]
       (_generate_vectors unit_provider [chunk_a; chunk_b]).
Proof.
  apply (generate_vectors_aligned unit_provider [chunk_a; chunk_b]).
  intros k texts. eexists. eexists. split; [reflexivity|].
  split; [reflexivity|]. split; [apply length_map|].
  apply Forall_forall. intros item Hin. apply in_map_iff in Hin.
  destruct Hin as (t & <- & _). eexists. reflexivity.
Defined.

(** ** What the adapter never returns *)

Lemma nth_error_skipn_cons {A} (l : list A) : forall i x,
  nth_error l i = Some x -> skipn i l = x :: skipn (S i) l.
Proof.
  induction l as [|y l IH]; intros [|i] x H; cbn in *; try discriminate.
  - now inversion H.
  - now apply IH.
Qed.

Lemma vectors_tagged_app t vs1 vs2 :
  vectors_tagged t (vs1 ++ vs2) = (vectors_tagged t vs1 + vectors_tagged t vs2)%nat.
Proof. unfold vectors_tagged. now rewrite map_app, count_occ_app. Qed.

Lemma chunks_tagged_app t cs1 cs2 :
  chunks_tagged t (cs1 ++ cs2) = (chunks_tagged t cs1 + chunks_tagged t cs2)%nat.
Proof. unfold chunks_tagged. now rewrite map_app, count_occ_app. Qed.

Lemma placeholder_vectors_tagged t batch :
  vectors_tagged t (placeholder_vectors batch) = chunks_tagged t batch.
Proof.
  unfold vectors_tagged, chunks_tagged, placeholder_vectors.
  now rewrite map_map.
Qed.

(** The loop over the items of a body appends, for each chunk of the
    batch from the position [j] on, at most one vector: vectors of the
    chunks of the batch, and no more under a tag than the batch has chunks
    under it. *)
Lemma append_embeddings_from_batch (batch : list chunk) : forall items j vs,
  exists extra o,
    append_embeddings batch j items vs = (vs ++ extra, o)
    /\ Forall (from_chunks batch) extra
    /\ (forall t, vectors_tagged t extra <= chunks_tagged t (skipn j batch))%nat.
Proof.
  induction items as [|item items IH]; intros j vs; cbn [append_embeddings].
  - exists [], None. rewrite app_nil_r. repeat split; [constructor|].
    intros t. cbn. lia.
  - destruct (nth_error batch j) as [c|] eqn:Hj.
    + destruct (getitem_str item "embedding") as [v|ex].
      * destruct (IH (S j) (vs ++ [mkVector (chunk_id c) v (chunk_index c)]))
          as (extra & o & -> & Hall & Hcount).
        exists (mkVector (chunk_id c) v (chunk_index c) :: extra), o.
        split; [now rewrite <- app_assoc|]. split.
        -- constructor; [|exact Hall]. exists c.
           split; [eapply nth_error_In; eassumption|split; reflexivity].
        -- intros t. rewrite (nth_error_skipn_cons batch j c Hj).
           specialize (Hcount t). unfold vectors_tagged, chunks_tagged in *.
           cbn [map count_occ].
           change (vector_tag (mkVector (chunk_id c) v (chunk_index c)))
             with (chunk_tag c).
           destruct (tag_eq_dec (chunk_tag c) t); lia.
      * exists [], (Some ex). rewrite app_nil_r. repeat split; [constructor|].
        intros t. cbn. lia.
    + destruct (IH (S j) vs) as (extra & o & -> & Hall & Hcount).
      exists extra, o. repeat split; [exact Hall|].
      intros t. specialize (Hcount t).
      apply nth_error_None in Hj.
      rewrite skipn_all2 in Hcount by lia. now rewrite skipn_all2 by lia.
Qed.

Lemma placeholder_vectors_from_batch batch :
  Forall (from_chunks batch) (placeholder_vectors batch).
Proof.
  apply Forall_forall. intros v Hin. unfold placeholder_vectors in Hin.
  apply in_map_iff in Hin. destruct Hin as (c & <- & Hc).
  exists c. split; [exact Hc|split; reflexivity].
Qed.

(** One batch: the vectors of the items that could be used, and after
    them, when the body fails, one placeholder per chunk of the batch. *)
Lemma embed_batch_from_batch response batch vs :
  exists extra,
    embed_batch response batch vs = vs ++ extra
    /\ Forall (from_chunks batch) extra
    /\ (forall t, vectors_tagged t extra <= 2 * chunks_tagged t batch)%nat.
Proof.
  pose proof (placeholder_vectors_from_batch batch) as Hph.
  assert (Hfail : exists extra,
             vs ++ placeholder_vectors batch = vs ++ extra
             /\ Forall (from_chunks batch) extra
             /\ (forall t, vectors_tagged t extra <= 2 * chunks_tagged t batch)%nat).
  { exists (placeholder_vectors batch). repeat split; [exact Hph|].
    intros t. rewrite placeholder_vectors_tagged. lia. }
  unfold embed_batch, try_batch.
  destruct response as [v|ex]; [|exact Hfail].
  destruct (contains_str "data" v) as [[|]|ex]; [| |exact Hfail].
  - destruct (getitem_str v "data") as [data|ex]; [|exact Hfail].
    destruct (iter data) as [items|ex]; [|exact Hfail].
    destruct (append_embeddings_from_batch batch items 0%nat vs)
      as (extra & o & -> & Hall & Hcount).
    cbn [skipn] in Hcount.
    destruct o.
    + exists (extra ++ placeholder_vectors batch).
      split; [now rewrite app_assoc|]. split; [now apply Forall_app|].
      intros t. specialize (Hcount t).
      rewrite vectors_tagged_app, placeholder_vectors_tagged. lia.
    + exists extra. repeat split; [exact Hall|].
      intros t. specialize (Hcount t). lia.
  - exact Hfail.
Qed.

Lemma from_chunks_incl cs1 cs2 v :
  incl cs1 cs2 -> from_chunks cs1 v -> from_chunks cs2 v.
Proof. intros Hi (c & Hc & Ht). exists c. split; [now apply Hi|exact Ht]. Qed.

Lemma embed_batches_from_chunks (e : env) : forall bs k vs,
  exists extra,
    embed_batches e k bs vs = vs ++ extra
    /\ Forall (from_chunks (List.concat bs)) extra
    /\ (forall t, vectors_tagged t extra
                  <= 2 * chunks_tagged t (List.concat bs))%nat.
Proof.
  induction bs as [|b bs IH]; intros k vs; cbn [embed_batches List.concat].
  - exists []. rewrite app_nil_r. repeat split; [constructor|].
    intros t. cbn. lia.
  - destruct (embed_batch_from_batch (embed e k (map chunk_text b)) b vs)
      as (x1 & -> & H1 & L1).
    destruct (IH (S k) (vs ++ x1)) as (x2 & -> & H2 & L2).
    exists (x1 ++ x2). split; [now rewrite app_assoc|]. split.
    + apply Forall_app. split.
      * eapply Forall_impl; [|exact H1]. intros v.
        apply from_chunks_incl. now apply incl_appl.
      * eapply Forall_impl; [|exact H2]. intros v.
        apply from_chunks_incl. now apply incl_appr.
    + intros t. specialize (L1 t). specialize (L2 t).
      rewrite vectors_tagged_app, chunks_tagged_app. lia.
Qed.

(** X8. Whatever the provider answers, every vector [_generate_vectors]
    returns carries the id and the index of one of the input chunks, and
    it returns at most two vectors per chunk: under every pair of an id
    and an index there are at most twice as many vectors as the input has
    chunks. *)
Theorem generate_vectors_from_chunks (e : env) (cs : list chunk) :
  Forall (from_chunks cs) (_generate_vectors e cs)
  /\ (forall t : string * Z,
        (vectors_tagged t (_generate_vectors e cs) <= 2 * chunks_tagged t cs)%nat).
Proof.
  unfold _generate_vectors. destruct (negb (has_api_key e)).
  - split; [apply placeholder_vectors_from_batch|].
    intros t. rewrite placeholder_vectors_tagged. lia.
  - destruct (embed_batches_from_chunks e (batches cs) 0%nat [])
      as (extra & -> & Hall & Hcount).
    cbn [app]. rewrite batches_concat in Hall.
    split; [exact Hall|].
    intros t. specialize (Hcount t). now rewrite batches_concat in Hcount.
Qed.

(** With the ids of the second claim's input: the chunk [a] gets two
    vectors and the chunk [b] one. *)
Example generate_vectors_two_for_one :
  map vector_tag (_generate_vectors (embedding_answers second_item_broken)
                    [chunk_a; chunk_b])
  = [("a", 0); ("a", 0); ("b", 1)]%string.
Proof. vm_compute. reflexivity. Qed.

(** * More on the collection store *)

Lemma update_other s doc_id d k : k <> doc_id -> update s doc_id d k = s k.
Proof.
  intros H. unfold update. apply String.eqb_neq in H. now rewrite H.
Qed.

Lemma write_json_ok doc_id a v s d :
  s doc_id = Some d ->
  write_json false false doc_id a v s
  = (Ok tt, update s doc_id (set_file d a (Json v))).
Proof. intros H. unfold write_json. now rewrite H. Qed.

(** The three writes of a build, on a store where the directory exists. *)
Lemma three_writes doc_id s0 d0 v1 v2 v3 :
  s0 doc_id = Some d0 ->
  exists s3,
    io_bind (write_json false false doc_id MetadataFile v1) (fun _ =>
    io_bind (write_json false false doc_id ChunksFile v2) (fun _ =>
             write_json false false doc_id VectorsFile v3)) s0 = (Ok tt, s3)
    /\ s3 doc_id = Some (mkDir (Some (Json v2)) (Some (Json v3)) (Some (Json v1)))
    /\ forall k, k <> doc_id -> s3 k = s0 k.
Proof.
  intros H0. eexists. unfold io_bind.
  rewrite (write_json_ok _ _ _ _ _ H0).
  rewrite (write_json_ok _ _ _ _ _ (update_same _ _ _)).
  rewrite (write_json_ok _ _ _ _ _ (update_same _ _ _)).
  split; [reflexivity|]. split.
  - rewrite update_same. reflexivity.
  - intros k Hk. now rewrite !update_other by exact Hk.
Qed.

Lemma create_steps_no_faults
  (e : env) (doc_id doc_content : string) (md : list (string * pyval))
  (chunk_size chunk_overlap : Z) (s : store) :
  exists cs s',
    _split_text (uuid e) doc_content chunk_size chunk_overlap = Ok cs
    /\ create_steps e no_faults doc_id doc_content (PDict md)
         chunk_size chunk_overlap s
       = (Ok (cs, _generate_vectors e cs), s')
    /\ s' doc_id
       = Some (built e doc_id doc_content md chunk_size chunk_overlap cs)
    /\ forall k, k <> doc_id -> s' k = s k.
Proof.
  unfold _split_text. eexists.
  assert (Hmk : exists s0 d0,
             makedirs false doc_id s = (Ok tt, s0) /\ s0 doc_id = Some d0
             /\ forall k, k <> doc_id -> s0 k = s k).
  { unfold makedirs. destruct (s doc_id) as [d|] eqn:Hd.
    - exists s, d. auto.
    - exists (update s doc_id empty_dir), empty_dir.
      split; [reflexivity|]. split; [apply update_same|].
      intros k Hk. now apply update_other. }
  destruct Hmk as (s0 & d0 & Hmk & Hd0 & Hother0).
  destruct (three_writes doc_id s0 d0
              (metadata_to_json e (PDict md) chunk_size chunk_overlap
                 (summary e doc_content
                    (title_of md doc_id)))
              (PList (map chunk_to_json
                 (save_chunk (uuid e)
                    (chunks (split_loop (uuid e) doc_content chunk_size))
                    (current_chunk (split_loop (uuid e) doc_content chunk_size)))))
              (PList (map vector_to_json (_generate_vectors e
                 (save_chunk (uuid e)
                    (chunks (split_loop (uuid e) doc_content chunk_size))
                    (current_chunk (split_loop (uuid e) doc_content chunk_size))))))
              Hd0) as (s3 & Hw & Hd3 & Hother3).
  exists s3. split; [reflexivity|].
  split; [|split; [exact Hd3|]].
  - unfold create_steps. cbn [makedirs_fails open_metadata_fails
      dump_metadata_fails open_chunks_fails dump_chunks_fails
      open_vectors_fails dump_vectors_fails no_faults get_str].
    unfold io_bind at 1. unfold io_lift at 1.
    unfold io_bind at 1. rewrite Hmk.
    unfold io_bind in Hw |- *. unfold io_lift, _split_text.
    destruct (write_json false false doc_id MetadataFile _ s0) as [[[]|ex] s1];
      [|discriminate].
    destruct (write_json false false doc_id ChunksFile _ s1) as [[[]|ex] s2];
      [|discriminate].
    destruct (write_json false false doc_id VectorsFile _ s2) as [[[]|ex] s3'];
      [|discriminate].
    now inversion Hw.
  - intros k Hk. now rewrite Hother3, Hother0.
Qed.

(** X9. With no fault of the file system and a dict as metadata,
    [create_vector_db] returns [True] and leaves under [doc_id] exactly the
    three artifacts of this build (the chunks of [_split_text], the vectors
    of [_generate_vectors], the metadata), whatever was there before. *)
Theorem create_builds_collection
  (e : env) (doc_id doc_content : string) (md : list (string * pyval))
  (chunk_size chunk_overlap : Z) (s : store) :
  exists cs,
    _split_text (uuid e) doc_content chunk_size chunk_overlap = Ok cs
    /\ fst (create_vector_db e no_faults doc_id doc_content (PDict md)
              chunk_size chunk_overlap s) = true
    /\ snd (create_vector_db e no_faults doc_id doc_content (PDict md)
              chunk_size chunk_overlap s) doc_id
       = Some (built e doc_id doc_content md chunk_size chunk_overlap cs).
Proof.
  destruct (create_steps_no_faults e doc_id doc_content md chunk_size
              chunk_overlap s) as (cs & s' & Hcs & Hsteps & Hd & Hother).
  exists cs. split; [exact Hcs|].
  unfold create_vector_db. rewrite Hsteps. cbn [fst snd]. auto.
Qed.

(** X10. After such a build [get_vector_db_status] reports the collection
    as existing, with the number of chunks [_split_text] produced, the
    time of the build, the chunk size and overlap of the call and the
    summary. *)
Theorem status_after_create
  (e : env) (doc_id doc_content : string) (md : list (string * pyval))
  (chunk_size chunk_overlap : Z) (s : store) :
  exists cs,
    _split_text (uuid e) doc_content chunk_size chunk_overlap = Ok cs
    /\ get_vector_db_status
         (snd (create_vector_db e no_faults doc_id doc_content (PDict md)
                 chunk_size chunk_overlap s)) doc_id
       = Ok (status_dict true true (Z.of_nat (List.length cs))
               (PStr (now e)) (PInt chunk_size) (PInt chunk_overlap)
               (PStr (summary e doc_content (title_of md doc_id)))).
Proof.
  destruct (create_steps_no_faults e doc_id doc_content md chunk_size
              chunk_overlap s) as (cs & s' & Hcs & Hsteps & Hd & _).
  exists cs. split; [exact Hcs|].
  unfold create_vector_db. rewrite Hsteps. cbn [snd].
  unfold get_vector_db_status. rewrite Hd. cbn. now rewrite length_map.
Qed.

Lemma touches_only_lift {A} doc_id (r : result A) : touches_only doc_id (io_lift r).
Proof. intros s r' s' H k _. unfold io_lift in H. now inversion H. Qed.

Lemma touches_only_bind {A B} doc_id (m : io A) (f : A -> io B) :
  touches_only doc_id m -> (forall a, touches_only doc_id (f a)) ->
  touches_only doc_id (io_bind m f).
Proof.
  intros Hm Hf s r s' H k Hk. apply io_bind_inv in H.
  destruct H as [(ex & H & _)|(a & s1 & H & H')].
  - now apply (Hm _ _ _ H).
  - rewrite (Hf a _ _ _ H' k Hk). now apply (Hm _ _ _ H).
Qed.

Lemma touches_only_makedirs fails doc_id : touches_only doc_id (makedirs fails doc_id).
Proof.
  intros s r s' H k Hk. unfold makedirs in H.
  destruct fails; [now inversion H|].
  destruct (s doc_id); inversion H; [reflexivity|].
  now apply update_other.
Qed.

Lemma touches_only_write_json o dmp doc_id a v :
  touches_only doc_id (write_json o dmp doc_id a v).
Proof.
  intros s r s' H k Hk. unfold write_json in H.
  destruct (s doc_id); [|now inversion H].
  destruct o; [now inversion H|].
  destruct dmp; inversion H; now apply update_other.
Qed.

Lemma names_apart_differ doc_id other : names_apart doc_id other -> other <> doc_id.
Proof. intros (_ & _ & H) ->. now apply H. Qed.

(** X11. Whatever its outcome, and whatever fails, [create_vector_db]
    leaves as it was the collection of every other document id that names
    another directory: both ids are plain names of entries of the persist
    directory, and they differ by more than letter case. *)
Theorem create_leaves_other_collections
  (e : env) (ft : faults) (doc_id doc_content : string) (doc_metadata : pyval)
  (chunk_size chunk_overlap : Z) (s : store) (other : string) :
  names_apart doc_id other ->
  snd (create_vector_db e ft doc_id doc_content doc_metadata
         chunk_size chunk_overlap s) other = s other.
Proof.
  intros Hk. apply names_apart_differ in Hk. unfold create_vector_db.
  destruct (create_steps e ft doc_id doc_content doc_metadata chunk_size
              chunk_overlap s) as [r s'] eqn:Hsteps.
  assert (H : s' other = s other).
  { revert Hsteps. unfold create_steps. intros Hsteps.
    eapply (touches_only_bind doc_id); [| |exact Hsteps|exact Hk].
    - apply touches_only_lift.
    - intros title. apply touches_only_bind; [apply touches_only_makedirs|].
      intros _. apply touches_only_bind; [apply touches_only_write_json|].
      intros _. apply touches_only_bind; [apply touches_only_lift|].
      intros cs. apply touches_only_bind; [apply touches_only_write_json|].
      intros _. apply touches_only_bind; [apply touches_only_write_json|].
      intros _. apply touches_only_lift. }
  destruct r; exact H.
Qed.

Lemma create_leaves_other_collections_witness :
  snd (create_vector_db offline vectors_dump_fault "d" "alpha" (PDict [])
         500 100 store_with_d) "other"%string
  = store_with_d "other"%string.
Proof.
  apply create_leaves_other_collections.
  split; [reflexivity|]. split; [reflexivity|]. vm_compute. discriminate.
Defined.

(** X12. Metadata that is no dict makes [create_vector_db] return [False]
    before it touches the file system: the store is left as it was. *)
Theorem create_rejects_non_dict_metadata
  (e : env) (ft : faults) (doc_id doc_content : string) (doc_metadata : pyval)
  (chunk_size chunk_overlap : Z) (s : store) :
  (forall md, doc_metadata <> PDict md) ->
  create_vector_db e ft doc_id doc_content doc_metadata chunk_size chunk_overlap s
  = (false, s).
Proof.
  intros H. destruct doc_metadata; try reflexivity.
  exfalso. now apply (H d).
Qed.

Lemma create_rejects_non_dict_metadata_witness :
  create_vector_db offline no_faults "d" "alpha" PNone 500 100 empty_store
  = (false, empty_store).
Proof. apply create_rejects_non_dict_metadata. discriminate. Defined.

(** X13. [get_vector_db_status] tolerates a metadata artifact that is
    missing or does not decode: it returns, with the literals it falls
    back on for the time, the sizes and the summary; and a chunks artifact
    that is missing or does not decode counts as zero chunks. *)
Theorem status_defaults (s : store) (doc_id : string) (d : dir) :
  s doc_id = Some d ->
  metadata_json d = None \/ metadata_json d = Some Garbage ->
  exists n,
    get_vector_db_status s doc_id
    = Ok (status_dict (file_exists d ChunksFile) (file_exists d VectorsFile) n
            UNKNOWN (PInt 0) (PInt 0) NO_SUMMARY)
    /\ (chunks_json d = None \/ chunks_json d = Some Garbage -> n = 0).
Proof.
  intros Hd Hmeta. unfold get_vector_db_status. rewrite Hd.
  assert (Hm : (if file_exists d MetadataFile
                then try_except (load_json d MetadataFile) (fun _ => PDict [])
                else PDict []) = PDict []).
  { unfold file_exists, load_json. cbn [get_file].
    destruct Hmeta as [->| ->]; reflexivity. }
  rewrite Hm. cbn [get_str assoc bind].
  eexists. split; [reflexivity|].
  intros [Hc|Hc]; unfold file_exists, load_json; cbn [get_file];
    rewrite Hc; reflexivity.
Qed.

Lemma status_defaults_witness :
  exists n,
    get_vector_db_status no_metadata "d"
    = Ok (status_dict true true n UNKNOWN (PInt 0) (PInt 0) NO_SUMMARY)
    /\ (Some (Json three_chunks) = None
        \/ Some (Json three_chunks) = Some Garbage -> n = 0).
Proof.
  apply (status_defaults no_metadata "d"
           (mkDir (Some (Json three_chunks)) (Some (Json three_vectors)) None)).
  - reflexivity.
  - left. reflexivity.
Defined.

(** X14. It does not tolerate a metadata artifact that decodes to
    something other than an object: the [metadata.get] calls are outside
    the [try] blocks, and the call raises [AttributeError]. *)
Theorem status_raises_on_odd_metadata (s : store) (doc_id : string) (d : dir)
  (v : pyval) :
  s doc_id = Some d ->
  metadata_json d = Some (Json v) ->
  (forall md, v <> PDict md) ->
  get_vector_db_status s doc_id = Raise AttributeError.
Proof.
  intros Hd Hmeta Hv. unfold get_vector_db_status. rewrite Hd.
  assert (Hm : (if file_exists d MetadataFile
                then try_except (load_json d MetadataFile) (fun _ => PDict [])
                else PDict []) = v).
  { unfold file_exists, load_json. cbn [get_file]. now rewrite Hmeta. }
  rewrite Hm.
  destruct v; try reflexivity. exfalso. now apply (Hv d0).
Qed.

Lemma status_raises_on_odd_metadata_witness :
  get_vector_db_status odd_metadata "d" = Raise AttributeError.
Proof.
  apply (status_raises_on_odd_metadata odd_metadata "d"
           (mkDir (Some (Json three_chunks)) (Some (Json three_vectors))
                  (Some (Json (PList [])))) (PList [])).
  - reflexivity.
  - reflexivity.
  - discriminate.
Defined.

(** * Deleting a collection *)

Lemma get_file_clear_same d a : get_file (clear_file d a) a = None.
Proof. destruct a; reflexivity. Qed.

Lemma get_file_clear_other d a b :
  b <> a -> get_file (clear_file d a) b = get_file d b.
Proof. destruct a, b; intros H; try reflexivity; congruence. Qed.

Lemma get_file_clear d a b :
  get_file (clear_file d a) b = get_file d b
  \/ get_file (clear_file d a) b = None.
Proof. destruct a, b; cbn; auto. Qed.

Lemma unset_same s doc_id : unset s doc_id doc_id = None.
Proof. unfold unset. now rewrite String.eqb_refl. Qed.

Lemma unset_other s doc_id k : k <> doc_id -> unset s doc_id k = s k.
Proof. intros H. unfold unset. apply String.eqb_neq in H. now rewrite H. Qed.

Lemma artifact_eq_dec (a b : artifact) : {a = b} + {a <> b}.
Proof. decide equality. Qed.

(** When no removal fails, the loop removes every file it was given and
    no other. *)
Lemma remove_all_ok (os : delete_os) (doc_id : string) :
  (forall a, remove_fails os a = false) ->
  forall files s d,
    s doc_id = Some d ->
    NoDup files ->
    (forall a, In a files -> file_exists d a = true) ->
    exists s' d',
      remove_all os doc_id files s = (Ok tt, s')
      /\ s' doc_id = Some d'
      /\ (forall a, In a files -> get_file d' a = None)
      /\ (forall a, ~ In a files -> get_file d' a = get_file d a)
      /\ (forall k, k <> doc_id -> s' k = s k).
Proof.
  intros Hok. induction files as [|a rest IH]; intros s d Hd Hnd Hall.
  - exists s, d. cbn. repeat split; auto. intros a [].
  - inversion Hnd as [|? ? Hnotin Hnd']. subst.
    cbn [remove_all]. unfold io_bind, remove at 1.
    rewrite Hd, Hok, (Hall a (or_introl eq_refl)). cbn [orb negb].
    destruct (IH (update s doc_id (clear_file d a)) (clear_file d a))
      as (s' & d' & Hrun & Hd' & Hgone & Hkept & Hother).
    + apply update_same.
    + exact Hnd'.
    + intros b Hb. unfold file_exists.
      rewrite get_file_clear_other by (intros ->; contradiction).
      apply (Hall b). now right.
    + exists s', d'. split; [exact Hrun|]. split; [exact Hd'|].
      split; [|split].
      * intros b [<-|Hb]; [|now apply Hgone].
        rewrite (Hkept a Hnotin). apply get_file_clear_same.
      * intros b Hb. rewrite Hkept by (intros Hin; apply Hb; now right).
        apply get_file_clear_other. intros ->. apply Hb. now left.
      * intros k Hk. rewrite (Hother k Hk). now apply update_other.
Qed.

(** X15. When the operating system fails nothing, [delete_vector_db]
    returns [True] and the collection is gone: the directory no longer
    exists, [get_vector_db_status] answers [{"exists": False}] and
    [search_vector_db] returns nothing for any query. Deleting a
    collection that is not there is such a success too. *)
Theorem delete_removes_collection (os : delete_os) (doc_id : string) (s : store) :
  listdir_fails os = false ->
  (forall a, remove_fails os a = false) ->
  rmdir_fails os = false ->
  NoDup (list_order os) ->
  (forall a, In a (list_order os)) ->
  fst (delete_vector_db os doc_id s) = true
  /\ snd (delete_vector_db os doc_id s) doc_id = None
  /\ get_vector_db_status (snd (delete_vector_db os doc_id s)) doc_id
     = Ok (PDict [("exists", PBool false)]%string)
  /\ (forall e query top_k,
        search_vector_db e (snd (delete_vector_db os doc_id s)) doc_id query top_k
        = []).
Proof.
  intros Hls Hrm Hrd Hnd Hall.
  assert (H : fst (delete_vector_db os doc_id s) = true
              /\ snd (delete_vector_db os doc_id s) doc_id = None).
  { unfold delete_vector_db. destruct (s doc_id) as [d|] eqn:Hd;
      [|cbn [fst snd]; auto].
    rewrite Hls.
    destruct (remove_all_ok os doc_id Hrm (listdir os d) s d Hd)
      as (s' & d' & Hrun & Hd' & Hgone & Hkept & Hother).
    - unfold listdir. now apply NoDup_filter.
    - intros a Ha. unfold listdir in Ha. now apply filter_In in Ha.
    - assert (Hnone : forall a, get_file d' a = None).
      { intros a.
        destruct (in_dec artifact_eq_dec a (listdir os d)) as [Hin|Hout];
          [now apply Hgone|].
        rewrite (Hkept a Hout).
        destruct (get_file d a) eqn:Hg; [|reflexivity].
        exfalso. apply Hout. unfold listdir. apply filter_In.
        split; [apply Hall|]. unfold file_exists. now rewrite Hg. }
      assert (Hempty : dir_is_empty d' = true).
      { unfold dir_is_empty, file_exists. now rewrite !Hnone. }
      unfold io_bind. rewrite Hrun. unfold rmdir.
      rewrite Hd', Hrd, Hempty. cbn [orb negb fst snd].
      split; [reflexivity|]. apply unset_same. }
  destruct H as (Ht & Hgone).
  split; [exact Ht|]. split; [exact Hgone|].
  split.
  - unfold get_vector_db_status. now rewrite Hgone.
  - intros e query top_k. unfold search_vector_db. now rewrite Hgone.
Qed.

Lemma delete_removes_collection_witness :
  let os := obliging [MetadataFile; ChunksFile; VectorsFile] in
  fst (delete_vector_db os "d" searchable) = true
  /\ snd (delete_vector_db os "d" searchable) "d"%string = None
  /\ get_vector_db_status (snd (delete_vector_db os "d" searchable)) "d"
     = Ok (PDict [("exists", PBool false)]%string)
  /\ (forall e query top_k,
        search_vector_db e (snd (delete_vector_db os "d" searchable)) "d"
          query top_k = []).
Proof.
  apply delete_removes_collection.
  - reflexivity.
  - reflexivity.
  - reflexivity.
  - cbn. repeat constructor; cbn; intuition discriminate.
  - intros a. destruct a; cbn; auto.
Defined.

(** Whatever fails, the loop only removes files. *)
Lemma remove_all_only_removes (os : delete_os) (doc_id : string) :
  forall files s d r s',
    s doc_id = Some d ->
    remove_all os doc_id files s = (r, s') ->
    exists d',
      s' doc_id = Some d'
      /\ (forall a, get_file d' a = get_file d a \/ get_file d' a = None)
      /\ (forall k, k <> doc_id -> s' k = s k).
Proof.
  induction files as [|a rest IH]; intros s d r s' Hd Hrun.
  - cbn in Hrun. unfold io_lift in Hrun. inversion Hrun. subst.
    exists d. auto.
  - cbn [remove_all] in Hrun. unfold io_bind, remove at 1 in Hrun.
    rewrite Hd in Hrun.
    destruct (remove_fails os a || negb (file_exists d a)).
    + inversion Hrun. subst. exists d. auto.
    + destruct (IH _ (clear_file d a) _ _ (update_same s doc_id _) Hrun)
        as (d' & Hd' & Hfiles & Hother).
      exists d'. split; [exact Hd'|]. split.
      * intros b. destruct (Hfiles b) as [H|H]; [|now right].
        rewrite H. apply get_file_clear.
      * intros k Hk. rewrite (Hother k Hk). now apply update_other.
Qed.

(** X16. When [delete_vector_db] returns [False], the directory is still
    there; each of its artifacts is as it was or has been removed, none
    has appeared or changed. *)
Theorem failed_delete_only_removes (os : delete_os) (doc_id : string) (s : store) :
  fst (delete_vector_db os doc_id s) = false ->
  exists d d',
    s doc_id = Some d
    /\ snd (delete_vector_db os doc_id s) doc_id = Some d'
    /\ (forall a, get_file d' a = get_file d a \/ get_file d' a = None).
Proof.
  unfold delete_vector_db. destruct (s doc_id) as [d|] eqn:Hd;
    [|cbn; discriminate].
  destruct (listdir_fails os).
  { intros _. exists d, d. cbn [snd]. auto. }
  unfold io_bind.
  destruct (remove_all os doc_id (listdir os d) s) as [[[]|ex] s1] eqn:Hrun.
  - destruct (remove_all_only_removes os doc_id _ _ _ _ _ Hd Hrun)
      as (d1 & Hd1 & Hfiles & Hother).
    unfold rmdir. rewrite Hd1.
    destruct (rmdir_fails os || negb (dir_is_empty d1)); cbn [fst snd];
      [|discriminate].
    intros _. exists d, d1. auto.
  - destruct (remove_all_only_removes os doc_id _ _ _ _ _ Hd Hrun)
      as (d1 & Hd1 & Hfiles & Hother).
    cbn [fst snd]. intros _. exists d, d1. auto.
Qed.

Lemma failed_delete_only_removes_witness :
  exists d d',
    searchable "d"%string = Some d
    /\ snd (delete_vector_db vectors_locked "d" searchable) "d"%string = Some d'
    /\ (forall a, get_file d' a = get_file d a \/ get_file d' a = None).
Proof. apply failed_delete_only_removes. vm_compute. reflexivity. Defined.

(** After that failed deletion the chunks are gone and the vectors are
    not: the collection is reported as not existing. *)
Example failed_delete_half_done :
  status_exists (snd (delete_vector_db vectors_locked "d" searchable)) "d" = false
  /\ vectors_present (snd (delete_vector_db vectors_locked "d" searchable)) "d"
     = true.
Proof. split; vm_compute; reflexivity. Qed.

(** * More on the search *)

Lemma In_slice_to {A} (l : list A) k x : In x (slice_to l k) -> In x l.
Proof.
  unfold slice_to. destruct (k <? 0); intros H;
    match type of H with
    | In _ (firstn ?n _) => rewrite <- (firstn_skipn n l)
    end; apply in_or_app; now left.
Qed.

Lemma generate_query_vector_no_key e query :
  has_api_key e = false -> _generate_query_vector e query = PList [].
Proof. intros H. unfold _generate_query_vector. now rewrite H. Qed.

Lemma keyword_search_without_key
  (e : env) (s : store) (doc_id query : string) (top_k : Z)
  (d : dir) (cs : list chunk) (vectors : list pyval) :
  has_api_key e = false ->
  s doc_id = Some d ->
  chunks_json d = Some (Json (PList (map chunk_to_json cs))) ->
  vectors_json d = Some (Json (PList vectors)) ->
  search_vector_db e s doc_id query top_k
  = slice_to (map keyword_hit (filter (keyword_match query) cs)) top_k.
Proof.
  intros Hkey Hd Hc Hv. unfold search_vector_db. rewrite Hd.
  unfold file_exists, vector_search, scored, load_json. cbn [get_file].
  rewrite Hc, Hv. cbn [negb orb bind len].
  rewrite (generate_query_vector_no_key e query Hkey).
  cbn [query_vector_unusable truthy negb bind].
  now rewrite fallback_keyword_search_matches.
Qed.

(** X17. Without credentials [search_vector_db] is the keyword search: on
    a collection whose chunks artifact holds the chunks [cs], it returns
    the chunks whose text contains the query, letter case aside, in the
    order of the chunks, each with the placeholder score [0.8], cut at
    [top_k]. The vectors are not looked at. *)
Theorem search_without_key_is_keyword_search
  (e : env) (s : store) (doc_id query : string) (top_k : Z)
  (d : dir) (cs : list chunk) (vectors : list pyval) :
  has_api_key e = false ->
  s doc_id = Some d ->
  chunks_json d = Some (Json (PList (map chunk_to_json cs))) ->
  vectors_json d = Some (Json (PList vectors)) ->
  search_vector_db e s doc_id query top_k
  = slice_to (map keyword_hit (filter (keyword_match query) cs)) top_k
  /\ Forall (fun h => hit_score h = keyword_score)
            (search_vector_db e s doc_id query top_k).
Proof.
  intros Hkey Hd Hc Hv.
  rewrite (keyword_search_without_key e s doc_id query top_k d cs vectors
             Hkey Hd Hc Hv).
  split; [reflexivity|].
  apply Forall_forall. intros h Hin. apply In_slice_to in Hin.
  apply in_map_iff in Hin. destruct Hin as (c & <- & _). reflexivity.
Qed.

Lemma search_without_key_is_keyword_search_witness :
  search_vector_db offline all_zero "d" "BETA" 2
  = slice_to (map keyword_hit (filter (keyword_match "BETA") three_chunk_list)) 2
  /\ Forall (fun h => hit_score h = keyword_score)
            (search_vector_db offline all_zero "d" "BETA" 2).
Proof.
  apply (search_without_key_is_keyword_search offline all_zero "d" "BETA" 2
           all_zero_dir three_chunk_list (map vector_to_json zero_vector_list));
    reflexivity.
Defined.

(** X18. Build then search, without credentials: after a build with no
    fault of the file system, [search_vector_db] returns the chunks of
    [_split_text] whose text contains the query, in document order. *)
Theorem search_after_create_without_key
  (e : env) (doc_id doc_content : string) (md : list (string * pyval))
  (chunk_size chunk_overlap : Z) (s : store) (query : string) (top_k : Z) :
  has_api_key e = false ->
  exists cs,
    _split_text (uuid e) doc_content chunk_size chunk_overlap = Ok cs
    /\ search_vector_db e
         (snd (create_vector_db e no_faults doc_id doc_content (PDict md)
                 chunk_size chunk_overlap s)) doc_id query top_k
       = slice_to (map keyword_hit (filter (keyword_match query) cs)) top_k.
Proof.
  intros Hkey.
  destruct (create_steps_no_faults e doc_id doc_content md chunk_size
              chunk_overlap s) as (cs & s' & Hcs & Hsteps & Hd & _).
  exists cs. split; [exact Hcs|].
  unfold create_vector_db. rewrite Hsteps. cbn [snd].
  eapply keyword_search_without_key;
    [exact Hkey|exact Hd|reflexivity|reflexivity].
Qed.

Lemma search_after_create_without_key_witness :
  exists cs,
    _split_text (uuid offline) three_paragraphs 5 0 = Ok cs
    /\ search_vector_db offline
         (snd (create_vector_db offline no_faults "d" three_paragraphs (PDict [])
                 5 0 empty_store)) "d" "b" 1
       = slice_to (map keyword_hit (filter (keyword_match "b") cs)) 1.
Proof. apply search_after_create_without_key. reflexivity. Defined.

(** On the round trip of three paragraphs, the query ["B"] finds the second
    chunk and no other. *)
Example search_round_trip :
  map hit_text
    (search_vector_db offline
       (snd (create_vector_db offline no_faults "d" three_paragraphs (PDict [])
               5 0 empty_store)) "d" "B" 1)
  = [PStr "B."].
Proof. vm_compute. reflexivity. Qed.

(** ** Vectors of another dimension *)

Lemma getitem_vector_to_json v :
  getitem_str (vector_to_json v) "vector" = Ok (vector_vector v).
Proof. reflexivity. Qed.

Lemma rank_loop_all_skipped e chunks n qv (vs : list vector) :
  len chunks = Ok n ->
  Forall (fun v => exists l, vector_vector v = PList l
                             /\ List.length l <> List.length qv) vs ->
  forall i results,
    rank_loop e chunks (PList qv) i (map vector_to_json vs) results = Ok results.
Proof.
  intros Hn. induction 1 as [|v vs (l & Hl & Hne) _ IH]; intros i results;
    cbn [map rank_loop]; [reflexivity|].
  unfold rank_step at 1. rewrite Hn. cbn [bind].
  destruct (Z.of_nat i <? n).
  - rewrite getitem_vector_to_json, Hl. cbn [bind len].
    replace (Z.of_nat (List.length l) =? Z.of_nat (List.length qv)) with false
      by (symmetry; apply Z.eqb_neq; lia).
    cbn [negb]. apply IH.
  - apply IH.
Qed.

(** X19. Vectors whose dimension differs from that of the query vector are
    skipped: when every stored vector has another length than the query
    vector, [search_vector_db] returns nothing, with no error and no
    fallback to the keyword search. *)
Theorem search_skips_other_dimensions
  (e : env) (s : store) (doc_id query : string) (top_k : Z)
  (d : dir) (chunks : list pyval) (vs : list vector) (qv : list pyval) :
  s doc_id = Some d ->
  chunks_json d = Some (Json (PList chunks)) ->
  vectors_json d = Some (Json (PList (map vector_to_json vs))) ->
  _generate_query_vector e query = PList qv ->
  qv <> [] ->
  Forall (fun v => exists l, vector_vector v = PList l
                             /\ List.length l <> List.length qv) vs ->
  search_vector_db e s doc_id query top_k = [].
Proof.
  intros Hd Hc Hv Hq Hne Hall. unfold search_vector_db. rewrite Hd.
  unfold file_exists, vector_search, scored, load_json. cbn [get_file].
  rewrite Hc, Hv. cbn [negb orb bind len]. rewrite Hq.
  assert (Hu : query_vector_unusable (PList qv) = Ok false).
  { unfold query_vector_unusable. destruct qv as [|x qv]; [congruence|].
    cbn. reflexivity. }
  rewrite Hu. cbn [bind iter].
  rewrite (rank_loop_all_skipped e (PList chunks) _ qv vs eq_refl Hall).
  unfold sort_desc. cbn [bind try_except nan_free forallb fold_right].
  unfold slice_to. destruct (top_k <? 0); now rewrite firstn_nil.
Qed.

Lemma search_skips_other_dimensions_witness :
  search_vector_db (embedding_answers (embedding_body 1 0)) three_dim
    "d" "beta" 3 = [].
Proof.
  apply (search_skips_other_dimensions _ three_dim "d" "beta" 3 three_dim_dir
           (map chunk_to_json three_chunk_list) three_dim_vectors
           [PFloat 1%float; PFloat 0%float]).
  - reflexivity.
  - reflexivity.
  - reflexivity.
  - reflexivity.
  - discriminate.
  - repeat constructor; eexists; (split; [reflexivity|cbn; lia]).
Defined.

(** ** Symmetry of the cosine *)

Lemma float_mul_comm (x y : float) : (x * y = y * x)%float.
Proof.
  apply Prim2SF_inj. rewrite !mul_spec. unfold SF64mul, SFmul.
  destruct (Prim2SF x) as [sx|sx| |sx mx ex], (Prim2SF y) as [sy|sy| |sy my ey];
    try reflexivity; try (now rewrite xorb_comm).
  now rewrite xorb_comm, Pos.mul_comm, Z.add_comm.
Qed.

Lemma float_dot_comm (vec1 : list float) : forall vec2,
  float_dot vec1 vec2 = float_dot vec2 vec1.
Proof.
  unfold float_dot.
  assert (H : forall vec2,
             map (fun ab => (fst ab * snd ab)%float) (combine vec1 vec2)
             = map (fun ab => (fst ab * snd ab)%float) (combine vec2 vec1)).
  { induction vec1 as [|a vec1 IH]; intros [|b vec2]; cbn; try reflexivity.
    now rewrite IH, float_mul_comm. }
  intros vec2. now rewrite H.
Qed.

(** X20. [_cosine_similarity] is symmetric: for every pair of vectors of
    floats, swapping the arguments gives the same float, bit for bit,
    whatever the C library computes for the power. *)
Theorem cosine_similarity_symmetric (libm : float -> float) (vec1 vec2 : list float) :
  _cosine_similarity libm (floats vec1) (floats vec2)
  = _cosine_similarity libm (floats vec2) (floats vec1).
Proof.
  rewrite !cosine_similarity_value.
  rewrite (Nat.eqb_sym (List.length vec2)), (float_dot_comm vec2),
    (float_mul_comm (float_magnitude libm vec2)).
  reflexivity.
Qed.
(** ** A collection of zero vectors *)

Lemma float_sum_zeros (n : nat) :
  float_sum (map (fun a => (a * a)%float) (repeat 0%float n)) = 0%float.
Proof.
  unfold float_sum. induction n as [|n IH]; cbn [repeat map fold_left];
    [reflexivity|].
  change (0 + 0 * 0)%float with 0%float. exact IH.
Qed.

(** The power [0.5] of zero is zero on every platform. *)
Lemma magnitude_zeros libm (n : nat) :
  float_magnitude libm (repeat 0%float n) = 0%float.
Proof. unfold float_magnitude. now rewrite float_sum_zeros. Qed.

(** A zero vector scores [0.0] against every vector of its length whose
    magnitude is finite. *)
Lemma cosine_against_zeros libm (qv : list float) :
  PrimFloat.is_finite (float_magnitude libm qv) = true ->
  _cosine_similarity libm (floats qv) (floats (repeat 0%float (List.length qv)))
  = Ok 0%float.
Proof.
  intros Hfin. rewrite cosine_similarity_value.
  rewrite repeat_length, Nat.eqb_refl. cbn [negb].
  rewrite finite_mul_zero; [reflexivity|exact Hfin|].
  now rewrite magnitude_zeros.
Qed.

Lemma cosine_of_values_zeros e (qv : list float) :
  PrimFloat.is_finite (float_magnitude (libm_pow_half e) qv) = true ->
  cosine_of_values e (PList (map PFloat qv))
                   (PList (repeat (PFloat 0%float) (List.length qv)))
  = Ok 0%float.
Proof.
  intros Hfin. unfold cosine_of_values. cbn [iter bind].
  replace (repeat (PFloat 0%float) (List.length qv))
    with (floats (repeat 0%float (List.length qv)))
    by apply map_repeat.
  now apply cosine_against_zeros.
Qed.

Lemma rank_step_zero e (cs : list chunk) (qv : list float) (i : nat) (v : vector)
  (results : list hit) :
  PrimFloat.is_finite (float_magnitude (libm_pow_half e) qv) = true ->
  vector_vector v = PList (repeat (PFloat 0%float) (List.length qv)) ->
  rank_step e (PList (map chunk_to_json cs)) (PList (map PFloat qv)) i
            (vector_to_json v) results
  = Ok (match nth_error cs i with
        | Some c => results ++ [zero_hit c]
        | None => results
        end).
Proof.
  intros Hfin Hv. unfold rank_step. cbn [len bind]. rewrite length_map.
  destruct (nth_error cs i) as [c|] eqn:Hi.
  - assert (Hlt : (i < List.length cs)%nat) by (apply nth_error_Some; congruence).
    replace (Z.of_nat i <? Z.of_nat (List.length cs)) with true
      by (symmetry; apply Z.ltb_lt; lia).
    rewrite getitem_vector_to_json, Hv. cbn [bind len].
    rewrite repeat_length, length_map, Z.eqb_refl. cbn [negb].
    rewrite (cosine_of_values_zeros e qv Hfin). cbn [bind getitem_nat].
    rewrite nth_error_map, Hi. reflexivity.
  - apply nth_error_None in Hi.
    replace (Z.of_nat i <? Z.of_nat (List.length cs)) with false
      by (symmetry; apply Z.ltb_ge; lia).
    reflexivity.
Qed.

Lemma rank_loop_zeros e (cs : list chunk) (qv : list float) (vs : list vector) :
  PrimFloat.is_finite (float_magnitude (libm_pow_half e) qv) = true ->
  Forall (fun v => vector_vector v
                   = PList (repeat (PFloat 0%float) (List.length qv))) vs ->
  forall i results,
    rank_loop e (PList (map chunk_to_json cs)) (PList (map PFloat qv)) i
              (map vector_to_json vs) results
    = Ok (results ++ map zero_hit (firstn (List.length vs) (skipn i cs))).
Proof.
  intros Hfin. induction 1 as [|v vs Hv _ IH]; intros i results;
    cbn [map rank_loop List.length firstn].
  - now rewrite app_nil_r.
  - rewrite (rank_step_zero e cs qv i v results Hfin Hv). cbn [bind].
    rewrite IH. destruct (nth_error cs i) as [c|] eqn:Hi.
    + rewrite (nth_error_skipn_cons cs i c Hi). cbn [firstn map].
      now rewrite <- app_assoc.
    + apply nth_error_None in Hi.
      rewrite !skipn_all2 by lia. now rewrite firstn_nil.
Qed.

Lemma sort_desc_all_equal e (x : float) (l : list hit) :
  PrimFloat.is_nan x = false ->
  PrimFloat.ltb x x = false ->
  Forall (fun h => hit_score h = x) l -> sort_desc e l = l.
Proof.
  intros Hnan Hx H. rewrite sort_desc_comparable.
  - induction H as [|h l Hh Hl IH]; [reflexivity|].
    cbn [fold_right]. rewrite IH.
    destruct Hl as [|h' l' Hh' Hl']; [reflexivity|].
    cbn [insert_desc]. now rewrite Hh, Hh', Hx.
  - unfold nan_free. apply forallb_forall. intros h Hin.
    rewrite Forall_forall in H. now rewrite (H h Hin), Hnan.
Qed.

(** X21. A collection whose vectors are all zero vectors of the query's
    dimension (what a build without provider stores) ranks nothing: for a
    query vector of finite magnitude every score is [0.0], and
    [search_vector_db] returns the first [top_k] chunks in stored order,
    whatever the query. *)
Theorem search_zero_vectors_returns_first_chunks
  (e : env) (s : store) (doc_id query : string) (top_k : Z)
  (d : dir) (cs : list chunk) (vs : list vector) (qv : list float) :
  s doc_id = Some d ->
  chunks_json d = Some (Json (PList (map chunk_to_json cs))) ->
  vectors_json d = Some (Json (PList (map vector_to_json vs))) ->
  Forall (fun v => vector_vector v
                   = PList (repeat (PFloat 0%float) (List.length qv))) vs ->
  _generate_query_vector e query = PList (map PFloat qv) ->
  qv <> [] ->
  PrimFloat.is_finite (float_magnitude (libm_pow_half e) qv) = true ->
  search_vector_db e s doc_id query top_k
  = slice_to (map zero_hit (firstn (List.length vs) cs)) top_k.
Proof.
  intros Hd Hc Hv Hall Hq Hne Hfin. unfold search_vector_db. rewrite Hd.
  unfold file_exists, vector_search, scored, load_json. cbn [get_file].
  rewrite Hc, Hv. cbn [negb orb bind len]. rewrite Hq.
  assert (Hu : query_vector_unusable (PList (map PFloat qv)) = Ok false).
  { unfold query_vector_unusable. destruct qv as [|x qv]; [congruence|].
    cbn. reflexivity. }
  rewrite Hu. cbn [bind iter].
  rewrite (rank_loop_zeros e cs qv vs Hfin Hall). cbn [bind try_except app skipn].
  rewrite (sort_desc_all_equal e 0%float); [reflexivity|reflexivity|reflexivity|].
  apply Forall_forall. intros h Hin. apply in_map_iff in Hin.
  destruct Hin as (c & <- & _). reflexivity.
Qed.

Lemma search_zero_vectors_returns_first_chunks_witness :
  search_vector_db (embedding_answers (embedding_body 1 0)) all_zero
    "d" "gamma" 2
  = slice_to (map zero_hit (firstn (List.length zero_vector_list) three_chunk_list)) 2.
Proof.
  apply (search_zero_vectors_returns_first_chunks _ all_zero "d" "gamma" 2
           all_zero_dir three_chunk_list zero_vector_list [1; 0]%float).
  - reflexivity.
  - reflexivity.
  - reflexivity.
  - repeat constructor.
  - reflexivity.
  - discriminate.
  - vm_compute. reflexivity.
Defined.

(** * More on the reranker *)

Lemma rerank_step_rescored documents acc result out :
  Forall (fun d' => exists d, In d documents /\ rescored d d') acc ->
  rerank_step documents acc result = Ok out ->
  Forall (fun d' => exists d, In d documents /\ rescored d d') out.
Proof.
  intros Hacc. unfold rerank_step, bind.
  destruct (get_str result "index" (PInt (-1))) as [idx|]; [|discriminate].
  destruct (select_index idx (List.length documents)) as [[i|]|]; [| |discriminate].
  - destruct (nth_error documents i) as [d|] eqn:Hi; [|discriminate].
    destruct (get_str result "relevance_score" (score_or_zero d)); [|discriminate].
    intros H. inversion H. apply Forall_app. split; [exact Hacc|].
    constructor; [|constructor]. exists d.
    split; [eapply nth_error_In; eassumption|split; reflexivity].
  - intros H. inversion H. now subst.
Qed.

Lemma rerank_loop_rescored documents results : forall acc out,
  Forall (fun d' => exists d, In d documents /\ rescored d d') acc ->
  rerank_loop documents results acc = Ok out ->
  Forall (fun d' => exists d, In d documents /\ rescored d d') out.
Proof.
  induction results as [|r rs IH]; intros acc out Hacc H.
  - inversion H. now subst.
  - cbn [rerank_loop] in H. unfold bind in H.
    destruct (rerank_step documents acc r) as [acc'|] eqn:Hstep; [|discriminate].
    eapply IH; [|exact H]. eapply rerank_step_rescored; eassumption.
Qed.

Lemma slice_to_rescored (documents : list doc) top_k :
  Forall (fun d' => exists d, In d documents /\ rescored d d')
         (slice_to documents top_k).
Proof.
  apply Forall_forall. intros d Hd. exists d.
  split; [eapply In_slice_to; eassumption|split; reflexivity].
Qed.

(** X22. Whatever the provider answers, every document [rerank_results]
    returns is one of the candidates, with its text and its other entries;
    only the score may differ. *)
Theorem rerank_returns_candidates
  (e : env) (query : string) (documents : list doc) (top_k : Z) :
  Forall (fun d' => exists d, In d documents /\ rescored d d')
         (rerank_results e query documents top_k).
Proof.
  unfold rerank_results.
  destruct (negb (has_api_key e)); [apply slice_to_rescored|].
  unfold try_except, rerank_try, bind.
  destruct (rerank e query (map doc_text documents) top_k) as [v|];
    [|apply slice_to_rescored].
  destruct (contains_str "results" v) as [[|]|]; try apply slice_to_rescored.
  destruct (getitem_str v "results") as [rs|]; [|apply slice_to_rescored].
  destruct (iter rs) as [items|]; [|apply slice_to_rescored].
  destruct (rerank_loop documents items []) as [out|] eqn:Hloop;
    [|apply slice_to_rescored].
  eapply rerank_loop_rescored; [|exact Hloop]. constructor.
Qed.

Lemma pick_step documents acc r :
  rerank_step documents acc (rerank_entry r) = Ok (acc ++ pick documents r).
Proof.
  unfold rerank_step, rerank_entry, pick. cbn [get_str assoc String.eqb bind].
  cbn. destruct ((0 <=? fst r) && (fst r <? Z.of_nat (List.length documents))) eqn:Hr;
    cbn [bind]; [|now rewrite app_nil_r].
  destruct (nth_error documents (Z.to_nat (fst r))) as [d|] eqn:Hi.
  - reflexivity.
  - exfalso. apply nth_error_None in Hi.
    apply andb_true_iff in Hr. destruct Hr as [H0 H1].
    apply Z.leb_le in H0. apply Z.ltb_lt in H1. lia.
Qed.

Lemma pick_loop documents rs : forall acc,
  rerank_loop documents (map rerank_entry rs) acc
  = Ok (acc ++ flat_map (pick documents) rs).
Proof.
  induction rs as [|r rs IH]; intros acc; cbn [map rerank_loop flat_map].
  - now rewrite app_nil_r.
  - rewrite pick_step. cbn [bind]. rewrite IH. now rewrite app_assoc.
Qed.

(** X23. On a body that follows the provider's contract,
    [{"results": [{"index": i, "relevance_score": sc}, ...]}],
    [rerank_results] returns, in the order of the results, the candidate
    at each index with the provider's score in place of its own, leaving
    out the results whose index is not a position of the candidate list.
    [top_k] plays no part. *)
Theorem rerank_follows_provider_order
  (e : env) (query : string) (documents : list doc) (top_k : Z)
  (rs : list (Z * pyval)) :
  has_api_key e = true ->
  rerank e query (map doc_text documents) top_k
  = Ok (PDict [("results", PList (map rerank_entry rs))]%string) ->
  rerank_results e query documents top_k = flat_map (pick documents) rs.
Proof.
  intros Hkey Hresp. unfold rerank_results. rewrite Hkey. cbn [negb].
  rewrite Hresp. unfold rerank_try. cbn [bind contains_str assoc getitem_str iter].
  cbn. now rewrite pick_loop.
Qed.

Lemma rerank_follows_provider_order_witness :
  rerank_results
    (rerank_answers
       (PDict [("results", PList (map rerank_entry three_entries))]%string))
    "q" two_candidates 1
  = flat_map (pick two_candidates) three_entries.
Proof. apply rerank_follows_provider_order; reflexivity. Defined.

Lemma rerank_loop_raises documents items :
  Exists (fun item => forall d, item <> PDict d) items ->
  forall acc, exists ex, rerank_loop documents items acc = Raise ex.
Proof.
  induction 1 as [item rest Hbad|item rest _ IH]; intros acc;
    cbn [rerank_loop]; unfold bind.
  - assert (H : rerank_step documents acc item = Raise AttributeError).
    { unfold rerank_step. destruct item; try reflexivity.
      exfalso. now apply (Hbad d). }
    rewrite H. eauto.
  - destruct (rerank_step documents acc item) as [acc'|ex]; [apply IH|eauto].
Qed.

(** X24. One result that is no object spoils the whole answer: when the
    [results] list of the body has such an item, wherever it stands,
    [rerank_results] drops what it had reranked so far and returns
    [documents[:top_k]]. *)
Theorem rerank_discards_on_malformed_result
  (e : env) (query : string) (documents : list doc) (top_k : Z)
  (body : list (string * pyval)) (items : list pyval) :
  rerank e query (map doc_text documents) top_k = Ok (PDict body) ->
  assoc "results" body = Some (PList items) ->
  Exists (fun item => forall d, item <> PDict d) items ->
  rerank_results e query documents top_k = slice_to documents top_k.
Proof.
  intros Hresp Hres Hbad. unfold rerank_results.
  destruct (negb (has_api_key e)); [reflexivity|].
  rewrite Hresp. unfold rerank_try. cbn [bind contains_str].
  rewrite Hres. cbn [bind getitem_str]. rewrite Hres. cbn [bind iter].
  destruct (rerank_loop_raises documents items Hbad []) as [ex ->].
  reflexivity.
Qed.

Lemma rerank_discards_on_malformed_result_witness :
  rerank_results
    (rerank_answers (PDict [("results", PList [rerank_item 1 0x1p-1; PNone])]%string))
    "q" two_candidates 1
  = slice_to two_candidates 1.
Proof.
  eapply rerank_discards_on_malformed_result.
  - reflexivity.
  - reflexivity.
  - apply Exists_cons_tl. apply Exists_cons_hd. discriminate.
Defined.

(** * Statistics over the collections *)

Lemma status_chunks_count s doc_id st :
  get_vector_db_status s doc_id = Ok st ->
  get_str st "chunks_count" (PInt 0) = Ok (PInt (chunk_count s doc_id)).
Proof.
  unfold get_vector_db_status, chunk_count.
  destruct (s doc_id) as [d|]; [|intros H; inversion H; reflexivity].
  destruct (if file_exists d MetadataFile
            then try_except (load_json d MetadataFile) (fun _ => PDict [])
            else PDict []) as [| | | | | |md]; cbn; try discriminate.
  intros H. inversion H. reflexivity.
Qed.

Lemma count_chunks_sum s ids : forall total,
  (forall doc_id, In doc_id ids -> exists st, get_vector_db_status s doc_id = Ok st) ->
  count_chunks s ids total = Ok (total + sum_counts s ids).
Proof.
  induction ids as [|doc_id rest IH]; intros total Hall;
    cbn [count_chunks sum_counts].
  - now rewrite Z.add_0_r.
  - destruct (Hall doc_id (or_introl eq_refl)) as [st Hst].
    rewrite Hst. cbn [bind]. rewrite (status_chunks_count _ _ _ Hst).
    cbn [bind add_count]. rewrite IH.
    + now rewrite Z.add_assoc.
    + intros x Hx. apply Hall. now right.
Qed.

(** X25. When [get_vector_db_status] returns for every listed collection,
    [get_vector_db_stats] reports the number of collections listed and the
    sum of their chunk counts, a collection whose chunks artifact is
    missing or unreadable counting for zero. *)
Theorem stats_sum_chunk_counts (ids : list string) (s : store) :
  (forall doc_id, In doc_id ids -> exists st, get_vector_db_status s doc_id = Ok st) ->
  get_vector_db_stats (Ok ids) s
  = stats_dict (Z.of_nat (List.length ids)) (sum_counts s ids).
Proof.
  intros Hall. unfold get_vector_db_stats, get_all_vector_dbs.
  cbn [try_except]. now rewrite (count_chunks_sum s ids 0 Hall).
Qed.

Lemma stats_sum_chunk_counts_witness :
  get_vector_db_stats (Ok ["d"; "gone"]%string) all_zero
  = stats_dict 2 (sum_counts all_zero ["d"; "gone"]%string).
Proof.
  apply (stats_sum_chunk_counts ["d"; "gone"]%string all_zero).
  intros doc_id [<-|[<-|[]]]; eexists; vm_compute; reflexivity.
Defined.

Lemma count_chunks_raises s ids :
  Exists (fun doc_id => exists ex, get_vector_db_status s doc_id = Raise ex) ids ->
  forall total, exists ex, count_chunks s ids total = Raise ex.
Proof.
  induction 1 as [doc_id rest [ex Hex]|doc_id rest _ IH]; intros total;
    cbn [count_chunks].
  - rewrite Hex. cbn [bind]. eauto.
  - unfold bind.
    destruct (get_vector_db_status s doc_id) as [st|]; [|eauto].
    destruct (get_str st "chunks_count" (PInt 0)) as [c|]; [|eauto].
    destruct (add_count total c) as [t|]; [apply IH|eauto].
Qed.

(** X26. One collection on which [get_vector_db_status] raises (a metadata
    artifact that decodes to something other than an object) zeroes the
    whole statistics: [get_vector_db_stats] then reports no collection and
    no chunk, however many there are. *)
Theorem stats_zeroed_by_one_failure
  (listing : result (list string)) (s : store) :
  Exists (fun doc_id => exists ex, get_vector_db_status s doc_id = Raise ex)
         (get_all_vector_dbs listing) ->
  get_vector_db_stats listing s = stats_dict 0 0.
Proof.
  intros H. unfold get_vector_db_stats.
  destruct (count_chunks_raises s _ H 0) as [ex ->]. reflexivity.
Qed.

Lemma stats_zeroed_by_one_failure_witness :
  get_vector_db_stats (Ok ["d"; "odd"]%string) two_collections = stats_dict 0 0.
Proof.
  apply stats_zeroed_by_one_failure.
  apply Exists_cons_tl. apply Exists_cons_hd.
  exists AttributeError. vm_compute. reflexivity.
Defined.

(** * Searching several documents *)

Lemma status_exists_readable s doc_id st :
  get_vector_db_status s doc_id = Ok st ->
  exists b, getitem_str st "exists" = Ok (PBool b).
Proof. intros H. rewrite (status_exists_entry _ _ _ H). eauto. Qed.

Lemma gather_loop_returns e s doc_db query top_k n ids :
  (forall doc_id, In doc_id ids -> doc_db doc_id <> None ->
                  exists st, get_vector_db_status s doc_id = Ok st) ->
  forall g, exists g', gather_loop e s doc_db query top_k n ids g = Ok g'.
Proof.
  induction ids as [|doc_id rest IH]; intros Hall g; cbn [gather_loop]; [eauto|].
  assert (Hstep : exists g1, gather_step e s doc_db query top_k n g doc_id = Ok g1).
  { unfold gather_step. destruct (doc_db doc_id) as [md|] eqn:Hdb; [|eauto].
    destruct (Hall doc_id (or_introl eq_refl)) as [st Hst]; [congruence|].
    rewrite Hst. cbn [bind].
    destruct (status_exists_readable _ _ _ Hst) as [b ->]. cbn [bind truthy].
    destruct b; cbn [negb]; eauto. }
  destruct Hstep as [g1 ->]. cbn [bind]. apply IH.
  intros x Hx. apply Hall. now right.
Qed.

Lemma rank_and_limit_length w e query top_k g :
  0 <= top_k ->
  Z.of_nat (List.length (rank_and_limit w e query top_k g)) <= Z.max 1 top_k.
Proof.
  intros Hk. unfold rank_and_limit. destruct (all_results g) as [|x found].
  - cbn. lia.
  - pose proof (slice_to_length
                  (if Z.of_nat (List.length (sort_docs_desc e (x :: found))) >? top_k
                   then rerank_results e query (sort_docs_desc e (x :: found)) top_k
                   else sort_docs_desc e (x :: found)) top_k Hk).
    lia.
Qed.

(** X27. [search_documents] returns at most [max(1, top_k)] results for
    [top_k >= 0], also when the rerank provider sends more results than it
    was asked for: the list is cut at [top_k] after the reranking. The
    [total] it reports is the number of results. This holds whenever
    [get_vector_db_status] returns for the documents searched; the
    function then returns too. *)
Theorem search_documents_at_most_top_k
  (w : wording) (e : env) (s : store) (doc_db : string -> option (list (string * pyval)))
  (query : string) (doc_ids : list string) (top_k : Z) :
  0 <= top_k ->
  (forall doc_id, In doc_id doc_ids -> doc_db doc_id <> None ->
                  exists st, get_vector_db_status s doc_id = Ok st) ->
  exists response results,
    search_documents w e s doc_db query doc_ids top_k = Ok response
    /\ getitem_str response "results" = Ok (PList results)
    /\ getitem_str response "total" = Ok (PInt (Z.of_nat (List.length results)))
    /\ Z.of_nat (List.length results) <= Z.max 1 top_k.
Proof.
  intros Hk Hall. unfold search_documents.
  destruct (is_empty query).
  { eexists. eexists. split; [reflexivity|].
    split; [reflexivity|]. split; [reflexivity|]. cbn. lia. }
  destruct doc_ids as [|doc_id rest].
  { eexists. eexists. split; [reflexivity|].
    split; [reflexivity|]. split; [reflexivity|]. cbn. lia. }
  destruct (gather_loop_returns e s doc_db query top_k
              (List.length (doc_id :: rest)) (doc_id :: rest) Hall
              (mkGathered [] [])) as [g ->].
  cbn [bind]. eexists. eexists. split; [reflexivity|].
  split; [reflexivity|]. split; [reflexivity|].
  rewrite length_map. now apply rank_and_limit_length.
Qed.

Lemma search_documents_at_most_top_k_witness :
  exists response results,
    search_documents plain_wording (rerank_answers two_results) searchable
      one_document
      "beta" ["d"; "e"]%string 1 = Ok response
    /\ getitem_str response "results" = Ok (PList results)
    /\ getitem_str response "total" = Ok (PInt (Z.of_nat (List.length results)))
    /\ Z.of_nat (List.length results) <= Z.max 1 1.
Proof.
  apply search_documents_at_most_top_k.
  - lia.
  - intros doc_id [<-|[<-|[]]] _; eexists; vm_compute; reflexivity.
Defined.

(** On that input the two keyword matches are reranked by a provider that
    returns both although one was asked for, and one is returned. *)
Example search_documents_cuts_after_rerank :
  option_map (map (fun r => getitem_str r "text"))
    (match search_documents plain_wording (rerank_answers two_results) searchable
      one_document
             "beta" ["d"; "e"]%string 1 with
     | Ok response =>
         match getitem_str response "results" with
         | Ok (PList rs) => Some rs
         | _ => None
         end
     | Raise _ => None
     end)
  = Some [Ok (PStr "Beta gamma")].
Proof. vm_compute. reflexivity. Qed.
